(** * ethspeed: the HTTP throughput test of [main.go]

    A shallow embedding of the server handlers ([downloadHandler],
    [uploadHandler], [statsHandler], [healthHandler], with [parseBytes] and
    [formatBytes]), of the client test runners ([runDownloadTest],
    [runUploadTest]), of the orchestrators ([runDownloadTests],
    [runUploadTests], [runBothTests], [runClient]) and of the way in
    ([parseFlags], [validate], [main]), followed by the theorems about them.

    Conventions.
    - Go's [int64] (and [int], 64 bits wide on the platforms the Dockerfile
      builds for) is a [Z] kept in the signed 64-bit range by [wrap64].
    - Go's [float64] is Rocq's primitive binary64 [float].
    - [time.Time] readings and [time.Duration] are [Z] nanoseconds.
    - A handler is a function on an explicit handler state [HState]: the
      process-wide [ServerStats], the [ResponseWriter] of the request, and the
      ordered trace of the effects performed so far.
    - A loop whose bound is not structural carries fuel and returns [None]
      when it runs out; the theorems show that this never happens. *)

From Stdlib Require Import ZArith String Ascii List Lia Bool.
From Stdlib Require Import Numbers.DecimalString.
From Stdlib Require Numbers.DecimalPos.
From Stdlib Require Import Floats.PrimFloat Numbers.Cyclic.Int63.Uint63.
From Stdlib Require Import Floats.SpecFloat Floats.FloatOps Floats.FloatAxioms.
From stdpp Require Import base option list gmap strings.

Open Scope string_scope.
Open Scope Z_scope.

(** ** Machine integers *)

Definition minInt64 : Z := - 2 ^ 63.
Definition maxInt64 : Z := 2 ^ 63 - 1.
Definition maxUint64 : Z := 2 ^ 64 - 1.

Definition inInt64 (z : Z) : Prop := minInt64 <= z <= maxInt64.

(** Two's complement wrap-around of a mathematical integer into [int64]. *)
Definition wrap64 (z : Z) : Z := (z + 2 ^ 63) mod 2 ^ 64 - 2 ^ 63.

Definition add64 (a b : Z) : Z := wrap64 (a + b).
Definition mul64 (a b : Z) : Z := wrap64 (a * b).

(** ** Constants of [main.go] *)

Definition downloadBufferSize : Z := 1024 * 1024.
Definition minBytes : Z := 1 * 1024 * 1024.
Definition maxBytes : Z := 10 * 1024 * 1024 * 1024.

Definition modeClient : string := "client".
Definition modeServer : string := "server".
Definition directionDown : string := "down".
Definition directionUp : string := "up".
Definition directionBoth : string := "both".

Definition MethodGet : string := "GET".
Definition MethodPost : string := "POST".

Definition StatusOK : Z := 200.
Definition StatusBadRequest : Z := 400.
Definition StatusMethodNotAllowed : Z := 405.
Definition StatusInternalServerError : Z := 500.

(** ** [strconv]: decimal text of an [int64] and [ParseInt(s, 10, 64)] *)

Definition dquote : string := String "034"%char EmptyString.
Definition newline : string := String "010"%char EmptyString.

(** [strconv.FormatInt(n, 10)], which is also what [%d] prints. *)
Definition FormatInt (n : Z) : string := NilZero.string_of_int (Z.to_int n).

Inductive NumErr : Type := ErrSyntax | ErrRange.

Definition digitOf (c : ascii) : option Z :=
  let n := Z.of_nat (nat_of_ascii c) in
  if (48 <=? n) && (n <=? 57) then Some (n - 48) else None.

(** The digit loop of [strconv.ParseUint] for base 10 and 64 bits: a byte
    that is no decimal digit is a syntax error, a value past [maxUint64] a
    range error, whichever the scan from the left meets first. *)
Fixpoint parseUintLoop (s : string) (n : Z) : Z + NumErr :=
  match s with
  | EmptyString => inl n
  | String c rest =>
      match digitOf c with
      | None => inr ErrSyntax
      | Some d =>
          if n >=? maxUint64 / 10 + 1 then inr ErrRange
          else
            let n1 := n * 10 + d in
            if n1 >? maxUint64 then inr ErrRange else parseUintLoop rest n1
      end
  end.

Definition ParseUint (s : string) : Z + NumErr :=
  match s with
  | EmptyString => inr ErrSyntax
  | _ => parseUintLoop s 0
  end.

(** [strconv.ParseInt(s, 10, 64)]: an optional sign, then [ParseUint]; the
    magnitude must fit the signed range ([cutoff] is [2^63]). *)
Definition ParseInt (s : string) : Z + NumErr :=
  match s with
  | EmptyString => inr ErrSyntax
  | String c rest =>
      let '(neg, digits) :=
        if Ascii.eqb c "+"%char then (false, rest)
        else if Ascii.eqb c "-"%char then (true, rest)
        else (false, s) in
      match ParseUint digits with
      | inr ErrSyntax => inr ErrSyntax
      | inr ErrRange => inr ErrRange
      | inl un =>
          let cutoff := 2 ^ 63 in
          if negb neg && (un >=? cutoff) then inr ErrRange
          else if neg && (un >? cutoff) then inr ErrRange
          else inl (if neg then - un else un)
      end
  end.

(** ** Requests *)

(** What [io.Copy(io.Discard, body)] finds when it drains a body: the number
    of bytes that arrive and whether the read ends in an error. *)
Record Body : Type := mkBody {
  bodyLen : Z;
  bodyErr : bool
}.

(** An [*http.Request] as the handlers see it. [Query] is the parsed query
    string in order of appearance. *)
Record Request : Type := mkRequest {
  Method : string;
  Path : string;
  Query : list (string * string);
  RemoteAddr : string;
  ReqBody : Body
}.

(** [url.Values.Get]: the first value of the key, the empty string when the
    key is absent. *)
Fixpoint Values_Get (q : list (string * string)) (key : string) : string :=
  match q with
  | [] => ""
  | (k, v) :: rest => if String.eqb k key then v else Values_Get rest key
  end.

(** The errors of [parseBytes], one constructor per [fmt.Errorf]. *)
Inductive ParseError : Type :=
| MissingBytes
| InvalidBytes (param : string) (e : NumErr)
| BytesOutOfRange.

Definition NumErr_text (e : NumErr) : string :=
  match e with
  | ErrSyntax => "invalid syntax"
  | ErrRange => "value out of range"
  end.

(** [err.Error()]. [formatBytes(minBytes)] and [formatBytes(maxBytes)] are
    the constants "1.00 MB" and "10.00 GB". The offending parameter is shown
    between quotes; the escapes [strconv.Quote] adds for unprintable bytes
    are not reproduced. *)
Definition ParseError_Error (e : ParseError) : string :=
  match e with
  | MissingBytes => "missing 'bytes' parameter"
  | InvalidBytes param ne =>
      "invalid 'bytes' parameter: strconv.ParseInt: parsing "
        ++ dquote ++ param ++ dquote ++ ": " ++ NumErr_text ne
  | BytesOutOfRange => "bytes must be between 1.00 MB and 10.00 GB"
  end.

Definition parseBytes (r : Request) : Z + ParseError :=
  let bytesParam := Values_Get (Query r) "bytes" in
  if String.eqb bytesParam "" then inr MissingBytes
  else
    match ParseInt bytesParam with
    | inr e => inr (InvalidBytes bytesParam e)
    | inl numBytes =>
        if (numBytes <? minBytes) || (numBytes >? maxBytes)
        then inr BytesOutOfRange
        else inl numBytes
    end.

(** ** Server statistics *)

Definition Time : Type := Z.
Definition Duration : Type := Z.

(** [ServerStats] without its mutex: the model of one handler is sequential;
    the interleaving of the atomic operations of several handlers is
    modelled apart, by [stepThread] and [runSchedule]. *)
Record ServerStats : Type := mkStats {
  totalDownloads : Z;
  totalUploads : Z;
  totalBytesDown : Z;
  totalBytesUp : Z;
  totalConnections : Z;
  startTime : Time;
  lastRequestTime : Time;
  peakConcurrent : Z;
  currentConcurrent : Z
}.

Definition set_currentConcurrent (s : ServerStats) (v : Z) : ServerStats :=
  mkStats (totalDownloads s) (totalUploads s) (totalBytesDown s)
    (totalBytesUp s) (totalConnections s) (startTime s) (lastRequestTime s)
    (peakConcurrent s) v.

Definition set_peakConcurrent (s : ServerStats) (v : Z) : ServerStats :=
  mkStats (totalDownloads s) (totalUploads s) (totalBytesDown s)
    (totalBytesUp s) (totalConnections s) (startTime s) (lastRequestTime s)
    v (currentConcurrent s).

(** The locked block at the end of [downloadHandler]. *)
Definition recordDownload (s : ServerStats) (numBytes : Z) (now : Time)
  : ServerStats :=
  mkStats (add64 (totalDownloads s) 1) (totalUploads s)
    (add64 (totalBytesDown s) numBytes) (totalBytesUp s)
    (totalConnections s) (startTime s) now
    (peakConcurrent s) (currentConcurrent s).

(** The locked block at the end of [uploadHandler]. *)
Definition recordUpload (s : ServerStats) (uploadedBytes : Z) (now : Time)
  : ServerStats :=
  mkStats (totalDownloads s) (add64 (totalUploads s) 1)
    (totalBytesDown s) (add64 (totalBytesUp s) uploadedBytes)
    (add64 (totalConnections s) 1) (startTime s) now
    (peakConcurrent s) (currentConcurrent s).

(** ** The response writer *)

(** What one [Write] call carries: a slice of the zeroed download buffer, of
    which only the length matters, or formatted text. *)
Inductive Payload : Type :=
| Zeros (len : Z)
| Text (s : string).

Definition payloadLen (p : Payload) : Z :=
  match p with
  | Zeros len => len
  | Text s => Z.of_nat (String.length s)
  end.

(** An [http.ResponseWriter]. [status] is [None] until the header is sent.
    [body] lists the payloads of the [Write] calls that succeeded, oldest
    first. [conn] scripts the connection: the outcome of each coming [Write]
    ([true] = it succeeds); once the script is used up every [Write]
    succeeds. A failed [Write] delivers nothing. *)
Record ResponseWriter : Type := mkWriter {
  hdr : gmap string string;
  status : option Z;
  body : list Payload;
  conn : list bool
}.

Definition Header_Set (w : ResponseWriter) (k v : string) : ResponseWriter :=
  mkWriter (<[k := v]> (hdr w)) (status w) (body w) (conn w).

Definition Header_Del (w : ResponseWriter) (k : string) : ResponseWriter :=
  mkWriter (delete k (hdr w)) (status w) (body w) (conn w).

(** [WriteHeader]: the first call fixes the status, later ones are ignored. *)
Definition WriteHeader (w : ResponseWriter) (code : Z) : ResponseWriter :=
  match status w with
  | Some _ => w
  | None => mkWriter (hdr w) (Some code) (body w) (conn w)
  end.

(** [Write]: sends the header with status 200 if none was sent, then the
    payload; the boolean is [err == nil]. *)
Definition Write (w : ResponseWriter) (p : Payload) : ResponseWriter * bool :=
  let w := WriteHeader w StatusOK in
  match conn w with
  | [] => (mkWriter (hdr w) (status w) (body w ++ [p]) [], true)
  | true :: rest => (mkWriter (hdr w) (status w) (body w ++ [p]) rest, true)
  | false :: rest => (mkWriter (hdr w) (status w) (body w) rest, false)
  end.

(** ** Handler state and effect trace *)

Inductive LogEntry : Type :=
| LogDownloadWriteError (addr : string)
| LogUploadReadError (addr : string)
| LogUploadMismatch (addr : string) (expected received : Z)
| LogDownload (addr : string) (numBytes : Z)
| LogUpload (addr : string) (uploadedBytes : Z).

Inductive Event : Type :=
| EvAddConcurrent (delta : Z)
| EvLoadConcurrent (v : Z)
| EvLoadPeak (v : Z)
| EvCasPeak (old new : Z) (swapped : bool)
| EvWriteHeader (code : Z)
| EvWrite (p : Payload) (ok : bool)
| EvReadBody (n : Z) (ok : bool)
| EvRecord
| EvLog (e : LogEntry).

Record HState : Type := mkHState {
  st : ServerStats;
  rw : ResponseWriter;
  trace : list Event
}.

Definition emit (h : HState) (e : Event) : HState :=
  mkHState (st h) (rw h) (trace h ++ [e]).

Definition withWriter (h : HState) (w : ResponseWriter) : HState :=
  mkHState (st h) w (trace h).

Definition withStats (h : HState) (s : ServerStats) : HState :=
  mkHState s (rw h) (trace h).

Definition logPrintf (h : HState) (e : LogEntry) : HState := emit h (EvLog e).

Definition hSetHeader (h : HState) (k v : string) : HState :=
  withWriter h (Header_Set (rw h) k v).

Definition hWriteHeader (h : HState) (code : Z) : HState :=
  emit (withWriter h (WriteHeader (rw h) code)) (EvWriteHeader code).

Definition hWrite (h : HState) (p : Payload) : HState * bool :=
  let '(w, ok) := Write (rw h) p in
  (emit (withWriter h w) (EvWrite p ok), ok).

(** [http.Error]: plain-text headers, the status code, the message and a
    newline. *)
Definition http_Error (h : HState) (msg : string) (code : Z) : HState :=
  let h := withWriter h (Header_Del (rw h) "Content-Length") in
  let h := hSetHeader h "Content-Type" "text/plain; charset=utf-8" in
  let h := hSetHeader h "X-Content-Type-Options" "nosniff" in
  let h := hWriteHeader h code in
  fst (hWrite h (Text (msg ++ newline))).

(** [io.Copy(io.Discard, r.Body)]. *)
Definition readBody (h : HState) (r : Request) : HState * (Z * bool) :=
  let n := bodyLen (ReqBody r) in
  let ok := negb (bodyErr (ReqBody r)) in
  (emit h (EvReadBody n ok), (n, ok)).

(** ** The atomic operations on the concurrency counters *)

Definition AddConcurrent (h : HState) (delta : Z) : HState :=
  emit (withStats h (set_currentConcurrent (st h)
                       (add64 (currentConcurrent (st h)) delta)))
       (EvAddConcurrent delta).

Definition LoadConcurrent (h : HState) : HState * Z :=
  let v := currentConcurrent (st h) in (emit h (EvLoadConcurrent v), v).

Definition LoadPeak (h : HState) : HState * Z :=
  let v := peakConcurrent (st h) in (emit h (EvLoadPeak v), v).

(** [atomic.CompareAndSwapInt64(&stats.peakConcurrent, old, new)]. *)
Definition CompareAndSwapPeak (h : HState) (old new : Z) : HState * bool :=
  if peakConcurrent (st h) =? old
  then (emit (withStats h (set_peakConcurrent (st h) new))
             (EvCasPeak old new true), true)
  else (emit h (EvCasPeak old new false), false).

(** The loop
    [for current > peak && !CompareAndSwap(peak, current) { peak = Load() }]. *)
Fixpoint peakLoop (fuel : nat) (h : HState) (current peak : Z)
  : option HState :=
  if current >? peak then
    let '(h, swapped) := CompareAndSwapPeak h peak current in
    if swapped then Some h
    else
      match fuel with
      | O => None
      | S fuel =>
          let '(h, peak) := LoadPeak h in
          peakLoop fuel h current peak
      end
  else Some h.

(** Lines 214-219 and 270-275: the peak update of both handlers. Within one
    handler nothing changes the peak between the load and the swap, so one
    round of the loop is all the fuel it needs; [stepThread] has the loop
    under interference. *)
Definition updatePeak (h : HState) : option HState :=
  let '(h, current) := LoadConcurrent h in
  let '(h, peak) := LoadPeak h in
  peakLoop 1 h current peak.

(** ** [downloadHandler] *)

(** The streaming loop, lines 228-241. [buffer] is the length of the buffer
    slice. The result is [None] when the fuel runs out, otherwise the state
    and whether every write succeeded. *)
Fixpoint downloadLoop (fuel : nat) (h : HState) (addr : string)
    (buffer remaining : Z) : option (HState * bool) :=
  if remaining >? 0 then
    match fuel with
    | O => None
    | S fuel =>
        let writeSize := buffer in
        let '(writeSize, buffer) :=
          if remaining <? writeSize then (remaining, remaining)
          else (writeSize, buffer) in
        let '(h, ok) := hWrite h (Zeros buffer) in
        if ok then downloadLoop fuel h addr buffer (remaining - writeSize)
        else Some (logPrintf h (LogDownloadWriteError addr), false)
    end
  else Some (h, true).

(** Iterations that suffice for [numBytes] bytes. *)
Definition downloadFuel (numBytes : Z) : nat :=
  Z.to_nat (numBytes / downloadBufferSize + 1).

(** The deferred [atomic.AddInt64(&stats.currentConcurrent, -1)] runs when
    the rest of the handler returns. *)
Definition deferDecrement (rest : option HState) : option HState :=
  match rest with
  | None => None
  | Some h => Some (AddConcurrent h (-1))
  end.

Definition downloadHandler (now : Time) (h : HState) (r : Request)
  : option HState :=
  if negb (String.eqb (Method r) MethodGet) then
    Some (http_Error h "method not allowed" StatusMethodNotAllowed)
  else
    match parseBytes r with
    | inr err => Some (http_Error h (ParseError_Error err) StatusBadRequest)
    | inl numBytes =>
        let h := AddConcurrent h 1 in
        deferDecrement
          match updatePeak h with
          | None => None
          | Some h =>
              let h := hSetHeader h "Content-Type" "application/octet-stream" in
              let h := hSetHeader h "Content-Length" (FormatInt numBytes) in
              let h := hSetHeader h "Cache-Control"
                         "no-cache, no-store, must-revalidate" in
              match downloadLoop (downloadFuel numBytes) h (RemoteAddr r)
                      downloadBufferSize numBytes with
              | None => None
              | Some (h, false) => Some h
              | Some (h, true) =>
                  let h := emit (withStats h (recordDownload (st h) numBytes now))
                             EvRecord in
                  Some (logPrintf h (LogDownload (RemoteAddr r) numBytes))
              end
          end
    end.

(** ** [uploadHandler] *)

Definition uploadReply (uploadedBytes : Z) : string :=
  "{" ++ dquote ++ "ok" ++ dquote ++ ":true," ++ dquote ++ "bytes" ++ dquote
      ++ ":" ++ FormatInt uploadedBytes ++ "}".

Definition uploadHandler (now : Time) (h : HState) (r : Request)
  : option HState :=
  if negb (String.eqb (Method r) MethodPost) then
    Some (http_Error h "method not allowed" StatusMethodNotAllowed)
  else
    match parseBytes r with
    | inr err => Some (http_Error h (ParseError_Error err) StatusBadRequest)
    | inl expectedBytes =>
        let h := AddConcurrent h 1 in
        deferDecrement
          match updatePeak h with
          | None => None
          | Some h =>
              let '(h, (uploadedBytes, ok)) := readBody h r in
              if negb ok then
                let h := logPrintf h (LogUploadReadError (RemoteAddr r)) in
                Some (http_Error h "upload error" StatusInternalServerError)
              else
                let h :=
                  if negb (uploadedBytes =? expectedBytes)
                  then logPrintf h (LogUploadMismatch (RemoteAddr r)
                                      expectedBytes uploadedBytes)
                  else h in
                let h := hSetHeader h "Content-Type" "application/json" in
                let h := hWriteHeader h StatusOK in
                let h := fst (hWrite h (Text (uploadReply uploadedBytes))) in
                let h := emit (withStats h (recordUpload (st h) uploadedBytes now))
                           EvRecord in
                Some (logPrintf h (LogUpload (RemoteAddr r) uploadedBytes))
          end
    end.

(** ** Fresh per-request state and what the theorems read off it *)

(** The writer the HTTP server hands to a handler: nothing set, nothing
    sent, over a connection scripted by [c]. *)
Definition freshWriter (c : list bool) : ResponseWriter := mkWriter ∅ None [] c.

Definition initState (s : ServerStats) (c : list bool) : HState :=
  mkHState s (freshWriter c) [].

(** Outcome of the next [Write] on a connection script. *)
Definition nextWrite (c : list bool) : bool := hd true c.

(** The first [n] writes on the script all succeed. *)
Definition accepts (n : nat) (c : list bool) : bool := forallb id (take n c).

(** The sizes of the writes that stream [n] bytes: whole buffers, then the
    remainder when there is one. *)
Definition chunks (n : Z) : list Z :=
  replicate (Z.to_nat (n / downloadBufferSize)) downloadBufferSize
    ++ (if n mod downloadBufferSize =? 0 then [] else [n mod downloadBufferSize]).

Definition sumZ (l : list Z) : Z := fold_right Z.add 0 l.

Definition bodyBytes (w : ResponseWriter) : Z := sumZ (map payloadLen (body w)).

Definition writeOk (len : Z) : Event := EvWrite (Zeros len) true.

(** The events of [updatePeak] when the counters read [c] and [p]. *)
Definition peakEvents (c p : Z) : list Event :=
  [EvLoadConcurrent c; EvLoadPeak p]
    ++ (if c >? p then [EvCasPeak p c true] else []).

(** The deltas of the [atomic.AddInt64] calls on [currentConcurrent], in
    order. *)
Fixpoint deltas (t : list Event) : list Z :=
  match t with
  | [] => []
  | EvAddConcurrent d :: t => d :: deltas t
  | _ :: t => deltas t
  end.

(** Events that move payload: a request body read, or a buffer streamed. *)
Definition isTransfer (e : Event) : bool :=
  match e with
  | EvReadBody _ _ => true
  | EvWrite (Zeros _) _ => true
  | _ => false
  end.

(** The transfer events of a trace, in order. *)
Fixpoint transfers (t : list Event) : list Event :=
  match t with
  | [] => []
  | e :: t => if isTransfer e then e :: transfers t else transfers t
  end.

(** How many times a trace runs the locked statistics update. *)
Fixpoint records (t : list Event) : nat :=
  match t with
  | [] => O
  | EvRecord :: t => S (records t)
  | _ :: t => records t
  end.

(** The claim's rejected parameter, in the spec's words: missing, not a
    base-10 integer, or outside [minBytes .. maxBytes]. *)
Definition invalidBytesParam (r : Request) : Prop :=
  let p := Values_Get (Query r) "bytes" in
  p = "" \/ (exists e, ParseInt p = inr e)
  \/ (exists n, ParseInt p = inl n /\ (n < minBytes \/ n > maxBytes)).

(** ** The statistics around a transfer *)

(** The statistics once [currentConcurrent] has been incremented and the
    peak brought up to it. *)
Definition entered (s : ServerStats) : ServerStats :=
  let s1 := set_currentConcurrent s (add64 (currentConcurrent s) 1) in
  if currentConcurrent s1 >? peakConcurrent s1
  then set_peakConcurrent s1 (currentConcurrent s1) else s1.

(** The statistics once the deferred decrement has run. *)
Definition left (s : ServerStats) : ServerStats :=
  set_currentConcurrent s (add64 (currentConcurrent s) (-1)).

(** The events from the increment to the end of the peak update. *)
Definition enterEvents (s : ServerStats) : list Event :=
  EvAddConcurrent 1
    :: peakEvents (add64 (currentConcurrent s) 1) (peakConcurrent s).

(** The headers [downloadHandler] sets for [n] bytes. *)
Definition downloadHeaders (n : Z) : gmap string string :=
  <["Cache-Control" := "no-cache, no-store, must-revalidate"]>
    (<["Content-Length" := FormatInt n]>
       (<["Content-Type" := "application/octet-stream"]> ∅)).

(** The warning [uploadHandler] logs when the counts differ. *)
Definition mismatchEvents (addr : string) (expected received : Z) : list Event :=
  if received =? expected then []
  else [EvLog (LogUploadMismatch addr expected received)].

(** ** The two transfer endpoints of [runServer]'s mux *)

Inductive Endpoint : Type := Down | Up.

Definition endpointPath (ep : Endpoint) : string :=
  match ep with Down => "/__down" | Up => "/__up" end.

Definition endpointMethod (ep : Endpoint) : string :=
  match ep with Down => MethodGet | Up => MethodPost end.

Definition endpointHandler (ep : Endpoint)
  : Time -> HState -> Request -> option HState :=
  match ep with Down => downloadHandler | Up => uploadHandler end.

(** * The client *)

(** ** Configuration *)

Record Config : Type := mkConfig {
  Mode : string;
  Direction : string;
  Count : Z;
  Size : Z;
  Server : string;
  Port : string;
  Host : string
}.

Inductive ConfigError : Type :=
| CountTooSmall (count : Z)
| SizeTooSmall (size : Z)
| InvalidDirection (d : string)
| EmptyServer
| EmptyPort
| PortNotANumber
| InvalidMode (m : string).

Definition isValidDirection (d : string) : bool :=
  String.eqb d directionDown || String.eqb d directionUp
  || String.eqb d directionBoth.

(** [Config.validate]; [None] is the [nil] error. [strconv.Atoi] on a 64-bit
    platform accepts what [ParseInt(s, 10, 64)] accepts. *)
Definition validate (c : Config) : option ConfigError :=
  if String.eqb (Mode c) modeClient then
    if Count c <? 1 then Some (CountTooSmall (Count c))
    else if Size c <? 1 then Some (SizeTooSmall (Size c))
    else if negb (isValidDirection (Direction c))
         then Some (InvalidDirection (Direction c))
    else if String.eqb (Server c) "" then Some EmptyServer
    else None
  else if String.eqb (Mode c) modeServer then
    if String.eqb (Port c) "" || String.eqb (Port c) "0" then Some EmptyPort
    else match ParseInt (Port c) with
         | inr _ => Some PortNotANumber
         | inl _ => None
         end
  else Some (InvalidMode (Mode c)).

(** ** [float64] arithmetic of the rate *)

(** The conversion [float64(x)] of an [int64], rounding to nearest. *)
Definition float64_of_int64 (z : Z) : float :=
  if z =? minInt64 then PrimFloat.opp (PrimFloat.mul (of_uint63 (Uint63.of_Z (2 ^ 62))) 2)
  else if z <? 0 then PrimFloat.opp (of_uint63 (Uint63.of_Z (- z)))
  else of_uint63 (Uint63.of_Z z).

Definition Second : Duration := 1000000000.
Definition Millisecond : Duration := 1000000.

(** [time.Duration.Seconds]: whole seconds plus the nanosecond rest, with
    Go's truncating [/] and [%]. *)
Definition Seconds (d : Duration) : float :=
  let sec := Z.quot d Second in
  let nsec := Z.rem d Second in
  PrimFloat.add (float64_of_int64 sec)
    (PrimFloat.div (float64_of_int64 nsec) 1e9).

(** The last three lines of both test runners:
    [(float64(bytes) / elapsed.Seconds()) * 8 / 1_000_000]. *)
Definition throughputMbps (bytes : Z) (elapsed : Duration) : float :=
  let speedBytesPerSec := PrimFloat.div (float64_of_int64 bytes) (Seconds elapsed) in
  PrimFloat.div (PrimFloat.mul speedBytesPerSec 8) 1000000.

Definition calculateAverage (speeds : list float) : float :=
  match speeds with
  | [] => 0%float
  | _ =>
      let sum := fold_left PrimFloat.add speeds 0%float in
      PrimFloat.div sum (float64_of_int64 (Z.of_nat (length speeds)))
  end.

(** ** What the client sees of the network *)

(** A request as [http.NewRequest] builds it: the method, the URL text, the
    length of the body to send and the [Content-Type] set on it. *)
Record OutRequest : Type := mkOutRequest {
  outMethod : string;
  outURL : string;
  outBodyLen : Z;
  outContentType : option string
}.

Record Response : Type := mkResponse {
  StatusCode : Z;
  RespBody : Body
}.

(** The client's environment: [net/url]'s verdict on a URL, the HTTP round
    trip of [httpClient.Do] ([None] is a transport error), the passing of
    time while a response body is drained, the monotonic clock and
    [time.Sleep]. The state [W] of the world is threaded through. *)
Class Env (W : Type) : Type := {
  urlParses : string -> bool;
  Do : W -> OutRequest -> W * option Response;
  Drain : W -> Response -> W;
  Now : W -> Time;
  Sleep : W -> Duration -> W
}.

Inductive TestError : Type :=
| RequestCreationFailed
| DownloadFailed
| UploadFailed
| BadStatus (code : Z)
| ReadFailed
| TooQuick.

(** What a test runner hands back: [(speed, elapsed, nil)], [(0, 0, err)], or
    the run-time panic of [make([]byte, n)] for a negative [n]. *)
Inductive Outcome : Type :=
| Measured (speedMbps : float) (elapsed : Duration)
| Failed (err : TestError)
| Panicked.

Section Client.

Context {W : Type} `{Env W}.

Definition http_NewRequest (method url : string) (bodyLen : Z)
  : option OutRequest :=
  if urlParses url then Some (mkOutRequest method url bodyLen None) else None.

Definition Header_SetContentType (req : OutRequest) (v : string) : OutRequest :=
  mkOutRequest (outMethod req) (outURL req) (outBodyLen req) (Some v).

(** [int64(config.Size) * 1_000_000]. *)
Definition declaredBytes (config : Config) : Z := mul64 (Size config) 1000000.

Definition downloadURL (config : Config) : string :=
  "http://" ++ Server config ++ "/__down?bytes=" ++ FormatInt (declaredBytes config).

Definition uploadURL (config : Config) : string :=
  "http://" ++ Server config ++ "/__up?bytes=" ++ FormatInt (declaredBytes config).

(** [runDownloadTest]. [time.Since(startTime)] is the difference of two
    readings of the monotonic clock. The deferred [resp.Body.Close()] has no
    effect the model records. *)
Definition runDownloadTest (config : Config) (w : W) : W * Outcome :=
  let url := downloadURL config in
  match http_NewRequest MethodGet url 0 with
  | None => (w, Failed RequestCreationFailed)
  | Some req =>
      let startTime := Now w in
      let '(w, resp) := Do w req in
      match resp with
      | None => (w, Failed DownloadFailed)
      | Some resp =>
          if negb (StatusCode resp =? StatusOK)
          then (w, Failed (BadStatus (StatusCode resp)))
          else
            let w := Drain w resp in
            let bytesDownloaded := bodyLen (RespBody resp) in
            if bodyErr (RespBody resp) then (w, Failed ReadFailed)
            else
              let elapsed := Now w - startTime in
              if elapsed =? 0 then (w, Failed TooQuick)
              else (w, Measured (throughputMbps bytesDownloaded elapsed) elapsed)
      end
  end.

(** [runUploadTest]. [make([]byte, numBytes)] panics on a negative length,
    which the wrapped product can be. The count and the error of the final
    [io.Copy] are dropped by the code. *)
Definition runUploadTest (config : Config) (w : W) : W * Outcome :=
  let numBytes := declaredBytes config in
  let url := uploadURL config in
  if numBytes <? 0 then (w, Panicked)
  else
    match http_NewRequest MethodPost url numBytes with
    | None => (w, Failed RequestCreationFailed)
    | Some req =>
        let req := Header_SetContentType req "application/octet-stream" in
        let startTime := Now w in
        let '(w, resp) := Do w req in
        match resp with
        | None => (w, Failed UploadFailed)
        | Some resp =>
            if negb (StatusCode resp =? StatusOK)
            then (w, Failed (BadStatus (StatusCode resp)))
            else
              let w := Drain w resp in
              let elapsed := Now w - startTime in
              if elapsed =? 0 then (w, Failed TooQuick)
              else (w, Measured (throughputMbps numBytes elapsed) elapsed)
        end
    end.

(** ** The orchestrators *)

(** One constructor per [fmt.Printf]/[fmt.Println] of the client, with the
    values it formats. *)
Inductive Line : Type :=
| LTitle (size : Z)
| LServer (server : string)
| LHeadBoth
| LHead (direction : string)
| LRule (width : Z)
| LRowBoth (down up : float)
| LRow (speed : float)
| LError (what : string) (test : Z) (err : TestError)
| LAvgBoth (down up : float)
| LAvg (speed : float)
| LTotal (seconds : float).

(** The state of a run: the world, the lines printed so far, and whether
    the process is still alive (a panic ends it). *)
Record Run : Type := mkRun {
  world : W;
  printed : list Line;
  alive : bool
}.

Definition printLine (r : Run) (l : Line) : Run :=
  mkRun (world r) (printed r ++ [l]) (alive r).

Definition pause (config : Config) (i : Z) (w : W) : W :=
  if i <? Count config - 1 then Sleep w (500 * Millisecond) else w.

(** The loop shared, word for word, by [runDownloadTests] and
    [runUploadTests]: [n] iterations are left, [i] is the loop variable. The
    result is [inl] when the loop [return]s out of the function, [inr] with
    the filled slice and the summed time when it runs to its end. *)
Fixpoint seriesLoop (runTest : Config -> W -> W * Outcome) (config : Config)
    (n : nat) (i : Z) (r : Run) (speeds : list float) (totalTime : Duration)
  : Run + (Run * list float * Duration) :=
  match n with
  | O => inr (r, speeds, totalTime)
  | S n =>
      let '(w, res) := runTest config (world r) in
      let r := mkRun w (printed r) (alive r) in
      match res with
      | Panicked => inl (mkRun w (printed r) false)
      | Failed err => inl (printLine r (LError "test" (i + 1) err))
      | Measured speed duration =>
          let speeds := <[Z.to_nat i := speed]> speeds in
          let totalTime := add64 totalTime duration in
          let r := printLine r (LRow speed) in
          let r := mkRun (pause config i (world r)) (printed r) (alive r) in
          seriesLoop runTest config n (i + 1) r speeds totalTime
      end
  end.

(** The body around the loop. [make([]float64, config.Count)] is a slice
    of [config.Count] zeros; [validate] lets through only counts of at
    least 1. *)
Definition runSeries (direction : string)
    (runTest : Config -> W -> W * Outcome) (config : Config) (r : Run) : Run :=
  let speeds := replicate (Z.to_nat (Count config)) 0%float in
  let r := printLine r (LHead direction) in
  let r := printLine r (LRule 18) in
  match seriesLoop runTest config (Z.to_nat (Count config)) 0 r speeds 0 with
  | inl r => r
  | inr (r, speeds, totalTime) =>
      let r := printLine r (LRule 18) in
      let r := printLine r (LAvg (calculateAverage speeds)) in
      printLine r (LTotal (Seconds totalTime))
  end.

Definition runDownloadTests : Config -> Run -> Run :=
  runSeries directionDown runDownloadTest.

Definition runUploadTests : Config -> Run -> Run :=
  runSeries directionUp runUploadTest.

(** The loop of [runBothTests]. *)
Fixpoint bothLoop (config : Config) (n : nat) (i : Z) (r : Run)
    (downloadSpeeds uploadSpeeds : list float) (totalTime : Duration)
  : Run + (Run * list float * list float * Duration) :=
  match n with
  | O => inr (r, downloadSpeeds, uploadSpeeds, totalTime)
  | S n =>
      let '(w, res) := runDownloadTest config (world r) in
      let r := mkRun w (printed r) (alive r) in
      match res with
      | Panicked => inl (mkRun w (printed r) false)
      | Failed err => inl (printLine r (LError "download test" (i + 1) err))
      | Measured downSpeed downDur =>
          let downloadSpeeds := <[Z.to_nat i := downSpeed]> downloadSpeeds in
          let totalTime := add64 totalTime downDur in
          let '(w, res) := runUploadTest config (world r) in
          let r := mkRun w (printed r) (alive r) in
          match res with
          | Panicked => inl (mkRun w (printed r) false)
          | Failed err => inl (printLine r (LError "upload test" (i + 1) err))
          | Measured upSpeed upDur =>
              let uploadSpeeds := <[Z.to_nat i := upSpeed]> uploadSpeeds in
              let totalTime := add64 totalTime upDur in
              let r := printLine r (LRowBoth downSpeed upSpeed) in
              let r := mkRun (pause config i (world r)) (printed r) (alive r) in
              bothLoop config n (i + 1) r downloadSpeeds uploadSpeeds totalTime
          end
      end
  end.

Definition runBothTests (config : Config) (r : Run) : Run :=
  let downloadSpeeds := replicate (Z.to_nat (Count config)) 0%float in
  let uploadSpeeds := replicate (Z.to_nat (Count config)) 0%float in
  let r := printLine r LHeadBoth in
  let r := printLine r (LRule 30) in
  match bothLoop config (Z.to_nat (Count config)) 0 r
          downloadSpeeds uploadSpeeds 0 with
  | inl r => r
  | inr (r, downloadSpeeds, uploadSpeeds, totalTime) =>
      let avgDown := calculateAverage downloadSpeeds in
      let avgUp := calculateAverage uploadSpeeds in
      let r := printLine r (LRule 30) in
      let r := printLine r (LAvgBoth avgDown avgUp) in
      printLine r (LTotal (Seconds totalTime))
  end.

(** [runClient]; a direction outside the three runs nothing. *)
Definition runClient (config : Config) (w : W) : Run :=
  let r := mkRun w [] true in
  let r := printLine r (LTitle (Size config)) in
  let r := printLine r (LServer (Server config)) in
  if String.eqb (Direction config) directionBoth then runBothTests config r
  else if String.eqb (Direction config) directionDown then runDownloadTests config r
  else if String.eqb (Direction config) directionUp then runUploadTests config r
  else r.

End Client.

(** ** A scripted network *)

(** One HTTP exchange as the client experiences it: whether the round trip
    succeeds, the status and body of the response, the time the round trip
    takes and the time the body takes to drain. *)
Record Exchange : Type := mkExchange {
  exOk : bool;
  exStatus : Z;
  exBody : Body;
  exDoTime : Duration;
  exReadTime : Duration
}.

(** The world of a scripted run: the exchanges still to come, the requests
    sent so far, the clock, and the drain time of the response in flight. A
    request with no exchange left is refused. *)
Record Script : Type := mkScript {
  pending : list Exchange;
  sent : list OutRequest;
  clock : Time;
  reading : Duration
}.

Definition scriptDo (w : Script) (req : OutRequest) : Script * option Response :=
  match pending w with
  | [] => (mkScript [] (sent w ++ [req]) (clock w) 0, None)
  | ex :: rest =>
      (mkScript rest (sent w ++ [req]) (clock w + exDoTime ex) (exReadTime ex),
       if exOk ex then Some (mkResponse (exStatus ex) (exBody ex)) else None)
  end.

#[export] Instance scriptEnv : Env Script := {|
  urlParses := fun _ => true;
  Do := scriptDo;
  Drain := fun w _ => mkScript (pending w) (sent w) (clock w + reading w) 0;
  Now := clock;
  Sleep := fun w d => mkScript (pending w) (sent w) (clock w + d) (reading w)
|}.

(** ** The client wired to this repository's server *)

(** A reading of the URLs the client builds, [http://host/path?query]:
    no percent-escapes, no fragment; the query is cut at [&] and at the
    first [=] of each piece. *)
Fixpoint stripPrefix (p s : string) : option string :=
  match p with
  | EmptyString => Some s
  | String a p =>
      match s with
      | EmptyString => None
      | String b s => if Ascii.eqb a b then stripPrefix p s else None
      end
  end.

(** The text before the first [c], and the text after it when [c] occurs. *)
Fixpoint cut (c : ascii) (s : string) : string * option string :=
  match s with
  | EmptyString => (EmptyString, None)
  | String a rest =>
      if Ascii.eqb a c then (EmptyString, Some rest)
      else let '(before, after) := cut c rest in (String a before, after)
  end.

Fixpoint scanQuery (s key val : string) (inVal : bool)
  : list (string * string) :=
  match s with
  | EmptyString => [(key, val)]
  | String a rest =>
      if Ascii.eqb a "&"%char then (key, val) :: scanQuery rest "" "" false
      else if Ascii.eqb a "="%char && negb inVal then scanQuery rest key "" true
      else if inVal then scanQuery rest key (val ++ String a "") true
      else scanQuery rest (key ++ String a "") val false
  end.

Definition parseURL (url : string)
  : option (string * string * list (string * string)) :=
  match stripPrefix "http://" url with
  | None => None
  | Some rest =>
      let '(host, after) := cut "/"%char rest in
      match after with
      | None => Some (host, "/", [])
      | Some pathQuery =>
          let '(path, query) := cut "?"%char pathQuery in
          Some (host, "/" ++ path,
                match query with
                | None => []
                | Some q => scanQuery q "" "" false
                end)
      end
  end.

(** A server address that is only a host (and port): none of [/], [?], [#]. *)
Fixpoint hostOnly (s : string) : bool :=
  match s with
  | EmptyString => true
  | String a rest =>
      negb (Ascii.eqb a "/"%char) && negb (Ascii.eqb a "?"%char)
      && negb (Ascii.eqb a "#"%char) && hostOnly rest
  end.

(** The two patterns of [runServer]'s mux that lead to a transfer handler. *)
Definition route (path : string) : option Endpoint :=
  if String.eqb path "/__down" then Some Down
  else if String.eqb path "/__up" then Some Up
  else None.

(** The world of a loopback run: the server's statistics, the clock, and
    the time one exchange takes. *)
Record Loopback : Type := mkLoopback {
  srv : ServerStats;
  wall : Time;
  latency : Duration
}.

(** The request reaches the handler the mux selects, over a connection
    that takes every write; the response carries the handler's status and
    as many body bytes as it wrote. Paths that lead elsewhere (the static
    files, /__stats, /health) are answered 404 here. *)
Definition loopbackDo (w : Loopback) (req : OutRequest)
  : Loopback * option Response :=
  match parseURL (outURL req) with
  | None => (w, None)
  | Some (_, path, query) =>
      let r := mkRequest (outMethod req) path query "127.0.0.1:40000"
                 (mkBody (outBodyLen req) false) in
      match route path with
      | None => (mkLoopback (srv w) (wall w + latency w) (latency w),
                 Some (mkResponse 404 (mkBody 0 false)))
      | Some ep =>
          match endpointHandler ep (wall w) (initState (srv w) []) r with
          | None => (w, None)
          | Some h' =>
              (mkLoopback (st h') (wall w + latency w) (latency w),
               Some (mkResponse (default StatusOK (status (rw h')))
                       (mkBody (bodyBytes (rw h')) false)))
          end
      end
  end.

#[export] Instance loopbackEnv : Env Loopback := {|
  urlParses := fun url => match parseURL url with Some _ => true | None => false end;
  Do := loopbackDo;
  Drain := fun w _ => mkLoopback (srv w) (wall w + latency w) (latency w);
  Now := wall;
  Sleep := fun w d => mkLoopback (srv w) (wall w + d) (latency w)
|}.

(** * Concurrent handlers *)

(** Where an accepted request stands among the atomic operations both
    handlers perform (lines 211-219 and 267-275), in program order. The
    constructors carry the handler's locals [current] and [peak]. *)
Inductive Pc : Type :=
| AtAdd
| AtLoadCurrent
| AtLoadPeak (current : Z)
| AtCas (current peak : Z)
| AtReload (current : Z)
| AtTransfer
| AtDefer
| Finished.

(** The two atomics, and as history variable the highest value
    [currentConcurrent] has held. *)
Record Shared : Type := mkShared {
  nowConcurrent : Z;
  peakSeen : Z;
  highWater : Z
}.

(** The loop condition [current > peak]: on to the swap, or out of the loop. *)
Definition afterLoad (current peak : Z) : Pc :=
  if current >? peak then AtCas current peak else AtTransfer.

(** One atomic operation of one handler. The transfer itself touches no
    counter. *)
Definition stepPc (s : Shared) (p : Pc) : Shared * Pc :=
  match p with
  | AtAdd =>
      let c := add64 (nowConcurrent s) 1 in
      (mkShared c (peakSeen s) (Z.max (highWater s) c), AtLoadCurrent)
  | AtLoadCurrent => (s, AtLoadPeak (nowConcurrent s))
  | AtLoadPeak current => (s, afterLoad current (peakSeen s))
  | AtCas current peak =>
      if peakSeen s =? peak
      then (mkShared (nowConcurrent s) current (highWater s), AtTransfer)
      else (s, AtReload current)
  | AtReload current => (s, afterLoad current (peakSeen s))
  | AtTransfer => (s, AtDefer)
  | AtDefer =>
      (mkShared (add64 (nowConcurrent s) (-1)) (peakSeen s) (highWater s),
       Finished)
  | Finished => (s, Finished)
  end.

Record System : Type := mkSystem {
  shared : Shared;
  threads : list Pc
}.

(** The scheduler lets handler [t] perform its next operation. *)
Definition stepThread (t : nat) (sys : System) : System :=
  match threads sys !! t with
  | None => sys
  | Some p =>
      let '(s, p') := stepPc (shared sys) p in
      mkSystem s (<[t := p']> (threads sys))
  end.

Fixpoint runSchedule (schedule : list nat) (sys : System) : System :=
  match schedule with
  | [] => sys
  | t :: rest => runSchedule rest (stepThread t sys)
  end.

(** [k] accepted requests about to start, on a server at rest. *)
Definition startOf (k : nat) : System :=
  mkSystem (mkShared 0 0 0) (replicate k AtAdd).

Definition allFinished (sys : System) : bool :=
  forallb (fun p => match p with Finished => true | _ => false end) (threads sys).

(** A request counts as in flight from its increment to its decrement. *)
Definition inFlight (p : Pc) : Z :=
  match p with
  | AtAdd | Finished => 0
  | _ => 1
  end.

Definition countInFlight (ts : list Pc) : Z := sumZ (map inFlight ts).

(** The locals a handler holds are values the counter has held, and a swap
    is only attempted upwards. *)
Definition localsBelow (high : Z) (p : Pc) : Prop :=
  match p with
  | AtLoadPeak current | AtReload current => current <= high
  | AtCas current peak => current <= high /\ peak < current
  | _ => True
  end.

Definition consistent (sys : System) : Prop :=
  nowConcurrent (shared sys) = countInFlight (threads sys)
  /\ nowConcurrent (shared sys) <= highWater (shared sys)
  /\ peakSeen (shared sys) <= highWater (shared sys)
  /\ highWater (shared sys) <= Z.of_nat (length (threads sys))
  /\ Forall (localsBelow (highWater (shared sys))) (threads sys).

(** Two requests: the first increments and reads the counter at 1, the
    second increments it to 2 and is held up; the first records the peak 1,
    transfers and leaves; only then does the second read the counter, back
    at 1. *)
Definition overlappingPair : list nat :=
  [0; 0; 1; 0; 0; 0; 0; 1; 1; 1; 1]%nat.

(** ** Outcomes named by the theorems, and sample inputs *)

(** What a rejected request leaves behind: the given status, the message
    and a newline as the only write, the statistics as they were. *)
Definition rejectedWith (s : ServerStats) (c : list bool) (code : Z)
    (msg : string) (h' : HState) : Prop :=
  st h' = s
  /\ status (rw h') = Some code
  /\ trace h' = [EvWriteHeader code; EvWrite (Text (msg ++ newline)) (nextWrite c)]
  /\ transfers (trace h') = []
  /\ deltas (trace h') = [].

(** Statistics of a server that has served nothing, and sample requests. *)
Definition zeroStats : ServerStats := mkStats 0 0 0 0 0 0 0 0 0.

Definition sampleDownload (bytes : string) : Request :=
  mkRequest MethodGet "/__down" [("bytes", bytes)] "10.0.0.7:51234"
    (mkBody 0 false).

Definition sampleUpload (bytes : string) (received : Z) (readErr : bool)
  : Request :=
  mkRequest MethodPost "/__up" [("bytes", bytes)] "10.0.0.7:51234"
    (mkBody received readErr).

(** From the increment to the decrement, with no other operation on the
    counter in between. *)
Definition bracketed (t : list Event) : Prop :=
  exists mid, t = (EvAddConcurrent 1 :: mid ++ [EvAddConcurrent (-1)])%list
              /\ deltas mid = [].

(** ** The causes of a failed download test *)

Section Causes.

Context {W : Type} `{Env W}.

Definition downloadRequest (config : Config) : option OutRequest :=
  http_NewRequest MethodGet (downloadURL config) 0.

(** [runDownloadTest] returns an error. *)
Definition downloadTestFails (config : Config) (w : W) : Prop :=
  exists err, snd (runDownloadTest config w) = Failed err.

Definition creationFails (config : Config) : Prop :=
  downloadRequest config = None.

Definition networkFails (config : Config) (w : W) : Prop :=
  exists req, downloadRequest config = Some req /\ snd (Do w req) = None.

Definition badStatus (config : Config) (w : W) : Prop :=
  exists req resp,
    downloadRequest config = Some req /\ snd (Do w req) = Some resp
    /\ StatusCode resp <> StatusOK.

(** The response is a 200 and the clock reads the same after the body is
    drained as before the request was sent. *)
Definition zeroElapsed (config : Config) (w : W) : Prop :=
  exists req resp,
    downloadRequest config = Some req /\ snd (Do w req) = Some resp
    /\ StatusCode resp = StatusOK
    /\ Now (Drain (fst (Do w req)) resp) - Now w = 0.

Definition readFails (config : Config) (w : W) : Prop :=
  exists req resp,
    downloadRequest config = Some req /\ snd (Do w req) = Some resp
    /\ StatusCode resp = StatusOK
    /\ bodyErr (RespBody resp) = true.

(** The four causes the claim lists. *)
Definition statedCauses (config : Config) (w : W) : Prop :=
  creationFails config \/ networkFails config w \/ badStatus config w
  \/ zeroElapsed config w.

End Causes.

(** Sample client inputs. *)
Definition sampleConfig (direction : string) (count size : Z) : Config :=
  mkConfig modeClient direction count size "localhost:8080" "8080" "0.0.0.0".

(** 10 MB answered in 0.7 s, drained in 0.1 s more. *)
Definition goodExchange : Exchange :=
  mkExchange true 200 (mkBody 10000000 false) 700000000 100000000.

Definition brokenBodyExchange : Exchange :=
  mkExchange true 200 (mkBody 4000000 true) 700000000 100000000.

Definition serverErrorExchange : Exchange :=
  mkExchange true 500 (mkBody 0 false) 700000000 100000000.

Definition scriptOf (exchanges : list Exchange) : Script :=
  mkScript exchanges [] 0 0.

(** ** How a run of the orchestrator ends *)

Section Endings.

Context {W : Type} `{Env W}.

Definition isRow (l : Line) : bool :=
  match l with
  | LRow _ | LRowBoth _ _ => true
  | _ => false
  end.

(** The run stopped at a failed test: after the lines [before] come the
    rows of the [done] iterations that went through, then one error line
    naming test [first + done + 1], and nothing more; the world is the one
    the failed test returned. *)
Definition stoppedBy (what : string) (runTest : Config -> W -> W * Outcome)
    (config : Config) (left : nat) (first : Z) (before : list Line)
    (r' : @Run W) : Prop :=
  exists rows w err,
    forallb isRow rows = true
    /\ (length rows < left)%nat
    /\ runTest config w = (world r', Failed err)
    /\ printed r' =
         (before ++ rows
            ++ [LError what (first + Z.of_nat (length rows) + 1) err])%list.

(** The run died in a panicking test: rows only, and a dead process. *)
Definition crashedBy (runTest : Config -> W -> W * Outcome)
    (config : Config) (left : nat) (before : list Line) (r' : @Run W) : Prop :=
  exists rows w,
    forallb isRow rows = true
    /\ (length rows < left)%nat
    /\ runTest config w = (world r', Panicked)
    /\ printed r' = (before ++ rows)%list
    /\ alive r' = false.

(** The run went through all [left] iterations, one row each, and closed
    with [closing]. *)
Definition completed (left : nat) (before closing : list Line) (r' : @Run W)
  : Prop :=
  exists rows,
    forallb isRow rows = true
    /\ length rows = left
    /\ printed r' = (before ++ rows ++ closing)%list.

End Endings.

(** Case analysis on the statistics around a transfer. *)
Ltac stats_cases :=
  unfold left, entered, recordDownload, recordUpload,
    set_currentConcurrent, set_peakConcurrent;
  cbn [totalDownloads totalUploads totalBytesDown totalBytesUp
       totalConnections startTime lastRequestTime peakConcurrent
       currentConcurrent];
  repeat match goal with |- context [if ?b then _ else _] => destruct b end;
  cbn [totalDownloads totalUploads totalBytesDown totalBytesUp
       totalConnections startTime lastRequestTime peakConcurrent
       currentConcurrent].

(** * The rest of [main.go]: reports, routing, flags *)

(** ** [fmt]'s [%.<prec>f] *)

(** The quotient [num / den] rounded to the nearest integer, ties to the
    even one ([den] positive, [num] not negative). *)
Definition roundHalfEven (num den : Z) : Z :=
  let q := num / den in
  let r := num mod den in
  if 2 * r <? den then q
  else if 2 * r >? den then q + 1
  else if Z.even q then q else q + 1.

Fixpoint zeros (n : nat) : string :=
  match n with
  | O => ""
  | S n => String "0"%char (zeros n)
  end.

(** The decimal text of [scaled / 10^prec] with exactly [prec] digits after
    the point, and no point when [prec] is zero. *)
Definition fixedPoint (prec : nat) (scaled : Z) : string :=
  let unit := 10 ^ Z.of_nat prec in
  let frac := FormatInt (scaled mod unit) in
  FormatInt (scaled / unit)
    ++ match prec with
       | O => ""
       | _ => "." ++ zeros (prec - String.length frac) ++ frac
       end.

(** [strconv.FormatFloat(x, 'f', prec, 64)], the text [%.<prec>f] prints:
    the exact binary value [m * 2^e] of the float rounded to [prec]
    decimals, ties to even; the sign of a negative number or zero in front. *)
Definition FormatFloat (prec : nat) (x : float) : string :=
  match Prim2SF x with
  | S754_nan => "NaN"
  | S754_infinity s => (if s then "-" else "+") ++ "Inf"
  | S754_zero s => (if s then "-" else "") ++ fixedPoint prec 0
  | S754_finite s m e =>
      (if s then "-" else "")
        ++ fixedPoint prec
             (if 0 <=? e then Z.pos m * 2 ^ e * 10 ^ Z.of_nat prec
              else roundHalfEven (Z.pos m * 10 ^ Z.of_nat prec) (2 ^ (- e)))
  end.

(** ** [formatBytes] *)

Definition formatBytes (bytes : Z) : string :=
  let kb := 1024 in
  let mb := kb * 1024 in
  let gb := mb * 1024 in
  if bytes >=? gb then
    FormatFloat 2 (PrimFloat.div (float64_of_int64 bytes) (float64_of_int64 gb))
      ++ " GB"
  else if bytes >=? mb then
    FormatFloat 2 (PrimFloat.div (float64_of_int64 bytes) (float64_of_int64 mb))
      ++ " MB"
  else if bytes >=? kb then
    FormatFloat 2 (PrimFloat.div (float64_of_int64 bytes) (float64_of_int64 kb))
      ++ " KB"
  else FormatInt bytes ++ " B".

(** The same number printed exactly: [num / den] rounded to hundredths, ties
    to even. What [formatBytes] would print were there no [float64] between
    the count and the text. *)
Definition hundredths (num den : Z) : string :=
  fixedPoint 2 (roundHalfEven (num * 100) den).

(** ** [statsHandler] and [healthHandler] *)

Section Reports.

(** [time.Time.Format(time.RFC3339)]: the calendar and the time zone of the
    wall clock are outside the model. *)
Variable rfc3339 : Time -> string.

Definition jsonField (name value : string) : string :=
  "  " ++ dquote ++ name ++ dquote ++ ": " ++ value.

(** The text [statsHandler] formats from the values it copied under the
    read lock; [uptime] is [time.Since(stats.startTime)]. *)
Definition statsReply (totalDownloads totalUploads totalBytesDown
    totalBytesUp totalConnections : Z) (uptime : Duration)
    (lastRequest : Time) (peakConcurrent : Z) : string :=
  "{" ++ newline
    ++ jsonField "ok" "true" ++ "," ++ newline
    ++ jsonField "total_downloads" (FormatInt totalDownloads) ++ "," ++ newline
    ++ jsonField "total_uploads" (FormatInt totalUploads) ++ "," ++ newline
    ++ jsonField "total_bytes_down" (FormatInt totalBytesDown) ++ "," ++ newline
    ++ jsonField "total_bytes_up" (FormatInt totalBytesUp) ++ "," ++ newline
    ++ jsonField "total_connections" (FormatInt totalConnections) ++ "," ++ newline
    ++ jsonField "total_data_gb"
         (FormatFloat 2
            (PrimFloat.div (float64_of_int64 (add64 totalBytesDown totalBytesUp))
               1000000000)) ++ "," ++ newline
    ++ jsonField "uptime_seconds" (FormatFloat 0 (Seconds uptime)) ++ "," ++ newline
    ++ jsonField "peak_concurrent" (FormatInt peakConcurrent) ++ "," ++ newline
    ++ jsonField "last_request" (dquote ++ rfc3339 lastRequest ++ dquote) ++ newline
    ++ "}".

(** [statsHandler]. [now] is the clock reading [time.Since] takes inside
    the read-locked block. *)
Definition statsHandler (now : Time) (h : HState) (r : Request)
  : option HState :=
  if negb (String.eqb (Method r) MethodGet) then
    Some (http_Error h "method not allowed" StatusMethodNotAllowed)
  else
    let s := st h in
    let uptime := now - startTime s in
    let h := hSetHeader h "Content-Type" "application/json" in
    Some (fst (hWrite h
                 (Text (statsReply (totalDownloads s) (totalUploads s)
                          (totalBytesDown s) (totalBytesUp s)
                          (totalConnections s) uptime (lastRequestTime s)
                          (peakConcurrent s))))).

Definition healthReply (now : Time) : string :=
  "{" ++ dquote ++ "ok" ++ dquote ++ ":true," ++ dquote ++ "status" ++ dquote
      ++ ":" ++ dquote ++ "healthy" ++ dquote ++ "," ++ dquote ++ "timestamp"
      ++ dquote ++ ":" ++ dquote ++ rfc3339 now ++ dquote ++ "}".

(** [healthHandler]: no look at the method, none at the statistics. *)
Definition healthHandler (now : Time) (h : HState) (r : Request)
  : option HState :=
  let h := hSetHeader h "Content-Type" "application/json" in
  Some (fst (hWrite h (Text (healthReply now)))).

(** ** The handlers [runServer] registers, and a server at work *)

(** The four patterns of the mux whose handlers this file models. *)
Inductive Handler : Type := ServeDown | ServeUp | ServeStats | ServeHealth.

(** [mux.HandleFunc]: a pattern without a trailing slash matches its path
    alone. [None] stands for the two other registrations, the file server
    on [/] (which also takes every path no other pattern matches) and the
    download of the binary on [/ethspeed], and for the redirect the mux
    itself answers to a path that is not clean; none of them refers to
    [stats], and their answers are outside the model. *)
Definition mux (path : string) : option Handler :=
  if String.eqb path "/__down" then Some ServeDown
  else if String.eqb path "/__up" then Some ServeUp
  else if String.eqb path "/__stats" then Some ServeStats
  else if String.eqb path "/health" then Some ServeHealth
  else None.

Definition handlerOf (hd : Handler)
  : Time -> HState -> Request -> option HState :=
  match hd with
  | ServeDown => downloadHandler
  | ServeUp => uploadHandler
  | ServeStats => statsHandler
  | ServeHealth => healthHandler
  end.

(** One request as the server meets it: the clock reading, the script of
    the connection, the request. *)
Record Arrival : Type := mkArrival {
  arrivedAt : Time;
  connection : list bool;
  request : Request
}.

(** The server answers one request on a fresh [ResponseWriter]; what stays
    is the statistics. *)
Definition serve (s : ServerStats) (a : Arrival) : option HState :=
  match mux (Path (request a)) with
  | None => Some (initState s (connection a))
  | Some hd => handlerOf hd (arrivedAt a) (initState s (connection a)) (request a)
  end.

(** Requests served one after the other. *)
Fixpoint serveAll (s : ServerStats) (arrivals : list Arrival)
  : option ServerStats :=
  match arrivals with
  | [] => Some s
  | a :: rest =>
      match serve s a with
      | None => None
      | Some h => serveAll (st h) rest
      end
  end.

End Reports.

(** ** [parseFlags] and [main] *)

(** The values of the flag variables once [flag.Parse] has returned: what
    the command line gave, and the registered default for a flag it left
    out. *)
Record Flags : Type := mkFlags {
  flagMode : string;
  flagPort : string;
  flagHost : string;
  flagC : Z;
  flagCount : Z;
  flagS : Z;
  flagSize : Z;
  flagServerShort : string;
  flagServer : string;
  flagD : string;
  flagDirection : string
}.

(** The defaults the flags are registered with. *)
Definition defaultFlags : Flags :=
  mkFlags modeClient "8080" "0.0.0.0" 1 1 100 100
    "speed.cloudflare.com" "speed.cloudflare.com" directionBoth directionBoth.

Definition parseFlags (f : Flags) : Config :=
  let finalCount := if negb (flagCount f =? 1) then flagCount f else flagC f in
  let finalSize := if negb (flagSize f =? 100) then flagSize f else flagS f in
  let finalServer :=
    if negb (String.eqb (flagServer f) "speed.cloudflare.com")
    then flagServer f else flagServerShort f in
  let finalDirection :=
    if negb (String.eqb (flagDirection f) directionBoth)
    then flagDirection f else flagD f in
  mkConfig (flagMode f) finalDirection finalCount finalSize finalServer
    (flagPort f) (flagHost f).

Section Main.

Context {W : Type} `{Env W}.

(** How [main] goes on: [logger.Fatalf] on a configuration error, the
    server listening on [host:port], or the client's run. *)
Inductive Started : Type :=
| Fatal (err : ConfigError)
| Listening (addr : string)
| ClientRun (r : @Run W).

Definition main (f : Flags) (w : W) : Started :=
  let config := parseFlags f in
  match validate config with
  | Some err => Fatal err
  | None =>
      if String.eqb (Mode config) modeServer
      then Listening (Host config ++ ":" ++ Port config)
      else ClientRun (runClient config w)
  end.

End Main.

(** ** Helpers of the proofs about [strconv] and the URLs *)

(** The number a digit sequence denotes, read from the left onto [acc]. *)
Fixpoint uintValue (d : Decimal.uint) (acc : Z) : Z :=
  match d with
  | Decimal.Nil => acc
  | Decimal.D0 l => uintValue l (10 * acc)
  | Decimal.D1 l => uintValue l (10 * acc + 1)
  | Decimal.D2 l => uintValue l (10 * acc + 2)
  | Decimal.D3 l => uintValue l (10 * acc + 3)
  | Decimal.D4 l => uintValue l (10 * acc + 4)
  | Decimal.D5 l => uintValue l (10 * acc + 5)
  | Decimal.D6 l => uintValue l (10 * acc + 6)
  | Decimal.D7 l => uintValue l (10 * acc + 7)
  | Decimal.D8 l => uintValue l (10 * acc + 8)
  | Decimal.D9 l => uintValue l (10 * acc + 9)
  end.

(** No [&] in the text: it is one value of a query string. *)
Fixpoint noAmpersand (s : string) : bool :=
  match s with
  | EmptyString => true
  | String a rest => negb (Ascii.eqb a "&"%char) && noAmpersand rest
  end.

(** ** What one request does to the statistics *)

(** The four things a request can do to the statistics. *)
Inductive Effect : Type :=
| Untouched
| PassedThrough
| DownloadCounted (numBytes : Z)
| UploadCounted (uploadedBytes : Z).

Definition applyEffect (e : Effect) (now : Time) (s : ServerStats) : ServerStats :=
  match e with
  | Untouched => s
  | PassedThrough => left (entered s)
  | DownloadCounted n => left (recordDownload (entered s) n now)
  | UploadCounted m => left (recordUpload (entered s) m now)
  end.

(** What the code decides the effect on: the route, the method, the [bytes]
    parameter, the connection, the body. *)
Definition effectOf (a : Arrival) : Effect :=
  let r := request a in
  match mux (Path r) with
  | Some ServeDown =>
      if String.eqb (Method r) MethodGet then
        match parseBytes r with
        | inl n => if accepts (length (chunks n)) (connection a)
                   then DownloadCounted n else PassedThrough
        | inr _ => Untouched
        end
      else Untouched
  | Some ServeUp =>
      if String.eqb (Method r) MethodPost then
        match parseBytes r with
        | inl _ => if bodyErr (ReqBody r) then PassedThrough
                   else UploadCounted (bodyLen (ReqBody r))
        | inr _ => Untouched
        end
      else Untouched
  | _ => Untouched
  end.

(** The sizes of the downloads of a sequence that streamed to the end, and
    of the uploads whose body was read to the end. *)
Definition downloadsCounted (arrivals : list Arrival) : list Z :=
  flat_map (fun a => match effectOf a with DownloadCounted n => [n] | _ => [] end)
    arrivals.

Definition uploadsCounted (arrivals : list Arrival) : list Z :=
  flat_map (fun a => match effectOf a with UploadCounted m => [m] | _ => [] end)
    arrivals.

(** ** What a completed series reports *)

(** [totalTime += d] over the durations, from [time.Duration(0)]. *)
Definition sumDurations (l : list Duration) : Duration := fold_left add64 l 0.

Section Reported.

Context {W : Type} `{Env W}.

(** [runTest] can return this speed and this duration. *)
Definition measuredBy (runTest : Config -> W -> W * Outcome) (config : Config)
    (x : float * Duration) : Prop :=
  exists w w', runTest config w = (w', Measured (fst x) (snd x)).

(** A one-direction series ran to its end: after [before], one row per
    result, then the rule, the average of the row speeds and the summed
    durations. *)
Definition reported (runTest : Config -> W -> W * Outcome) (config : Config)
    (n : nat) (before : list Line) (r' : @Run W) : Prop :=
  exists results : list (float * Duration),
    length results = n
    /\ Forall (measuredBy runTest config) results
    /\ printed r' =
         (before ++ map (fun x => LRow (fst x)) results
            ++ [LRule 18; LAvg (calculateAverage (map fst results));
                LTotal (Seconds (sumDurations (map snd results)))])%list.

(** The same for [runBothTests]: a result is a download and the upload
    that followed it. *)
Definition reportedBoth (config : Config) (n : nat) (before : list Line)
    (r' : @Run W) : Prop :=
  exists results : list ((float * Duration) * (float * Duration)),
    length results = n
    /\ Forall (fun x => measuredBy runDownloadTest config (fst x)
                        /\ measuredBy runUploadTest config (snd x)) results
    /\ printed r' =
         (before
            ++ map (fun x => LRowBoth (fst (fst x)) (fst (snd x))) results
            ++ [LRule 30;
                LAvgBoth (calculateAverage (map (fun x => fst (fst x)) results))
                  (calculateAverage (map (fun x => fst (snd x)) results));
                LTotal (Seconds
                          (sumDurations
                             (flat_map (fun x => [snd (fst x); snd (snd x)])
                                results)))])%list.

End Reported.

(** The two lines every series opens with. *)
Definition seriesHead (direction : string) : list Line :=
  if String.eqb direction directionBoth then [LHeadBoth; LRule 30]
  else [LHead direction; LRule 18].

(** The server of a loopback world has counted [downs] downloads and [ups]
    uploads of [n] bytes each on top of the statistics [s0], int64
    arithmetic included; [lat] is the latency of the world. *)
Definition counted (s0 : ServerStats) (lat : Duration) (n : Z)
    (downs ups : nat) (w : Loopback) : Prop :=
  latency w = lat
  /\ totalDownloads (srv w) = wrap64 (totalDownloads s0 + Z.of_nat downs)
  /\ totalBytesDown (srv w) = wrap64 (totalBytesDown s0 + Z.of_nat downs * n)
  /\ totalUploads (srv w) = wrap64 (totalUploads s0 + Z.of_nat ups)
  /\ totalBytesUp (srv w) = wrap64 (totalBytesUp s0 + Z.of_nat ups * n)
  /\ totalConnections (srv w) = wrap64 (totalConnections s0 + Z.of_nat ups).

(** ** The swap loop under interference *)

(** What a handler's place tells about its locals and the peak: a value
    loaded from the counter after the handler's own increment is at least 1,
    the local [peak] is a value the peak has held, and a handler past the
    loop has seen the peak at 1 or more. *)
Definition peakKnown (s : Shared) (p : Pc) : Prop :=
  match p with
  | AtAdd | AtLoadCurrent => True
  | AtLoadPeak current | AtReload current => 1 <= current
  | AtCas current peak => 1 <= current /\ peak <= peakSeen s
  | AtTransfer | AtDefer | Finished => 1 <= peakSeen s
  end.

Definition steady (sys : System) : Prop :=
  consistent sys
  /\ 0 <= peakSeen (shared sys)
  /\ Forall (peakKnown (shared sys)) (threads sys).

(** A bound on the atomic operations a handler still has to perform, among
    [k] handlers: every failed swap has seen the peak move up, towards the
    handler's [current]. *)
Definition stepsLeft (k : Z) (s : Shared) (p : Pc) : Z :=
  match p with
  | AtAdd => 2 * k + 5
  | AtLoadCurrent => 2 * k + 4
  | AtLoadPeak _ => 2 * k + 3
  | AtCas current peak => 2 * (current - peak) + 2
  | AtReload current => 2 * Z.max 0 (current - peakSeen s) + 3
  | AtTransfer => 2
  | AtDefer => 1
  | Finished => 0
  end.

Definition stepsLeftOf (sys : System) (j : nat) : Z :=
  match threads sys !! j with
  | Some p => stepsLeft (Z.of_nat (length (threads sys))) (shared sys) p
  | None => 0
  end.

(** How often the scheduler picks handler [j]. *)
Definition turns (j : nat) (schedule : list nat) : nat :=
  length (filter (fun t => t = j) schedule).

(** The handler has left the loop that updates the peak. *)
Definition pastLoop (p : Pc) : bool :=
  match p with
  | AtTransfer | AtDefer | Finished => true
  | _ => false
  end.

(** ** The requests a scripted run sends *)

(** The two requests the test runners build. *)
Definition downloadRequestOf (config : Config) : OutRequest :=
  mkOutRequest MethodGet (downloadURL config) 0 None.

Definition uploadRequestOf (config : Config) : OutRequest :=
  mkOutRequest MethodPost (uploadURL config) (declaredBytes config)
    (Some "application/octet-stream").

(** [n] rounds of a download followed by an upload. *)
Definition rounds (n : nat) (config : Config) : list OutRequest :=
  concat (replicate n [downloadRequestOf config; uploadRequestOf config]).

(** The run the loop of [runBothTests] leaves, whichever way it ended. *)
Definition bothEnd {W : Type}
    (res : @Run W + (@Run W * list float * list float * Duration)) : @Run W :=
  match res with
  | inl r => r
  | inr (r, _, _, _) => r
  end.

(** A scripted series ran to its end on durations [ds]: the last line
    printed is their sum, and the clock has moved by that sum and by one
    pause of 500 ms between each two tests. *)
Definition timed (config : Config) (r r' : @Run Script) : Prop :=
  exists ds : list Duration,
    length ds = Z.to_nat (Count config)
    /\ last (printed r') = Some (LTotal (Seconds (sumDurations ds)))
    /\ clock (world r')
       = clock (world r) + sumZ ds + 500 * Millisecond * (Count config - 1).

(** * Theorems *)

(** ** Arithmetic of [int64] and of the chunking *)

Lemma wrap64_id z : inInt64 z -> wrap64 z = z.
Proof.
  unfold inInt64, minInt64, maxInt64, wrap64. intros H.
  rewrite Z.mod_small; lia.
Qed.

Lemma wrap64_range z : inInt64 (wrap64 z).
Proof.
  unfold inInt64, minInt64, maxInt64, wrap64.
  pose proof (Z.mod_pos_bound (z + 2 ^ 63) (2 ^ 64) ltac:(lia)). lia.
Qed.

Lemma add64_exact a b : inInt64 (a + b) -> add64 a b = a + b.
Proof. apply wrap64_id. Qed.

(** An increment followed by a decrement gives the counter back, also across
    the wrap at [maxInt64]. *)
Lemma add64_inc_dec c : inInt64 c -> add64 (add64 c 1) (-1) = c.
Proof.
  intros H. unfold add64, wrap64.
  replace ((c + 1 + 2 ^ 63) mod 2 ^ 64 - 2 ^ 63 + -1 + 2 ^ 63)
    with ((c + 1 + 2 ^ 63) mod 2 ^ 64 + (-1)) by lia.
  rewrite <- Zplus_mod_idemp_l, Z.mod_mod by lia.
  rewrite Zplus_mod_idemp_l.
  replace (c + 1 + 2 ^ 63 + -1) with (c + 2 ^ 63) by lia.
  unfold inInt64, minInt64, maxInt64 in H. rewrite Z.mod_small; lia.
Qed.

Lemma downloadBufferSize_pos : 0 < downloadBufferSize.
Proof. reflexivity. Qed.

Lemma chunks_zero : chunks 0 = [].
Proof. reflexivity. Qed.

Lemma chunks_small n : 0 < n < downloadBufferSize -> chunks n = [n].
Proof.
  intros H. unfold chunks.
  rewrite Z.div_small, Z.mod_small by lia.
  destruct (Z.eqb_spec n 0); [lia | reflexivity].
Qed.

Lemma chunks_step n :
  downloadBufferSize <= n ->
  chunks n = downloadBufferSize :: chunks (n - downloadBufferSize).
Proof.
  intros H. pose proof downloadBufferSize_pos as HB.
  assert (Hd : n / downloadBufferSize = (n - downloadBufferSize) / downloadBufferSize + 1).
  { rewrite <- Z.div_add by lia. f_equal. lia. }
  assert (Hm : n mod downloadBufferSize = (n - downloadBufferSize) mod downloadBufferSize).
  { rewrite <- (Z_mod_plus_full (n - downloadBufferSize) 1 downloadBufferSize).
    f_equal. lia. }
  assert (0 <= (n - downloadBufferSize) / downloadBufferSize)
    by (apply Z.div_pos; lia).
  unfold chunks. rewrite Hd, Hm, Z2Nat.inj_add by lia.
  change (Z.to_nat 1) with 1%nat. rewrite Nat.add_comm. reflexivity.
Qed.

Lemma chunks_sum n : 0 <= n -> sumZ (chunks n) = n.
Proof.
  intros H. pose proof downloadBufferSize_pos as HB. unfold chunks.
  assert (Hrep : forall k, sumZ (replicate k downloadBufferSize)
                           = Z.of_nat k * downloadBufferSize).
  { induction k as [|k IH]; [reflexivity|].
    cbn [replicate sumZ fold_right]. fold (sumZ (replicate k downloadBufferSize)).
    rewrite IH. lia. }
  assert (Happ : forall l1 l2, sumZ (l1 ++ l2) = sumZ l1 + sumZ l2).
  { induction l1 as [|x l1 IH]; intros l2; [reflexivity|].
    cbn [app sumZ fold_right]. fold (sumZ (l1 ++ l2)). fold (sumZ l1).
    rewrite IH. lia. }
  rewrite Happ, Hrep, Z2Nat.id by (apply Z.div_pos; lia).
  pose proof (Z.div_mod n downloadBufferSize ltac:(lia)) as Hdm.
  destruct (Z.eqb_spec (n mod downloadBufferSize) 0) as [E|E]; cbn [sumZ fold_right]; lia.
Qed.

(** Every chunk is a full buffer except possibly the last, which is shorter
    and not empty. *)
Lemma chunks_shape n :
  0 <= n ->
  exists (k : nat) (last : list Z),
    chunks n = (replicate k downloadBufferSize ++ last)%list
    /\ (last = [] \/ exists m, last = [m] /\ 0 < m < downloadBufferSize).
Proof.
  intros H. pose proof downloadBufferSize_pos as HB.
  exists (Z.to_nat (n / downloadBufferSize)).
  exists (if n mod downloadBufferSize =? 0 then [] else [n mod downloadBufferSize]).
  split; [reflexivity|].
  destruct (Z.eqb_spec (n mod downloadBufferSize) 0) as [E|E]; [by left|].
  right. exists (n mod downloadBufferSize). split; [reflexivity|].
  pose proof (Z.mod_pos_bound n downloadBufferSize HB). lia.
Qed.

Lemma chunks_length n :
  0 <= n -> (length (chunks n) <= downloadFuel n)%nat.
Proof.
  intros H. pose proof downloadBufferSize_pos as HB.
  unfold chunks, downloadFuel.
  rewrite length_app, length_replicate.
  assert (0 <= n / downloadBufferSize) by (apply Z.div_pos; lia).
  rewrite Z2Nat.inj_add by lia. change (Z.to_nat 1) with 1%nat.
  destruct (n mod downloadBufferSize =? 0); cbn [length]; lia.
Qed.

Lemma chunks_nonempty n : 0 < n -> chunks n <> [].
Proof.
  intros H. destruct (Z_lt_le_dec n downloadBufferSize).
  - rewrite chunks_small by lia. discriminate.
  - rewrite chunks_step by lia. discriminate.
Qed.

(** ** The primitives of the handler state *)

Lemma hWrite_spec h p :
  hWrite h p =
    (mkHState (st h)
       (mkWriter (hdr (rw h)) (Some (default StatusOK (status (rw h))))
          (if nextWrite (conn (rw h)) then body (rw h) ++ [p] else body (rw h))
          (tl (conn (rw h))))
       (trace h ++ [EvWrite p (nextWrite (conn (rw h)))]),
     nextWrite (conn (rw h))).
Proof.
  destruct h as [s [hd [c|] b [|[] cn]] t]; reflexivity.
Qed.

Lemma downloadLoop_done fuel h a b : downloadLoop fuel h a b 0 = Some (h, true).
Proof. destruct fuel; reflexivity. Qed.

(** One round of the streaming loop, when bytes remain and fuel is left. *)
Lemma downloadLoop_round fuel h a rem :
  0 < rem ->
  downloadLoop (S fuel) h a downloadBufferSize rem =
    let c := Z.min rem downloadBufferSize in
    let '(h1, ok) := hWrite h (Zeros c) in
    if ok then downloadLoop fuel h1 a c (rem - c)
    else Some (logPrintf h1 (LogDownloadWriteError a), false).
Proof.
  intros H. cbn [downloadLoop].
  destruct (Z.gtb_spec rem 0); [|lia].
  destruct (Z.ltb_spec rem downloadBufferSize).
  - rewrite Z.min_l by lia. reflexivity.
  - rewrite Z.min_r by lia. reflexivity.
Qed.

Lemma accepts_cons n b c : accepts (S n) (b :: c) = b && accepts n c.
Proof. destruct b; reflexivity. Qed.

Lemma accepts_next n c : accepts (S n) c = true -> nextWrite c = true.
Proof. destruct c as [|[] c]; [reflexivity | reflexivity | discriminate]. Qed.

Lemma accepts_tl n c : accepts (S n) c = true -> accepts n (tl c) = true.
Proof.
  destruct c as [|[] c]; cbn [tl]; [|tauto|discriminate].
  intros _. destruct n; reflexivity.
Qed.

(** The loop on a connection that takes every chunk: all of [chunks rem] is
    written, in order, and the loop reports success. *)
Lemma downloadLoop_success fuel : forall h a rem,
  0 <= rem ->
  (length (chunks rem) <= fuel)%nat ->
  accepts (length (chunks rem)) (conn (rw h)) = true ->
  exists h',
    downloadLoop fuel h a downloadBufferSize rem = Some (h', true)
    /\ st h' = st h
    /\ hdr (rw h') = hdr (rw h)
    /\ body (rw h') = (body (rw h) ++ map Zeros (chunks rem))%list
    /\ conn (rw h') = drop (length (chunks rem)) (conn (rw h))
    /\ trace h' = (trace h ++ map writeOk (chunks rem))%list
    /\ status (rw h') =
         (if rem >? 0 then Some (default StatusOK (status (rw h)))
          else status (rw h)).
Proof.
  pose proof downloadBufferSize_pos as HB.
  induction fuel as [|fuel IH]; intros h a rem Hrem Hfuel Hacc.
  - destruct (Z.eq_dec rem 0) as [->|Hne].
    + exists h. rewrite downloadLoop_done, chunks_zero, !app_nil_r.
      repeat split; reflexivity.
    + pose proof (chunks_nonempty rem ltac:(lia)).
      destruct (chunks rem); [congruence | cbn [length] in Hfuel; lia].
  - destruct (Z.eq_dec rem 0) as [->|Hne].
    { exists h. rewrite downloadLoop_done, chunks_zero, !app_nil_r.
      repeat split; reflexivity. }
    rewrite downloadLoop_round by lia. cbv zeta. rewrite hWrite_spec.
    destruct (Z.gtb_spec rem 0); [|lia].
    destruct (Z_lt_le_dec rem downloadBufferSize) as [Hlt|Hge].
    + rewrite chunks_small in * by lia. cbn [length] in *.
      rewrite (accepts_next _ _ Hacc), Z.min_l, Z.sub_diag by lia.
      rewrite downloadLoop_done. eexists. split; [reflexivity|].
      cbn. destruct (conn (rw h)); repeat split; reflexivity.
    + rewrite chunks_step in * by lia. cbn [length] in *.
      rewrite (accepts_next _ _ Hacc), Z.min_r by lia.
      edestruct (IH (mkHState (st h)
                    (mkWriter (hdr (rw h)) (Some (default StatusOK (status (rw h))))
                       (body (rw h) ++ [Zeros downloadBufferSize]) (tl (conn (rw h))))
                    (trace h ++ [EvWrite (Zeros downloadBufferSize) true]))
                  a (rem - downloadBufferSize))
        as (h' & Hrun & Hst & Hhdr & Hbody & Hconn & Htrace & Hstatus);
        [lia | lia | exact (accepts_tl _ _ Hacc) |].
      exists h'. split; [exact Hrun|]. cbn in *.
      rewrite Hst, Hhdr, Hbody, Hconn, Htrace, Hstatus, <- !app_assoc.
      repeat split; try reflexivity.
      * destruct (conn (rw h)); [cbn [tl]; by rewrite !drop_nil | reflexivity].
      * destruct (rem - downloadBufferSize >? 0); reflexivity.
Qed.

(** The loop on a connection whose [j]-th write is the first to fail: the
    [j] chunks before it are delivered, the error is logged and the loop
    gives up at once. *)
Lemma downloadLoop_failure fuel : forall h a rem j rest,
  0 <= rem ->
  (length (chunks rem) <= fuel)%nat ->
  conn (rw h) = (replicate j true ++ false :: rest)%list ->
  (j < length (chunks rem))%nat ->
  exists h' c,
    chunks rem !! j = Some c
    /\ downloadLoop fuel h a downloadBufferSize rem = Some (h', false)
    /\ st h' = st h
    /\ hdr (rw h') = hdr (rw h)
    /\ body (rw h') = (body (rw h) ++ map Zeros (take j (chunks rem)))%list
    /\ trace h' =
         (trace h ++ map writeOk (take j (chunks rem))
            ++ [EvWrite (Zeros c) false; EvLog (LogDownloadWriteError a)])%list.
Proof.
  pose proof downloadBufferSize_pos as HB.
  induction fuel as [|fuel IH]; intros h a rem j rest Hrem Hfuel Hconn Hj; [lia|].
  assert (Hpos : 0 < rem).
  { destruct (Z.eq_dec rem 0) as [->|]; [|lia].
    rewrite chunks_zero in Hj. cbn [length] in Hj. lia. }
  rewrite downloadLoop_round by lia. cbv zeta. rewrite hWrite_spec, Hconn.
  destruct j as [|j].
  - cbn [replicate app nextWrite hd take map].
    destruct (Z_lt_le_dec rem downloadBufferSize) as [Hlt|Hge].
    + rewrite chunks_small by lia. rewrite Z.min_l by lia.
      eexists _, rem. split; [reflexivity|]. split; [reflexivity|].
      cbn. rewrite app_nil_r, <- app_assoc. repeat split; reflexivity.
    + rewrite chunks_step by lia. rewrite Z.min_r by lia.
      eexists _, downloadBufferSize. split; [reflexivity|]. split; [reflexivity|].
      cbn. rewrite app_nil_r, <- app_assoc. repeat split; reflexivity.
  - cbn [replicate app nextWrite hd tl].
    destruct (Z_lt_le_dec rem downloadBufferSize) as [Hlt|Hge].
    { rewrite chunks_small in Hj by lia. cbn [length] in Hj. lia. }
    rewrite chunks_step in * by lia. cbn [length] in *.
    rewrite Z.min_r by lia.
    edestruct (IH (mkHState (st h)
                  (mkWriter (hdr (rw h)) (Some (default StatusOK (status (rw h))))
                     (body (rw h) ++ [Zeros downloadBufferSize])
                     (replicate j true ++ false :: rest))
                  (trace h ++ [EvWrite (Zeros downloadBufferSize) true]))
                a (rem - downloadBufferSize) j rest)
      as (h' & c & Hc & Hrun & Hst & Hhdr & Hbody & Htrace);
      [lia | lia | reflexivity | lia |].
    exists h', c. split; [exact Hc|]. split; [exact Hrun|]. cbn in *.
    rewrite Hst, Hhdr, Hbody, Htrace, <- !app_assoc.
    repeat split; reflexivity.
Qed.

(** A connection script either takes the first [n] writes or fails one of
    them after [j < n] successes. *)
Lemma accepts_cases n : forall c,
  accepts n c = true
  \/ exists j rest, (j < n)%nat /\ c = (replicate j true ++ false :: rest)%list.
Proof.
  induction n as [|n IH]; intros c; [by left|].
  destruct c as [|[] c]; [by left| |].
  - destruct (IH c) as [H|(j & rest & Hj & ->)].
    + left. rewrite accepts_cons. exact H.
    + right. exists (S j), rest. split; [lia | reflexivity].
  - right. exists 0%nat, c. split; [lia | reflexivity].
Qed.

Lemma accepts_failure n j rest :
  (j < n)%nat -> accepts n (replicate j true ++ false :: rest) = false.
Proof.
  revert n. induction j as [|j IH]; intros [|n] H; try lia; [reflexivity|].
  cbn [replicate app]. rewrite accepts_cons. apply IH. lia.
Qed.

(** ** [parseBytes] *)

Lemma ParseInt_empty : ParseInt "" = inr ErrSyntax.
Proof. reflexivity. Qed.

Lemma parseBytes_inl r n :
  parseBytes r = inl n <->
  ParseInt (Values_Get (Query r) "bytes") = inl n /\ minBytes <= n <= maxBytes.
Proof.
  unfold parseBytes.
  destruct (String.eqb_spec (Values_Get (Query r) "bytes") "") as [E|E].
  - rewrite E, ParseInt_empty. split; [discriminate | intros [? _]; discriminate].
  - destruct (ParseInt (Values_Get (Query r) "bytes")) as [m|e].
    + destruct ((m <? minBytes) || (m >? maxBytes)) eqn:Hb.
      * apply orb_true_iff in Hb. rewrite Z.ltb_lt, Z.gtb_lt in Hb.
        split; [discriminate | intros [[= ->] ?]; lia].
      * apply orb_false_iff in Hb. rewrite Z.ltb_ge, Z.gtb_ltb, Z.ltb_ge in Hb.
        split; [intros [= ->]; split; [reflexivity | lia]
               | intros [[= ->] _]; reflexivity].
    + split; [discriminate | intros [? _]; discriminate].
Qed.

(** [parseBytes] fails exactly on the parameters the spec calls invalid. *)
Lemma parseBytes_inr r :
  (exists e, parseBytes r = inr e) <-> invalidBytesParam r.
Proof.
  unfold invalidBytesParam, parseBytes.
  destruct (String.eqb_spec (Values_Get (Query r) "bytes") "") as [E|E].
  - split; [by left | by exists MissingBytes].
  - destruct (ParseInt (Values_Get (Query r) "bytes")) as [m|e].
    + destruct (Z.ltb_spec m minBytes), (Z.gtb_spec m maxBytes); cbn [orb].
      1-3: split; [intros _; right; right; exists m; split; [reflexivity | lia]
                  | by exists BytesOutOfRange].
      split; [intros [e [=]] |].
      intros [?|[[e [=]]|(n & [= <-] & ?)]]; [done | lia].
    + split; [intros _; right; left; by exists e | eauto].
Qed.

Lemma ParseError_Error_nonempty e : ParseError_Error e <> "".
Proof. destruct e; discriminate. Qed.

(** ** The peak update inside one handler *)

Lemma updatePeak_spec h :
  updatePeak h =
    Some (mkHState
            (if currentConcurrent (st h) >? peakConcurrent (st h)
             then set_peakConcurrent (st h) (currentConcurrent (st h))
             else st h)
            (rw h)
            (trace h ++ peakEvents (currentConcurrent (st h))
                                    (peakConcurrent (st h)))).
Proof.
  destruct h as [s w t]. unfold updatePeak, LoadConcurrent, LoadPeak, peakEvents.
  cbn [peakLoop emit st rw trace]. unfold CompareAndSwapPeak. cbn [st rw trace emit].
  destruct (currentConcurrent s >? peakConcurrent s).
  - rewrite Z.eqb_refl. unfold emit, withStats. cbn [st rw trace].
    rewrite <- ?app_assoc. reflexivity.
  - unfold emit. cbn [st rw trace]. rewrite <- ?app_assoc. reflexivity.
Qed.

(** ** Rejected requests *)

Lemma http_Error_fresh s c msg code :
  let h := http_Error (initState s c) msg code in
  st h = s
  /\ status (rw h) = Some code
  /\ body (rw h) = (if nextWrite c then [Text (msg ++ newline)] else [])
  /\ trace h = [EvWriteHeader code; EvWrite (Text (msg ++ newline)) (nextWrite c)].
Proof.
  unfold http_Error. rewrite hWrite_spec. cbn.
  destruct (nextWrite c); repeat split; reflexivity.
Qed.

(** ** Valid requests *)

Lemma downloadHandler_enter now s c r n :
  Method r = MethodGet ->
  parseBytes r = inl n ->
  downloadHandler now (initState s c) r =
    deferDecrement
      match downloadLoop (downloadFuel n)
              (mkHState (entered s)
                 (mkWriter (downloadHeaders n) None [] c) (enterEvents s))
              (RemoteAddr r) downloadBufferSize n with
      | None => None
      | Some (h, false) => Some h
      | Some (h, true) =>
          Some (logPrintf
                  (emit (withStats h (recordDownload (st h) n now)) EvRecord)
                  (LogDownload (RemoteAddr r) n))
      end.
Proof.
  intros Hm Hp. unfold downloadHandler.
  rewrite Hm, Hp, updatePeak_spec. reflexivity.
Qed.

(** A download over a connection that takes every chunk. *)
Lemma downloadHandler_complete now s c r n :
  Method r = MethodGet ->
  parseBytes r = inl n ->
  accepts (length (chunks n)) c = true ->
  exists h',
    downloadHandler now (initState s c) r = Some h'
    /\ st h' = left (recordDownload (entered s) n now)
    /\ hdr (rw h') = downloadHeaders n
    /\ status (rw h') = Some StatusOK
    /\ body (rw h') = map Zeros (chunks n)
    /\ trace h' =
         (enterEvents s ++ map writeOk (chunks n)
            ++ [EvRecord; EvLog (LogDownload (RemoteAddr r) n);
                EvAddConcurrent (-1)])%list.
Proof.
  intros Hm Hp Hacc. pose proof (proj1 (parseBytes_inl r n) Hp) as [_ Hn].
  assert (Hn0 : 0 < n) by (unfold minBytes in Hn; lia).
  rewrite (downloadHandler_enter now s c r n Hm Hp).
  edestruct (downloadLoop_success (downloadFuel n)
               (mkHState (entered s) (mkWriter (downloadHeaders n) None [] c)
                  (enterEvents s))
               (RemoteAddr r) n)
    as (h1 & Hrun & Hst & Hhdr & Hbody & _ & Htrace & Hstatus);
    [lia | apply chunks_length; lia | exact Hacc |].
  rewrite Hrun. eexists. split; [reflexivity|].
  cbn [st rw trace hdr status body] in *.
  unfold AddConcurrent, logPrintf, emit, withStats. cbn [st rw trace].
  rewrite Hst, Hhdr, Hbody, Htrace, Hstatus, <- !app_assoc.
  destruct (Z.gtb_spec n 0); [|lia].
  repeat split; reflexivity.
Qed.

(** A download whose write number [j] (from 0) is the first to fail. *)
Lemma downloadHandler_broken now s c r n j rest :
  Method r = MethodGet ->
  parseBytes r = inl n ->
  c = (replicate j true ++ false :: rest)%list ->
  (j < length (chunks n))%nat ->
  exists h' cj,
    chunks n !! j = Some cj
    /\ downloadHandler now (initState s c) r = Some h'
    /\ st h' = left (entered s)
    /\ hdr (rw h') = downloadHeaders n
    /\ body (rw h') = map Zeros (take j (chunks n))
    /\ trace h' =
         (enterEvents s ++ map writeOk (take j (chunks n))
            ++ [EvWrite (Zeros cj) false;
                EvLog (LogDownloadWriteError (RemoteAddr r));
                EvAddConcurrent (-1)])%list.
Proof.
  intros Hm Hp Hc Hj. pose proof (proj1 (parseBytes_inl r n) Hp) as [_ Hn].
  assert (Hn0 : 0 < n) by (unfold minBytes in Hn; lia).
  rewrite (downloadHandler_enter now s c r n Hm Hp).
  edestruct (downloadLoop_failure (downloadFuel n)
               (mkHState (entered s) (mkWriter (downloadHeaders n) None [] c)
                  (enterEvents s))
               (RemoteAddr r) n j rest)
    as (h1 & cj & Hcj & Hrun & Hst & Hhdr & Hbody & Htrace);
    [lia | apply chunks_length; lia | exact Hc | exact Hj |].
  rewrite Hrun. exists (AddConcurrent h1 (-1)), cj.
  split; [exact Hcj|]. split; [reflexivity|].
  cbn [st rw trace hdr status body] in *.
  unfold AddConcurrent, emit, withStats. cbn [st rw trace].
  rewrite Hst, Hhdr, Hbody, Htrace, <- !app_assoc.
  repeat split; reflexivity.
Qed.

Lemma uploadHandler_enter now s c r n :
  Method r = MethodPost ->
  parseBytes r = inl n ->
  uploadHandler now (initState s c) r =
    deferDecrement
      (let h := mkHState (entered s) (freshWriter c) (enterEvents s) in
       let '(h, (uploadedBytes, ok)) := readBody h r in
       if negb ok then
         let h := logPrintf h (LogUploadReadError (RemoteAddr r)) in
         Some (http_Error h "upload error" StatusInternalServerError)
       else
         let h :=
           if negb (uploadedBytes =? n)
           then logPrintf h (LogUploadMismatch (RemoteAddr r) n uploadedBytes)
           else h in
         let h := hSetHeader h "Content-Type" "application/json" in
         let h := hWriteHeader h StatusOK in
         let h := fst (hWrite h (Text (uploadReply uploadedBytes))) in
         let h := emit (withStats h (recordUpload (st h) uploadedBytes now))
                    EvRecord in
         Some (logPrintf h (LogUpload (RemoteAddr r) uploadedBytes))).
Proof.
  intros Hm Hp. unfold uploadHandler.
  rewrite Hm, Hp, updatePeak_spec. reflexivity.
Qed.

(** An upload whose body is read to the end. *)
Lemma uploadHandler_complete now s c r n :
  Method r = MethodPost ->
  parseBytes r = inl n ->
  bodyErr (ReqBody r) = false ->
  let m := bodyLen (ReqBody r) in
  exists h',
    uploadHandler now (initState s c) r = Some h'
    /\ st h' = left (recordUpload (entered s) m now)
    /\ hdr (rw h') !! "Content-Type" = Some "application/json"
    /\ status (rw h') = Some StatusOK
    /\ body (rw h') = (if nextWrite c then [Text (uploadReply m)] else [])
    /\ trace h' =
         (enterEvents s ++ [EvReadBody m true] ++ mismatchEvents (RemoteAddr r) n m
            ++ [EvWriteHeader StatusOK;
                EvWrite (Text (uploadReply m)) (nextWrite c);
                EvRecord; EvLog (LogUpload (RemoteAddr r) m);
                EvAddConcurrent (-1)])%list.
Proof.
  intros Hm Hp Herr m.
  rewrite (uploadHandler_enter now s c r n Hm Hp).
  unfold readBody. rewrite Herr. cbv zeta. cbn [negb].
  fold m. unfold mismatchEvents.
  eexists. split; [reflexivity|].
  destruct (m =? n), c as [|[] c'];
    cbv [logPrintf hWriteHeader hSetHeader hWrite Write emit withStats
         withWriter Header_Set WriteHeader freshWriter AddConcurrent
         st rw trace hdr status body conn fst negb nextWrite hd];
    rewrite <- ?app_assoc;
    (split; [reflexivity|]); (split; [apply lookup_insert_eq|]);
    repeat split; reflexivity.
Qed.

(** An upload whose body read fails. *)
Lemma uploadHandler_broken now s c r n :
  Method r = MethodPost ->
  parseBytes r = inl n ->
  bodyErr (ReqBody r) = true ->
  exists h',
    uploadHandler now (initState s c) r = Some h'
    /\ st h' = left (entered s)
    /\ status (rw h') = Some StatusInternalServerError
    /\ trace h' =
         (enterEvents s
            ++ [EvReadBody (bodyLen (ReqBody r)) false;
                EvLog (LogUploadReadError (RemoteAddr r));
                EvWriteHeader StatusInternalServerError;
                EvWrite (Text ("upload error" ++ newline)) (nextWrite c);
                EvAddConcurrent (-1)])%list.
Proof.
  intros Hm Hp Herr.
  rewrite (uploadHandler_enter now s c r n Hm Hp).
  unfold readBody. rewrite Herr. cbv zeta. cbn [negb].
  eexists. split; [reflexivity|].
  destruct c as [|[] c'];
    cbv [http_Error logPrintf hWriteHeader hSetHeader hWrite Write emit
         withStats withWriter Header_Set Header_Del WriteHeader freshWriter
         AddConcurrent st rw trace hdr status body conn fst nextWrite hd];
    rewrite <- ?app_assoc; repeat split; reflexivity.
Qed.

(** ** Projections of the statistics around a transfer *)

Lemma left_entered_fields s :
  totalDownloads (left (entered s)) = totalDownloads s
  /\ totalUploads (left (entered s)) = totalUploads s
  /\ totalBytesDown (left (entered s)) = totalBytesDown s
  /\ totalBytesUp (left (entered s)) = totalBytesUp s
  /\ totalConnections (left (entered s)) = totalConnections s
  /\ startTime (left (entered s)) = startTime s
  /\ lastRequestTime (left (entered s)) = lastRequestTime s.
Proof. stats_cases; repeat split; reflexivity. Qed.

Lemma left_download_fields s n now :
  totalDownloads (left (recordDownload (entered s) n now))
    = add64 (totalDownloads s) 1
  /\ totalBytesDown (left (recordDownload (entered s) n now))
    = add64 (totalBytesDown s) n
  /\ lastRequestTime (left (recordDownload (entered s) n now)) = now
  /\ totalUploads (left (recordDownload (entered s) n now)) = totalUploads s
  /\ totalBytesUp (left (recordDownload (entered s) n now)) = totalBytesUp s
  /\ totalConnections (left (recordDownload (entered s) n now))
    = totalConnections s.
Proof. stats_cases; repeat split; reflexivity. Qed.

Lemma left_upload_fields s m now :
  totalUploads (left (recordUpload (entered s) m now))
    = add64 (totalUploads s) 1
  /\ totalBytesUp (left (recordUpload (entered s) m now))
    = add64 (totalBytesUp s) m
  /\ totalConnections (left (recordUpload (entered s) m now))
    = add64 (totalConnections s) 1
  /\ lastRequestTime (left (recordUpload (entered s) m now)) = now
  /\ totalDownloads (left (recordUpload (entered s) m now)) = totalDownloads s
  /\ totalBytesDown (left (recordUpload (entered s) m now)) = totalBytesDown s.
Proof. stats_cases; repeat split; reflexivity. Qed.

Lemma currentConcurrent_entered s :
  currentConcurrent (entered s) = add64 (currentConcurrent s) 1.
Proof. stats_cases; reflexivity. Qed.

Lemma currentConcurrent_left s :
  currentConcurrent (left s) = add64 (currentConcurrent s) (-1).
Proof. reflexivity. Qed.

Lemma currentConcurrent_record s n now :
  currentConcurrent (recordDownload s n now) = currentConcurrent s
  /\ currentConcurrent (recordUpload s n now) = currentConcurrent s.
Proof. split; reflexivity. Qed.

(** ** Facts on traces *)

Lemma deltas_app t1 t2 : deltas (t1 ++ t2) = (deltas t1 ++ deltas t2)%list.
Proof.
  induction t1 as [|e t1 IH]; [reflexivity|].
  destruct e; cbn [app deltas]; rewrite IH; reflexivity.
Qed.

Lemma deltas_writeOk l : deltas (map writeOk l) = [].
Proof. induction l as [|x l IH]; [reflexivity | exact IH]. Qed.

Lemma deltas_peakEvents c p : deltas (peakEvents c p) = [].
Proof. unfold peakEvents. destruct (c >? p); reflexivity. Qed.

Lemma deltas_mismatchEvents a n m : deltas (mismatchEvents a n m) = [].
Proof. unfold mismatchEvents. destruct (m =? n); reflexivity. Qed.

Lemma records_app t1 t2 : records (t1 ++ t2) = (records t1 + records t2)%nat.
Proof.
  induction t1 as [|e t1 IH]; [reflexivity|].
  destruct e; cbn [app records]; rewrite IH; reflexivity.
Qed.

Lemma records_writeOk l : records (map writeOk l) = O.
Proof. induction l as [|x l IH]; [reflexivity | exact IH]. Qed.

Lemma records_peakEvents c p : records (peakEvents c p) = O.
Proof. unfold peakEvents. destruct (c >? p); reflexivity. Qed.

Lemma records_enterEvents s : records (enterEvents s) = O.
Proof. unfold enterEvents. cbn [records]. apply records_peakEvents. Qed.

Lemma records_mismatchEvents a n m : records (mismatchEvents a n m) = O.
Proof. unfold mismatchEvents. destruct (m =? n); reflexivity. Qed.

Lemma sumZ_app l1 l2 : sumZ (l1 ++ l2) = sumZ l1 + sumZ l2.
Proof.
  induction l1 as [|x l1 IH]; [reflexivity|].
  cbn [app sumZ fold_right]. fold (sumZ (l1 ++ l2)). fold (sumZ l1).
  rewrite IH. lia.
Qed.

Lemma payloadLen_Zeros l : map payloadLen (map Zeros l) = l.
Proof. induction l as [|x l IH]; [reflexivity|]. cbn [map payloadLen]. by rewrite IH. Qed.

(** ** The two guards at the head of both handlers *)

Lemma endpointHandler_wrong_method ep now h r :
  Method r <> endpointMethod ep ->
  endpointHandler ep now h r =
    Some (http_Error h "method not allowed" StatusMethodNotAllowed).
Proof.
  intros Hm. destruct ep; cbn [endpointHandler endpointMethod] in *.
  - unfold downloadHandler.
    destruct (String.eqb_spec (Method r) MethodGet); [contradiction | reflexivity].
  - unfold uploadHandler.
    destruct (String.eqb_spec (Method r) MethodPost); [contradiction | reflexivity].
Qed.

Lemma endpointHandler_bad_bytes ep now h r e :
  Method r = endpointMethod ep ->
  parseBytes r = inr e ->
  endpointHandler ep now h r =
    Some (http_Error h (ParseError_Error e) StatusBadRequest).
Proof.
  intros Hm Hp. destruct ep; cbn [endpointHandler endpointMethod] in *;
    unfold downloadHandler, uploadHandler; rewrite Hm, Hp; reflexivity.
Qed.

(** ** Every chunk carries bytes *)

Lemma chunks_positive n : 0 <= n -> Forall (fun c => 0 < c) (chunks n).
Proof.
  intros H. pose proof downloadBufferSize_pos as HB. unfold chunks.
  apply Forall_app. split.
  - apply Forall_replicate. exact HB.
  - destruct (Z.eqb_spec (n mod downloadBufferSize) 0) as [E|E]; constructor;
      [|constructor].
    pose proof (Z.mod_pos_bound n downloadBufferSize HB). lia.
Qed.

Lemma sumZ_take_lt (l : list Z) : forall j,
  Forall (fun c => 0 < c) l -> (j < length l)%nat -> sumZ (take j l) < sumZ l.
Proof.
  induction l as [|x l IH]; intros j Hpos Hj; [cbn [length] in Hj; lia|].
  apply Forall_cons in Hpos as [Hx Hl].
  assert (Hnn : 0 <= sumZ l).
  { clear -Hl. induction Hl as [|y l Hy _ IHl]; [reflexivity|].
    cbn [sumZ fold_right]. fold (sumZ l). lia. }
  destruct j as [|j].
  - cbn [take sumZ fold_right]. fold (sumZ l). lia.
  - cbn [take sumZ fold_right length] in *.
    fold (sumZ (take j l)). fold (sumZ l).
    specialize (IH j Hl ltac:(lia)). lia.
Qed.

(** ** The shape of the trace of an accepted request *)

Lemma bracketed_enter s mid :
  deltas mid = [] ->
  bracketed (enterEvents s ++ mid ++ [EvAddConcurrent (-1)]).
Proof.
  intros Hmid. unfold enterEvents.
  exists (peakEvents (add64 (currentConcurrent s) 1) (peakConcurrent s) ++ mid)%list.
  split.
  - cbn [app]. rewrite <- app_assoc. reflexivity.
  - rewrite deltas_app, deltas_peakEvents, Hmid. reflexivity.
Qed.

Lemma currentConcurrent_round_trip s :
  inInt64 (currentConcurrent s) ->
  currentConcurrent (left (entered s)) = currentConcurrent s.
Proof.
  intros H. rewrite currentConcurrent_left, currentConcurrent_entered.
  by apply add64_inc_dec.
Qed.

(** Every accepted request, whatever its fate, brackets its work between one
    increment and one decrement and leaves the counter where it found it. *)
Lemma accepted_request_balanced ep now s c r n :
  Method r = endpointMethod ep ->
  parseBytes r = inl n ->
  exists h',
    endpointHandler ep now (initState s c) r = Some h'
    /\ bracketed (trace h')
    /\ currentConcurrent (st h') = currentConcurrent (left (entered s)).
Proof.
  intros Hm Hp. destruct ep; cbn [endpointHandler endpointMethod] in *.
  - destruct (accepts_cases (length (chunks n)) c) as [Hacc|(j & rest & Hj & Hc)].
    + destruct (downloadHandler_complete now s c r n Hm Hp Hacc)
        as (h' & Hrun & Hst & _ & _ & _ & Htrace).
      exists h'. split; [exact Hrun|]. rewrite Htrace, Hst. split; [|reflexivity].
      replace (map writeOk (chunks n)
                 ++ [EvRecord; EvLog (LogDownload (RemoteAddr r) n);
                     EvAddConcurrent (-1)])%list
        with ((map writeOk (chunks n)
                 ++ [EvRecord; EvLog (LogDownload (RemoteAddr r) n)])
                ++ [EvAddConcurrent (-1)])%list
        by (rewrite <- app_assoc; reflexivity).
      apply bracketed_enter. rewrite deltas_app, deltas_writeOk. reflexivity.
    + destruct (downloadHandler_broken now s c r n j rest Hm Hp Hc Hj)
        as (h' & cj & _ & Hrun & Hst & _ & _ & Htrace).
      exists h'. split; [exact Hrun|]. rewrite Htrace, Hst. split; [|reflexivity].
      replace (map writeOk (take j (chunks n))
                 ++ [EvWrite (Zeros cj) false;
                     EvLog (LogDownloadWriteError (RemoteAddr r));
                     EvAddConcurrent (-1)])%list
        with ((map writeOk (take j (chunks n))
                 ++ [EvWrite (Zeros cj) false;
                     EvLog (LogDownloadWriteError (RemoteAddr r))])
                ++ [EvAddConcurrent (-1)])%list
        by (rewrite <- app_assoc; reflexivity).
      apply bracketed_enter. rewrite deltas_app, deltas_writeOk. reflexivity.
  - destruct (bodyErr (ReqBody r)) eqn:Herr.
    + destruct (uploadHandler_broken now s c r n Hm Hp Herr)
        as (h' & Hrun & Hst & _ & Htrace).
      exists h'. split; [exact Hrun|]. rewrite Htrace, Hst. split; [|reflexivity].
      apply (bracketed_enter s
               [EvReadBody (bodyLen (ReqBody r)) false;
                EvLog (LogUploadReadError (RemoteAddr r));
                EvWriteHeader StatusInternalServerError;
                EvWrite (Text ("upload error" ++ newline)) (nextWrite c)]).
      reflexivity.
    + destruct (uploadHandler_complete now s c r n Hm Hp Herr)
        as (h' & Hrun & Hst & _ & _ & _ & Htrace).
      exists h'. split; [exact Hrun|]. rewrite Htrace, Hst. split; [|reflexivity].
      set (m := bodyLen (ReqBody r)).
      set (mid := ([EvReadBody m true] ++ mismatchEvents (RemoteAddr r) n m
                     ++ [EvWriteHeader StatusOK;
                         EvWrite (Text (uploadReply m)) (nextWrite c);
                         EvRecord; EvLog (LogUpload (RemoteAddr r) m)])%list).
      match goal with
      | |- bracketed ?t =>
          replace t with (enterEvents s ++ mid ++ [EvAddConcurrent (-1)])%list
      end.
      * apply bracketed_enter. subst mid. cbn [app deltas].
        rewrite deltas_app, deltas_mismatchEvents. reflexivity.
      * subst mid. cbn [app]. rewrite <- !app_assoc. reflexivity.
Qed.

(** * The transfer endpoints *)

(** C1. A GET on /__down whose [bytes] parameter reads as [N], with
    [minBytes <= N <= maxBytes], over a connection that takes every write:
    [downloadHandler] returns, having set [Content-Length] to the decimal
    text of [N] and written a body of exactly [N] bytes, one [Write] per
    chunk, every chunk a full 1 MiB buffer except possibly a shorter, non-empty
    last one. *)
Theorem downloadHandler_streams_exactly now s c r N :
  Method r = MethodGet ->
  ParseInt (Values_Get (Query r) "bytes") = inl N ->
  minBytes <= N <= maxBytes ->
  accepts (length (chunks N)) c = true ->
  exists h',
    downloadHandler now (initState s c) r = Some h'
    /\ status (rw h') = Some StatusOK
    /\ hdr (rw h') !! "Content-Length" = Some (FormatInt N)
    /\ bodyBytes (rw h') = N
    /\ body (rw h') = map Zeros (chunks N)
    /\ downloadBufferSize = 2 ^ 20
    /\ exists (k : nat) (last : list Z),
         chunks N = (replicate k downloadBufferSize ++ last)%list
         /\ (last = [] \/ exists m, last = [m] /\ 0 < m < downloadBufferSize).
Proof.
  intros Hm Hparse Hrange Hacc.
  assert (Hp : parseBytes r = inl N) by (apply parseBytes_inl; auto).
  assert (0 <= N) by (unfold minBytes in Hrange; lia).
  destruct (downloadHandler_complete now s c r N Hm Hp Hacc)
    as (h' & Hrun & _ & Hhdr & Hstatus & Hbody & _).
  exists h'. split; [exact Hrun|]. split; [exact Hstatus|].
  split.
  { rewrite Hhdr. unfold downloadHeaders.
    rewrite lookup_insert_ne by discriminate. apply lookup_insert_eq. }
  split.
  { unfold bodyBytes. rewrite Hbody, payloadLen_Zeros. by apply chunks_sum. }
  split; [exact Hbody|]. split; [reflexivity|].
  by apply chunks_shape.
Qed.

Lemma downloadHandler_streams_exactly_witness :
  exists h',
    downloadHandler 7 (initState zeroStats []) (sampleDownload "2621440") = Some h'
    /\ status (rw h') = Some StatusOK
    /\ hdr (rw h') !! "Content-Length" = Some (FormatInt 2621440)
    /\ bodyBytes (rw h') = 2621440
    /\ body (rw h') = map Zeros (chunks 2621440)
    /\ downloadBufferSize = 2 ^ 20
    /\ exists (k : nat) (last : list Z),
         chunks 2621440 = (replicate k downloadBufferSize ++ last)%list
         /\ (last = [] \/ exists m, last = [m] /\ 0 < m < downloadBufferSize).
Proof.
  apply (downloadHandler_streams_exactly 7 zeroStats [] (sampleDownload "2621440"));
    [reflexivity | reflexivity | unfold minBytes, maxBytes; lia | reflexivity].
Defined.

Example download_two_and_a_half_MiB :
  chunks 2621440 = [1048576; 1048576; 524288]
  /\ (body ∘ rw <$> downloadHandler 7 (initState zeroStats []) (sampleDownload "2621440"))
     = Some [Zeros 1048576; Zeros 1048576; Zeros 524288].
Proof. split; vm_compute; reflexivity. Qed.



Example upload_short_body :
  (totalBytesUp ∘ st <$> uploadHandler 99 (initState zeroStats [])
                           (sampleUpload "3000000" 2000000 false)) = Some 2000000
  /\ uploadReply 2000000
     = "{" ++ dquote ++ "ok" ++ dquote ++ ":true," ++ dquote ++ "bytes"
           ++ dquote ++ ":2000000}".
Proof. split; vm_compute; reflexivity. Qed.

Lemma rejectedWith_http_Error s c code msg :
  rejectedWith s c code msg (http_Error (initState s c) msg code).
Proof.
  destruct (http_Error_fresh s c msg code) as (Hst & Hstatus & _ & Htrace).
  unfold rejectedWith. rewrite Htrace. repeat split; assumption || reflexivity.
Qed.

(** C3, as stated, fails: a POST on /__down without a [bytes] parameter is
    answered 405, not 400. *)
Lemma invalid_bytes_not_always_400 :
  ~ (forall ep now s c r,
       invalidBytesParam r ->
       exists h',
         endpointHandler ep now (initState s c) r = Some h'
         /\ status (rw h') = Some StatusBadRequest).
Proof.
  intros H.
  destruct (H Down 0 zeroStats []
              (mkRequest MethodPost "/__down" [] "10.0.0.7:51234" (mkBody 0 false)))
    as (h' & Hrun & Hstatus); [by left|].
  vm_compute in Hrun. injection Hrun as <-. discriminate Hstatus.
Qed.

(** C3, amended. A request whose [bytes] parameter is missing, no base-10
    integer or outside [minBytes .. maxBytes], sent with the endpoint's own
    method (GET on /__down, POST on /__up), is answered 400 with the
    non-empty text of the parse error; sent with another method it is
    answered 405. Either way the handler returns with that single write:
    no buffer streamed, no request body read, no counter touched, the
    statistics equal to what they were. *)
Theorem invalid_bytes_rejected ep now s c r :
  invalidBytesParam r ->
  exists h',
    endpointHandler ep now (initState s c) r = Some h'
    /\ (Method r = endpointMethod ep ->
        exists e, parseBytes r = inr e
                  /\ ParseError_Error e <> ""
                  /\ rejectedWith s c StatusBadRequest (ParseError_Error e) h')
    /\ (Method r <> endpointMethod ep ->
        rejectedWith s c StatusMethodNotAllowed "method not allowed" h').
Proof.
  intros Hinv. apply parseBytes_inr in Hinv as [e He].
  destruct (String.eqb_spec (Method r) (endpointMethod ep)) as [Hm|Hm].
  - rewrite (endpointHandler_bad_bytes ep now _ r e Hm He).
    eexists. split; [reflexivity|]. split; [|contradiction].
    intros _. exists e. split; [exact He|].
    split; [apply ParseError_Error_nonempty | apply rejectedWith_http_Error].
  - rewrite (endpointHandler_wrong_method ep now _ r Hm).
    eexists. split; [reflexivity|]. split; [contradiction|].
    intros _. apply rejectedWith_http_Error.
Qed.

Lemma invalid_bytes_rejected_witness :
  exists h',
    endpointHandler Down 5 (initState zeroStats []) (sampleDownload "1000000")
      = Some h'
    /\ (Method (sampleDownload "1000000") = endpointMethod Down ->
        exists e, parseBytes (sampleDownload "1000000") = inr e
                  /\ ParseError_Error e <> ""
                  /\ rejectedWith zeroStats [] StatusBadRequest
                       (ParseError_Error e) h')
    /\ (Method (sampleDownload "1000000") <> endpointMethod Down ->
        rejectedWith zeroStats [] StatusMethodNotAllowed "method not allowed" h').
Proof.
  apply (invalid_bytes_rejected Down 5 zeroStats [] (sampleDownload "1000000")).
  right. right. exists 1000000. split; [reflexivity|].
  left. unfold minBytes. lia.
Defined.

Example rejections :
  parseBytes (sampleDownload "") = inr MissingBytes
  /\ parseBytes (sampleDownload "12MB") = inr (InvalidBytes "12MB" ErrSyntax)
  /\ parseBytes (sampleDownload "1048575") = inr BytesOutOfRange
  /\ parseBytes (sampleDownload "10737418241") = inr BytesOutOfRange
  /\ parseBytes (sampleDownload "10737418240") = inl maxBytes
  /\ parseBytes (sampleDownload "1048576") = inl minBytes.
Proof. repeat split; reflexivity. Qed.

(** C4. Download statistics are all or nothing. An accepted download either
    gets every chunk out, and then the locked update runs exactly once with
    [totalDownloads] up by one, [totalBytesDown] up by the requested size
    and [lastRequestTime] refreshed; or some write fails, and then that
    write is the last one attempted, only the error log and the deferred
    decrement follow it, fewer than [N] bytes were delivered, the update
    never runs and the three fields are what they were. *)
Theorem download_all_or_nothing now s c r N :
  Method r = MethodGet ->
  parseBytes r = inl N ->
  exists h',
    downloadHandler now (initState s c) r = Some h'
    /\ ((accepts (length (chunks N)) c = true
         /\ bodyBytes (rw h') = N
         /\ records (trace h') = 1%nat
         /\ totalDownloads (st h') = add64 (totalDownloads s) 1
         /\ totalBytesDown (st h') = add64 (totalBytesDown s) N
         /\ lastRequestTime (st h') = now
         /\ (inInt64 (totalDownloads s + 1) ->
             totalDownloads (st h') = totalDownloads s + 1)
         /\ (inInt64 (totalBytesDown s + N) ->
             totalBytesDown (st h') = totalBytesDown s + N))
        \/ (accepts (length (chunks N)) c = false
            /\ (exists (j : nat) (cj : Z),
                  (j < length (chunks N))%nat
                  /\ chunks N !! j = Some cj
                  /\ body (rw h') = map Zeros (take j (chunks N))
                  /\ trace h' =
                       (enterEvents s ++ map writeOk (take j (chunks N))
                          ++ [EvWrite (Zeros cj) false;
                              EvLog (LogDownloadWriteError (RemoteAddr r));
                              EvAddConcurrent (-1)])%list)
            /\ bodyBytes (rw h') < N
            /\ records (trace h') = O
            /\ totalDownloads (st h') = totalDownloads s
            /\ totalBytesDown (st h') = totalBytesDown s
            /\ lastRequestTime (st h') = lastRequestTime s)).
Proof.
  intros Hm Hp. pose proof (proj1 (parseBytes_inl r N) Hp) as [_ Hn].
  assert (Hn0 : 0 <= N) by (unfold minBytes in Hn; lia).
  destruct (accepts_cases (length (chunks N)) c) as [Hacc|(j & rest & Hj & Hc)].
  - destruct (downloadHandler_complete now s c r N Hm Hp Hacc)
      as (h' & Hrun & Hst & _ & _ & Hbody & Htrace).
    destruct (left_download_fields s N now) as (Hd & Hb & Ht & _).
    exists h'. split; [exact Hrun|]. left. rewrite Hst, Hd, Hb, Ht.
    split; [exact Hacc|]. split.
    { unfold bodyBytes. rewrite Hbody, payloadLen_Zeros. by apply chunks_sum. }
    split.
    { rewrite Htrace, !records_app, records_enterEvents, records_writeOk.
      reflexivity. }
    repeat split; first [reflexivity | apply add64_exact].
  - destruct (downloadHandler_broken now s c r N j rest Hm Hp Hc Hj)
      as (h' & cj & Hcj & Hrun & Hst & _ & Hbody & Htrace).
    destruct (left_entered_fields s) as (Hd & _ & Hb & _ & _ & _ & Ht).
    exists h'. split; [exact Hrun|]. right. rewrite Hst, Hd, Hb, Ht.
    split; [subst c; by apply accepts_failure|].
    split; [exists j, cj; auto|].
    split.
    { unfold bodyBytes. rewrite Hbody, payloadLen_Zeros.
      rewrite <- (chunks_sum N Hn0) at 2.
      apply sumZ_take_lt; [by apply chunks_positive | exact Hj]. }
    split.
    { rewrite Htrace, !records_app, records_enterEvents, records_writeOk.
      reflexivity. }
    repeat split; reflexivity.
Qed.

Lemma download_all_or_nothing_witness :
  exists h',
    downloadHandler 7 (initState zeroStats [true; false]) (sampleDownload "2621440")
      = Some h'
    /\ ((accepts (length (chunks 2621440)) [true; false] = true
         /\ bodyBytes (rw h') = 2621440
         /\ records (trace h') = 1%nat
         /\ totalDownloads (st h') = add64 (totalDownloads zeroStats) 1
         /\ totalBytesDown (st h') = add64 (totalBytesDown zeroStats) 2621440
         /\ lastRequestTime (st h') = 7
         /\ (inInt64 (totalDownloads zeroStats + 1) ->
             totalDownloads (st h') = totalDownloads zeroStats + 1)
         /\ (inInt64 (totalBytesDown zeroStats + 2621440) ->
             totalBytesDown (st h') = totalBytesDown zeroStats + 2621440))
        \/ (accepts (length (chunks 2621440)) [true; false] = false
            /\ (exists (j : nat) (cj : Z),
                  (j < length (chunks 2621440))%nat
                  /\ chunks 2621440 !! j = Some cj
                  /\ body (rw h') = map Zeros (take j (chunks 2621440))
                  /\ trace h' =
                       (enterEvents zeroStats
                          ++ map writeOk (take j (chunks 2621440))
                          ++ [EvWrite (Zeros cj) false;
                              EvLog (LogDownloadWriteError
                                       (RemoteAddr (sampleDownload "2621440")));
                              EvAddConcurrent (-1)])%list)
            /\ bodyBytes (rw h') < 2621440
            /\ records (trace h') = O
            /\ totalDownloads (st h') = totalDownloads zeroStats
            /\ totalBytesDown (st h') = totalBytesDown zeroStats
            /\ lastRequestTime (st h') = lastRequestTime zeroStats)).
Proof.
  apply (download_all_or_nothing 7 zeroStats [true; false]
           (sampleDownload "2621440") 2621440); reflexivity.
Defined.

Example download_broken_at_second_write :
  (st <$> downloadHandler 7 (initState zeroStats [true; false])
            (sampleDownload "2621440")) = Some (mkStats 0 0 0 0 0 0 0 1 0)
  /\ (body ∘ rw <$> downloadHandler 7 (initState zeroStats [true; false])
                      (sampleDownload "2621440")) = Some [Zeros 1048576]
  /\ (st <$> downloadHandler 7 (initState zeroStats [])
               (sampleDownload "2621440"))
     = Some (mkStats 1 0 2621440 0 0 0 7 1 0).
Proof. repeat split; vm_compute; reflexivity. Qed.

(** C10. [currentConcurrent] is balanced per request, in both handlers.
    A request that fails the method check or the [bytes] check performs no
    operation on the counter and leaves the statistics as they were. A
    request that passes both increments first and decrements last, with no
    other operation on the counter in between, whether the transfer
    completes, a write fails or the body read fails; and in every case the
    handler returns with the counter at its prior value. *)
Theorem currentConcurrent_balanced ep now s c r :
  inInt64 (currentConcurrent s) ->
  exists h',
    endpointHandler ep now (initState s c) r = Some h'
    /\ currentConcurrent (st h') = currentConcurrent s
    /\ ((Method r <> endpointMethod ep \/ exists e, parseBytes r = inr e) ->
        deltas (trace h') = [] /\ st h' = s)
    /\ ((Method r = endpointMethod ep /\ exists n, parseBytes r = inl n) ->
        bracketed (trace h') /\ deltas (trace h') = [1; -1]).
Proof.
  intros Hrange.
  destruct (String.eqb_spec (Method r) (endpointMethod ep)) as [Hm|Hm].
  - destruct (parseBytes r) as [n|e] eqn:Hp.
    + destruct (accepted_request_balanced ep now s c r n Hm Hp)
        as (h' & Hrun & Hbr & Hcur).
      exists h'. split; [exact Hrun|]. split.
      { rewrite Hcur. by apply currentConcurrent_round_trip. }
      split.
      { intros [Hne|[e He]]; [contradiction | discriminate]. }
      intros _. split; [exact Hbr|].
      destruct Hbr as (mid & -> & Hmid).
      cbn [deltas]. rewrite deltas_app, Hmid. reflexivity.
    + rewrite (endpointHandler_bad_bytes ep now _ r e Hm Hp).
      destruct (rejectedWith_http_Error s c StatusBadRequest (ParseError_Error e))
        as (Hst & _ & _ & _ & Hd).
      eexists. split; [reflexivity|]. rewrite Hst.
      split; [reflexivity|]. split; [intros _; split; [exact Hd | reflexivity]|].
      intros [_ [n Hn]]. discriminate.
  - rewrite (endpointHandler_wrong_method ep now _ r Hm).
    destruct (rejectedWith_http_Error s c StatusMethodNotAllowed "method not allowed")
      as (Hst & _ & _ & _ & Hd).
    eexists. split; [reflexivity|]. rewrite Hst.
    split; [reflexivity|]. split; [intros _; split; [exact Hd | reflexivity]|].
    intros [Heq _]. contradiction.
Qed.

Lemma currentConcurrent_balanced_witness :
  exists h',
    endpointHandler Up 3 (initState (mkStats 4 2 9 9 2 0 1 5 3) [])
      (sampleUpload "2000000" 2000000 true) = Some h'
    /\ currentConcurrent (st h') = currentConcurrent (mkStats 4 2 9 9 2 0 1 5 3)
    /\ ((Method (sampleUpload "2000000" 2000000 true) <> endpointMethod Up
         \/ exists e, parseBytes (sampleUpload "2000000" 2000000 true) = inr e) ->
        deltas (trace h') = [] /\ st h' = mkStats 4 2 9 9 2 0 1 5 3)
    /\ ((Method (sampleUpload "2000000" 2000000 true) = endpointMethod Up
         /\ exists n, parseBytes (sampleUpload "2000000" 2000000 true) = inl n) ->
        bracketed (trace h') /\ deltas (trace h') = [1; -1]).
Proof.
  apply (currentConcurrent_balanced Up 3 (mkStats 4 2 9 9 2 0 1 5 3) []
           (sampleUpload "2000000" 2000000 true)).
  unfold inInt64, minInt64, maxInt64. cbn [currentConcurrent]. lia.
Defined.

Example upload_read_error_is_balanced :
  (st <$> uploadHandler 3 (initState (mkStats 4 2 9 9 2 0 1 5 3) [])
            (sampleUpload "2000000" 2000000 true))
    = Some (mkStats 4 2 9 9 2 0 1 5 3)
  /\ (deltas ∘ trace <$> uploadHandler 3 (initState (mkStats 4 2 9 9 2 0 1 5 3) [])
                           (sampleUpload "2000000" 2000000 true))
    = Some [1; -1].
Proof. split; vm_compute; reflexivity. Qed.

(** * The test runners *)

Section Runners.

Context {W : Type} `{Env W}.

(** [runDownloadTest] branch by branch, on a request that was built. *)
Lemma runDownloadTest_built config w req :
  downloadRequest config = Some req ->
  runDownloadTest config w =
    match snd (Do w req) with
    | None => (fst (Do w req), Failed DownloadFailed)
    | Some resp =>
        if negb (StatusCode resp =? StatusOK)
        then (fst (Do w req), Failed (BadStatus (StatusCode resp)))
        else
          let w' := Drain (fst (Do w req)) resp in
          if bodyErr (RespBody resp) then (w', Failed ReadFailed)
          else if Now w' - Now w =? 0 then (w', Failed TooQuick)
          else (w', Measured (throughputMbps (bodyLen (RespBody resp))
                                (Now w' - Now w))
                      (Now w' - Now w))
    end.
Proof.
  unfold downloadRequest, runDownloadTest. intros ->.
  destruct (Do w req) as [w1 [resp|]]; reflexivity.
Qed.

Lemma runDownloadTest_unbuilt config w :
  downloadRequest config = None ->
  runDownloadTest config w = (w, Failed RequestCreationFailed).
Proof. unfold downloadRequest, runDownloadTest. intros ->. reflexivity. Qed.

(** The download runner never panics. *)
Lemma runDownloadTest_no_panic config w :
  snd (runDownloadTest config w) <> Panicked.
Proof.
  destruct (downloadRequest config) as [req|] eqn:Hreq.
  - rewrite (runDownloadTest_built config w req Hreq).
    destruct (snd (Do w req)) as [resp|]; [|discriminate].
    destruct (negb (StatusCode resp =? StatusOK)); [discriminate|].
    cbv zeta. destruct (bodyErr (RespBody resp)); [discriminate|].
    destruct (_ =? 0); discriminate.
  - rewrite (runDownloadTest_unbuilt config w Hreq). discriminate.
Qed.

Lemma downloadTestFails_iff config w :
  downloadTestFails config w <->
  creationFails config \/ networkFails config w \/ badStatus config w
  \/ readFails config w \/ zeroElapsed config w.
Proof.
  unfold downloadTestFails, creationFails, networkFails, badStatus, readFails,
    zeroElapsed.
  destruct (downloadRequest config) as [req|] eqn:Hreq.
  2:{ rewrite (runDownloadTest_unbuilt config w Hreq). split; [by left|].
      intros _. by exists RequestCreationFailed. }
  rewrite (runDownloadTest_built config w req Hreq).
  destruct (snd (Do w req)) as [resp|] eqn:Hdo.
  2:{ split; [|intros _; by exists DownloadFailed].
      intros _. right. left. by exists req. }
  destruct (Z.eqb_spec (StatusCode resp) StatusOK) as [Hs|Hs]; cbn [negb].
  2:{ split; [|intros _; by eexists].
      intros _. right. right. left. by exists req, resp. }
  cbv zeta. destruct (bodyErr (RespBody resp)) eqn:Hb.
  { split; [|intros _; by exists ReadFailed].
    intros _. do 3 right. left. by exists req, resp. }
  destruct (Z.eqb_spec (Now (Drain (fst (Do w req)) resp) - Now w) 0) as [Hz|Hz].
  { split; [|intros _; by exists TooQuick].
    intros _. do 4 right. by exists req, resp. }
  split; [intros [err [=]]|].
  intros [Hc|[(q & Hq & Hn)|[(q & p & Hq & Hp & Hne)
         |[(q & p & Hq & Hp & _ & Hbe)|(q & p & Hq & Hp & _ & Hze)]]]];
    try discriminate; injection Hq as <-; rewrite Hdo in *;
    try discriminate; injection Hp as <-; congruence.
Qed.

End Runners.

Section UploadRunner.

Context {W : Type} `{Env W}.

(** [runUploadTest] when it measures: the request carried the declared
    number of bytes, the response was a 200, and the clock was read before
    the request went out and after the response body was drained. *)
Lemma runUploadTest_measured config w w' speed elapsed :
  runUploadTest config w = (w', Measured speed elapsed) ->
  exists req resp,
    http_NewRequest MethodPost (uploadURL config) (declaredBytes config) = Some req
    /\ Do w (Header_SetContentType req "application/octet-stream")
       = (fst (Do w (Header_SetContentType req "application/octet-stream")),
          Some resp)
    /\ StatusCode resp = StatusOK
    /\ w' = Drain (fst (Do w (Header_SetContentType req "application/octet-stream")))
              resp
    /\ elapsed = Now w' - Now w
    /\ elapsed <> 0
    /\ speed = throughputMbps (declaredBytes config) elapsed.
Proof.
  unfold runUploadTest. cbv zeta.
  destruct (declaredBytes config <? 0); [discriminate|].
  destruct (http_NewRequest MethodPost (uploadURL config) (declaredBytes config))
    as [req|]; [|discriminate].
  destruct (Do w (Header_SetContentType req "application/octet-stream"))
    as [w1 [resp|]] eqn:Hdo; [|discriminate].
  destruct (Z.eqb_spec (StatusCode resp) StatusOK) as [Hs|Hs]; cbn [negb];
    [|discriminate].
  destruct (Z.eqb_spec (Now (Drain w1 resp) - Now w) 0) as [Hz|Hz]; [discriminate|].
  intros [= <- <- <-]. exists req, resp. rewrite Hdo. cbn [fst].
  repeat split; auto.
Qed.

End UploadRunner.

(** A scripted upload does not look at the body of the response. *)
Lemma scripted_upload_ignores_response_body config ex body' rest :
  snd (runUploadTest config (scriptOf (ex :: rest)))
  = snd (runUploadTest config
           (scriptOf (mkExchange (exOk ex) (exStatus ex) body'
                        (exDoTime ex) (exReadTime ex) :: rest))).
Proof.
  unfold runUploadTest. cbv zeta.
  destruct (declaredBytes config <? 0); [reflexivity|].
  unfold http_NewRequest. cbn [urlParses scriptEnv Do scriptDo scriptOf pending
    exOk exStatus exBody exDoTime exReadTime Now Drain clock reading sent].
  destruct (exOk ex); [|reflexivity].
  cbn [StatusCode RespBody].
  destruct (negb (exStatus ex =? StatusOK)); [reflexivity|].
  cbn [clock pending sent reading].
  destruct (_ =? 0); reflexivity.
Qed.

(** * The orchestrators *)

Section Orchestrators.

Context {W : Type} `{Env W}.

Lemma stoppedBy_step what runTest config left first before row (r' : @Run W) :
  isRow row = true ->
  stoppedBy what runTest config left (first + 1) (before ++ [row]) r' ->
  stoppedBy what runTest config (S left) first before r'.
Proof.
  intros Hrow (rows & w & err & Hrows & Hlen & Hrun & Hprinted).
  exists (row :: rows), w, err. cbn [forallb length]. rewrite Hrow, Hrows.
  split; [reflexivity|]. split; [lia|]. split; [exact Hrun|].
  rewrite Hprinted, <- app_assoc. cbn [app].
  replace (first + Z.of_nat (S (length rows)) + 1)
    with (first + 1 + Z.of_nat (length rows) + 1) by lia.
  reflexivity.
Qed.

Lemma crashedBy_step runTest config left before row (r' : @Run W) :
  isRow row = true ->
  crashedBy runTest config left (before ++ [row]) r' ->
  crashedBy runTest config (S left) before r'.
Proof.
  intros Hrow (rows & w & Hrows & Hlen & Hrun & Hprinted & Hdead).
  exists (row :: rows), w. cbn [forallb length]. rewrite Hrow, Hrows.
  split; [reflexivity|]. split; [lia|]. split; [exact Hrun|].
  rewrite Hprinted, <- app_assoc. split; [reflexivity | exact Hdead].
Qed.

Lemma completed_step left before closing row (r' : @Run W) :
  isRow row = true ->
  completed left (before ++ [row]) closing r' ->
  completed (S left) before closing r'.
Proof.
  intros Hrow (rows & Hrows & Hlen & Hprinted).
  exists (row :: rows). cbn [forallb length]. rewrite Hrow, Hrows, Hlen.
  split; [reflexivity|]. split; [reflexivity|].
  rewrite Hprinted, <- app_assoc. reflexivity.
Qed.

(** The loop of a one-direction series ends in one of three ways. *)
Lemma seriesLoop_ends runTest config n : forall i r speeds totalTime,
  match seriesLoop runTest config n i r speeds totalTime with
  | inl r' =>
      stoppedBy "test" runTest config n i (printed r) r'
      \/ crashedBy runTest config n (printed r) r'
  | inr (r', _, _) => completed n (printed r) [] r'
  end.
Proof.
  induction n as [|n IH]; intros i r speeds totalTime.
  - cbn [seriesLoop]. exists []. rewrite !app_nil_r. by repeat split.
  - cbn [seriesLoop].
    destruct (runTest config (world r)) as [w res] eqn:Hrun.
    destruct res as [speed duration|err|].
    + cbn [world printed alive printLine].
      match goal with
      | |- context [seriesLoop runTest config n (i + 1) ?r1 ?s1 ?t1] =>
          specialize (IH (i + 1) r1 s1 t1);
          destruct (seriesLoop runTest config n (i + 1) r1 s1 t1)
            as [r'|[[r' sp] tt]]
      end; cbn [printed] in IH.
      * destruct IH as [IH|IH].
        -- left. by apply (stoppedBy_step _ _ _ _ _ _ (LRow speed)).
        -- right. by apply (crashedBy_step _ _ _ _ (LRow speed)).
      * by apply (completed_step _ _ _ (LRow speed)).
    + left. exists [], (world r), err. cbn [forallb length printed world printLine app].
      split; [reflexivity|]. split; [lia|]. split; [exact Hrun|].
      replace (i + Z.of_nat 0 + 1) with (i + 1) by lia. reflexivity.
    + right. exists [], (world r). cbn [forallb length printed world alive app].
      rewrite app_nil_r. split; [reflexivity|]. split; [lia|]. by repeat split.
Qed.

(** The loop of [runBothTests] ends in one of five ways. *)
Lemma bothLoop_ends config n : forall i r downs ups totalTime,
  match bothLoop config n i r downs ups totalTime with
  | inl r' =>
      stoppedBy "download test" runDownloadTest config n i (printed r) r'
      \/ stoppedBy "upload test" runUploadTest config n i (printed r) r'
      \/ crashedBy runDownloadTest config n (printed r) r'
      \/ crashedBy runUploadTest config n (printed r) r'
  | inr (r', _, _, _) => completed n (printed r) [] r'
  end.
Proof.
  induction n as [|n IH]; intros i r downs ups totalTime.
  - cbn [bothLoop]. exists []. rewrite !app_nil_r. by repeat split.
  - cbn [bothLoop].
    destruct (runDownloadTest config (world r)) as [w res] eqn:Hdown.
    destruct res as [downSpeed downDur|err|].
    + cbn [world printed alive].
      destruct (runUploadTest config w) as [w2 res2] eqn:Hup.
      destruct res2 as [upSpeed upDur|err|].
      * cbn [world printed alive printLine].
        match goal with
        | |- context [bothLoop config n (i + 1) ?r1 ?d1 ?u1 ?t1] =>
            specialize (IH (i + 1) r1 d1 u1 t1);
            destruct (bothLoop config n (i + 1) r1 d1 u1 t1)
              as [r'|[[[r' dd] uu] tt]]
        end; cbn [printed] in IH.
        -- destruct IH as [IH|[IH|[IH|IH]]].
           ++ left. by apply (stoppedBy_step _ _ _ _ _ _ (LRowBoth downSpeed upSpeed)).
           ++ right. left.
              by apply (stoppedBy_step _ _ _ _ _ _ (LRowBoth downSpeed upSpeed)).
           ++ do 2 right. left.
              by apply (crashedBy_step _ _ _ _ (LRowBoth downSpeed upSpeed)).
           ++ do 3 right.
              by apply (crashedBy_step _ _ _ _ (LRowBoth downSpeed upSpeed)).
        -- by apply (completed_step _ _ _ (LRowBoth downSpeed upSpeed)).
      * right. left. exists [], w, err.
        cbn [forallb length printed world printLine app].
        split; [reflexivity|]. split; [lia|]. split; [exact Hup|].
        replace (i + Z.of_nat 0 + 1) with (i + 1) by lia. reflexivity.
      * do 3 right. exists [], w. cbn [forallb length printed world alive app].
        rewrite app_nil_r. split; [reflexivity|]. split; [lia|]. by repeat split.
    + left. exists [], (world r), err.
      cbn [forallb length printed world printLine app].
      split; [reflexivity|]. split; [lia|]. split; [exact Hdown|].
      replace (i + Z.of_nat 0 + 1) with (i + 1) by lia. reflexivity.
    + do 2 right. left. exists [], (world r).
      cbn [forallb length printed world alive app].
      rewrite app_nil_r. split; [reflexivity|]. split; [lia|]. by repeat split.
Qed.

End Orchestrators.

(** * The client against this server *)

Lemma validate_client c :
  Mode c = modeClient ->
  validate c = None ->
  1 <= Count c /\ 1 <= Size c /\ isValidDirection (Direction c) = true
  /\ Server c <> "".
Proof.
  intros Hm. unfold validate. rewrite Hm. cbn [String.eqb modeClient Ascii.eqb Bool.eqb].
  destruct (Z.ltb_spec (Count c) 1); [discriminate|].
  destruct (Z.ltb_spec (Size c) 1); [discriminate|].
  destruct (isValidDirection (Direction c)); [|discriminate]. cbn [negb].
  destruct (String.eqb_spec (Server c) ""); [discriminate|].
  intros _. repeat split; auto.
Qed.

Lemma cut_host host rest :
  hostOnly host = true ->
  cut "/"%char (host ++ String "/"%char rest) = (host, Some rest).
Proof.
  induction host as [|a host IH]; intros Hhost; [reflexivity|].
  cbn [hostOnly] in Hhost. apply andb_true_iff in Hhost as [Ha Hhost].
  apply andb_true_iff in Ha as [Ha _]. apply andb_true_iff in Ha as [Ha _].
  change (cut "/"%char (String a (host ++ String "/"%char rest))
          = (String a host, Some rest)).
  cbn [cut]. apply negb_true_iff in Ha. rewrite Ha, (IH Hhost).
  reflexivity.
Qed.

Lemma parseURL_down host :
  hostOnly host = true ->
  parseURL ("http://" ++ host ++ "/__down?bytes=1000000")
  = Some (host, "/__down", [("bytes", "1000000")]).
Proof.
  intros Hhost. unfold parseURL.
  change (stripPrefix "http://" ("http://" ++ host ++ "/__down?bytes=1000000"))
    with (Some (host ++ String "/"%char "__down?bytes=1000000")).
  cbv iota beta. rewrite (cut_host host _ Hhost). reflexivity.
Qed.

Lemma parseURL_up host :
  hostOnly host = true ->
  parseURL ("http://" ++ host ++ "/__up?bytes=1000000")
  = Some (host, "/__up", [("bytes", "1000000")]).
Proof.
  intros Hhost. unfold parseURL.
  change (stripPrefix "http://" ("http://" ++ host ++ "/__up?bytes=1000000"))
    with (Some (host ++ String "/"%char "__up?bytes=1000000")).
  cbv iota beta. rewrite (cut_host host _ Hhost). reflexivity.
Qed.

(** One megabyte, decimal, asked of either endpoint over the loopback: the
    handler answers 400 and the statistics stay as they were. *)
Lemma loopbackDo_one_megabyte ep host url bodyLen ct (w : Loopback) :
  parseURL url = Some (host, endpointPath ep, [("bytes", "1000000")]) ->
  loopbackDo w (mkOutRequest (endpointMethod ep) url bodyLen ct)
  = (mkLoopback (srv w) (wall w + latency w) (latency w),
     Some (mkResponse StatusBadRequest
             (mkBody (Z.of_nat (String.length
                                  (ParseError_Error BytesOutOfRange ++ newline)))
                false))).
Proof.
  intros Hurl. unfold loopbackDo. cbn [outURL outMethod outBodyLen].
  rewrite Hurl.
  assert (Hroute : route (endpointPath ep) = Some ep) by (destruct ep; reflexivity).
  rewrite Hroute.
  rewrite (endpointHandler_bad_bytes ep (wall w) _ _ BytesOutOfRange);
    [|reflexivity|reflexivity].
  destruct (http_Error_fresh (srv w) [] (ParseError_Error BytesOutOfRange)
              StatusBadRequest) as (Hst & Hstatus & Hbody & _).
  cbv zeta in Hst, Hstatus, Hbody. unfold bodyBytes.
  rewrite Hst, Hstatus, Hbody. reflexivity.
Qed.

Lemma declaredBytes_size_one config :
  Size config = 1 -> declaredBytes config = 1000000.
Proof. unfold declaredBytes. intros ->. reflexivity. Qed.

Lemma runDownloadTest_one_megabyte config (w : Loopback) :
  Size config = 1 ->
  hostOnly (Server config) = true ->
  runDownloadTest config w
  = (mkLoopback (srv w) (wall w + latency w) (latency w),
     Failed (BadStatus StatusBadRequest)).
Proof.
  intros Hsize Hhost.
  assert (Hurl : downloadURL config
                 = "http://" ++ Server config ++ "/__down?bytes=1000000").
  { unfold downloadURL. rewrite (declaredBytes_size_one config Hsize). reflexivity. }
  unfold runDownloadTest, http_NewRequest. cbv zeta.
  cbn [urlParses Do Now loopbackEnv]. rewrite Hurl.
  rewrite (parseURL_down (Server config) Hhost).
  pose proof (loopbackDo_one_megabyte Down (Server config) _ 0 None w
                (parseURL_down (Server config) Hhost)) as Hdo.
  cbn [endpointMethod] in Hdo. rewrite Hdo. reflexivity.
Qed.

Lemma runUploadTest_one_megabyte config (w : Loopback) :
  Size config = 1 ->
  hostOnly (Server config) = true ->
  runUploadTest config w
  = (mkLoopback (srv w) (wall w + latency w) (latency w),
     Failed (BadStatus StatusBadRequest)).
Proof.
  intros Hsize Hhost.
  assert (Hurl : uploadURL config
                 = "http://" ++ Server config ++ "/__up?bytes=1000000").
  { unfold uploadURL. rewrite (declaredBytes_size_one config Hsize). reflexivity. }
  unfold runUploadTest, http_NewRequest, Header_SetContentType. cbv zeta.
  rewrite (declaredBytes_size_one config Hsize).
  cbn [urlParses Do Now loopbackEnv Z.ltb Z.compare]. rewrite Hurl.
  rewrite (parseURL_up (Server config) Hhost).
  cbn [outMethod outURL outBodyLen].
  pose proof (loopbackDo_one_megabyte Up (Server config) _ 1000000
                (Some "application/octet-stream") w
                (parseURL_up (Server config) Hhost)) as Hdo.
  cbn [endpointMethod] in Hdo. rewrite Hdo. reflexivity.
Qed.

(** * What the test runners and the orchestrators guarantee *)

(** C7, as stated, fails: a 200 whose body breaks off while it is read
    makes [runDownloadTest] fail, with a built request, a completed round
    trip, status 200 and 0.8 s on the clock. *)
Lemma download_read_failure_unlisted :
  ~ (forall (config : Config) (w : Script),
       downloadTestFails config w <-> statedCauses config w).
Proof.
  intros Hclaim.
  destruct (Hclaim (sampleConfig directionDown 1 10) (scriptOf [brokenBodyExchange]))
    as [Hfail _].
  destruct Hfail as [Hc|[(q & Hq & Hn)|[(q & p & Hq & Hp & Hne)
                    |(q & p & Hq & Hp & _ & Hze)]]].
  - by exists ReadFailed.
  - discriminate Hc.
  - injection Hq as <-. discriminate Hn.
  - injection Hq as <-. injection Hp as <-. by apply Hne.
  - injection Hq as <-. injection Hp as <-. discriminate Hze.
Qed.

(** C7, amended. [runDownloadTest] fails exactly when the request cannot be
    built, the round trip fails, the status is not 200, reading the response
    body fails, or the clock shows no time elapsed; it never panics. With the
    body read in full and no time elapsed the error is the one for an
    unmeasurable test. In every other case it returns the world as it is
    after the body was drained, the elapsed time, and the rate
    [(float64(bytesReceived) / elapsed.Seconds()) * 8 / 1000000] in
    [float64] arithmetic. *)
Theorem runDownloadTest_failure_causes {W : Type} `{Env W} config (w : W) :
  (downloadTestFails config w <->
   creationFails config \/ networkFails config w \/ badStatus config w
   \/ readFails config w \/ zeroElapsed config w)
  /\ snd (runDownloadTest config w) <> Panicked
  /\ (zeroElapsed config w -> ~ readFails config w ->
      snd (runDownloadTest config w) = Failed TooQuick)
  /\ (~ downloadTestFails config w ->
      exists req resp,
        downloadRequest config = Some req
        /\ snd (Do w req) = Some resp
        /\ let w' := Drain (fst (Do w req)) resp in
           let elapsed := Now w' - Now w in
           elapsed <> 0
           /\ runDownloadTest config w =
                (w', Measured
                       (PrimFloat.div
                          (PrimFloat.mul
                             (PrimFloat.div
                                (float64_of_int64 (bodyLen (RespBody resp)))
                                (Seconds elapsed)) 8) 1000000)
                       elapsed)).
Proof.
  split; [apply downloadTestFails_iff|].
  split; [apply runDownloadTest_no_panic|].
  split.
  - intros (req & resp & Hreq & Hdo & Hs & Hz) Hnr.
    rewrite (runDownloadTest_built config w req Hreq), Hdo.
    destruct (Z.eqb_spec (StatusCode resp) StatusOK); [|contradiction].
    cbn [negb]. cbv zeta.
    destruct (bodyErr (RespBody resp)) eqn:Hb.
    { exfalso. apply Hnr. by exists req, resp. }
    rewrite Hz. reflexivity.
  - intros Hnf. unfold downloadTestFails in Hnf.
    destruct (downloadRequest config) as [req|] eqn:Hreq.
    2:{ exfalso. apply Hnf. rewrite (runDownloadTest_unbuilt config w Hreq).
        by eexists. }
    rewrite (runDownloadTest_built config w req Hreq) in *.
    destruct (snd (Do w req)) as [resp|] eqn:Hdo;
      [|exfalso; apply Hnf; by eexists].
    destruct (negb (StatusCode resp =? StatusOK));
      [exfalso; apply Hnf; by eexists|].
    cbv zeta in *.
    destruct (bodyErr (RespBody resp)); [exfalso; apply Hnf; by eexists|].
    destruct (Z.eqb_spec (Now (Drain (fst (Do w req)) resp) - Now w) 0) as [Hz|Hz];
      [exfalso; apply Hnf; by eexists|].
    exists req, resp. repeat split; auto.
Qed.

Lemma runDownloadTest_failure_causes_witness :
  snd (runDownloadTest (sampleConfig directionDown 1 10)
         (scriptOf [mkExchange true 200 (mkBody 10000000 false) 0 0]))
  = Failed TooQuick.
Proof.
  apply (proj1 (proj2 (proj2 (runDownloadTest_failure_causes
                                (sampleConfig directionDown 1 10)
                                (scriptOf [mkExchange true 200
                                             (mkBody 10000000 false) 0 0]))))).
  - eexists _, _. repeat split; reflexivity.
  - intros (q & p & Hq & Hp & _ & Hb).
    injection Hq as <-. injection Hp as <-. discriminate Hb.
Defined.

Example download_ten_megabytes_in_800ms :
  snd (runDownloadTest (sampleConfig directionDown 1 10) (scriptOf [goodExchange]))
  = Measured 100 800000000
  /\ snd (runDownloadTest (sampleConfig directionDown 1 10)
            (scriptOf [brokenBodyExchange]))
     = Failed ReadFailed
  /\ snd (runDownloadTest (sampleConfig directionDown 1 10)
            (scriptOf [serverErrorExchange]))
     = Failed (BadStatus 500)
  /\ snd (runDownloadTest (sampleConfig directionDown 1 10) (scriptOf []))
     = Failed DownloadFailed.
Proof. repeat split; vm_compute; reflexivity. Qed.

(** C8. Whenever [runUploadTest] measures, the rate is
    [(float64(numBytes) / elapsed.Seconds()) * 8 / 1000000] for the declared
    [numBytes = int64(config.Size) * 1000000] (the exact product away from
    the [int64] wrap), and the elapsed time runs from the clock reading taken
    before the request is sent to the one taken after the response body has
    been drained. The body of the response, where the server reports what it
    received, has no part in it: a scripted exchange with any other response
    body gives the same outcome. *)
Theorem runUploadTest_rate_from_declared :
  (forall (W : Type) (E : Env W) config (w w' : W) speed elapsed,
     runUploadTest config w = (w', Measured speed elapsed) ->
     speed = PrimFloat.div
               (PrimFloat.mul
                  (PrimFloat.div (float64_of_int64 (declaredBytes config))
                     (Seconds elapsed)) 8) 1000000
     /\ declaredBytes config = mul64 (Size config) 1000000
     /\ (inInt64 (Size config * 1000000) ->
         declaredBytes config = Size config * 1000000)
     /\ exists req resp,
          outBodyLen req = declaredBytes config
          /\ snd (Do w req) = Some resp
          /\ w' = Drain (fst (Do w req)) resp
          /\ elapsed = Now w' - Now w)
  /\ (forall config ex body' rest,
        snd (runUploadTest config (scriptOf (ex :: rest)))
        = snd (runUploadTest config
                 (scriptOf (mkExchange (exOk ex) (exStatus ex) body'
                              (exDoTime ex) (exReadTime ex) :: rest)))).
Proof.
  split; [|exact scripted_upload_ignores_response_body].
  intros W E config w w' speed elapsed Hrun.
  destruct (runUploadTest_measured config w w' speed elapsed Hrun)
    as (req & resp & Hreq & Hdo & _ & Hw' & Hel & _ & Hspeed).
  split; [exact Hspeed|]. split; [reflexivity|].
  split; [intros Hr; by apply wrap64_id|].
  exists (Header_SetContentType req "application/octet-stream"), resp.
  split.
  { unfold http_NewRequest in Hreq. destruct (urlParses _); [|discriminate].
    injection Hreq as <-. reflexivity. }
  split; [rewrite Hdo; reflexivity|]. split; assumption.
Qed.

Lemma runUploadTest_rate_from_declared_witness :
  100%float = PrimFloat.div
                (PrimFloat.mul
                   (PrimFloat.div
                      (float64_of_int64
                         (declaredBytes (sampleConfig directionUp 1 10)))
                      (Seconds 800000000)) 8) 1000000
  /\ declaredBytes (sampleConfig directionUp 1 10)
     = mul64 (Size (sampleConfig directionUp 1 10)) 1000000
  /\ (inInt64 (Size (sampleConfig directionUp 1 10) * 1000000) ->
      declaredBytes (sampleConfig directionUp 1 10)
      = Size (sampleConfig directionUp 1 10) * 1000000)
  /\ exists req resp,
       outBodyLen req = declaredBytes (sampleConfig directionUp 1 10)
       /\ snd (Do (scriptOf [goodExchange]) req) = Some resp
       /\ mkScript [] [mkOutRequest MethodPost
                         "http://localhost:8080/__up?bytes=10000000" 10000000
                         (Some "application/octet-stream")] 800000000 0
          = Drain (fst (Do (scriptOf [goodExchange]) req)) resp
       /\ 800000000
          = Now (mkScript [] [mkOutRequest MethodPost
                                "http://localhost:8080/__up?bytes=10000000"
                                10000000 (Some "application/octet-stream")]
                   800000000 0)
            - Now (scriptOf [goodExchange]).
Proof.
  apply (proj1 runUploadTest_rate_from_declared Script scriptEnv
           (sampleConfig directionUp 1 10) (scriptOf [goodExchange])).
  vm_compute. reflexivity.
Defined.

Example upload_rate_ignores_reported_count :
  snd (runUploadTest (sampleConfig directionUp 1 10)
         (scriptOf [mkExchange true 200 (mkBody 22 false) 700000000 100000000]))
  = Measured 100 800000000
  /\ snd (runUploadTest (sampleConfig directionUp 1 10)
            (scriptOf [mkExchange true 200 (mkBody 0 true) 700000000 100000000]))
     = Measured 100 800000000.
Proof. split; vm_compute; reflexivity. Qed.



Example second_upload_fails :
  printed (runClient (sampleConfig directionBoth 3 10)
             (scriptOf [goodExchange; goodExchange; goodExchange;
                        serverErrorExchange; goodExchange; goodExchange]))
  = [LTitle 10; LServer "localhost:8080"; LHeadBoth; LRule 30;
     LRowBoth 100 100; LError "upload test" 2 (BadStatus 500)]
  /\ length (pending (world (runClient (sampleConfig directionBoth 3 10)
                       (scriptOf [goodExchange; goodExchange; goodExchange;
                                  serverErrorExchange; goodExchange;
                                  goodExchange]))))
     = 2%nat
  /\ printed (runClient (sampleConfig directionDown 2 10)
                (scriptOf [goodExchange; goodExchange]))
     = [LTitle 10; LServer "localhost:8080"; LHead "down"; LRule 18;
        LRow 100; LRow 100; LRule 18; LAvg 100; LTotal 0x1.999999999999ap+0].
Proof. repeat split; vm_compute; reflexivity. Qed.



Example loopback_runs :
  printed (runClient (sampleConfig directionBoth 3 1)
             (mkLoopback zeroStats 100 5000000))
  = [LTitle 1; LServer "localhost:8080"; LHeadBoth; LRule 30;
     LError "download test" 1 (BadStatus 400)]
  /\ printed (runClient (sampleConfig directionBoth 2 2)
                (mkLoopback zeroStats 100 5000000))
     = [LTitle 2; LServer "localhost:8080"; LHeadBoth; LRule 30;
        LRowBoth 1600 1600; LRowBoth 1600 1600; LRule 30;
        LAvgBoth 1600 1600; LTotal 0x1.47ae147ae147bp-5]
  /\ srv (world (runClient (sampleConfig directionBoth 2 2)
                   (mkLoopback zeroStats 100 5000000)))
     = mkStats 2 2 4000000 4000000 2 0 530000100 1 0.
Proof. repeat split; vm_compute; reflexivity. Qed.

(** * Handlers running side by side *)

Lemma countInFlight_cons q ts :
  countInFlight (q :: ts) = inFlight q + countInFlight ts.
Proof. reflexivity. Qed.

Lemma countInFlight_insert ts : forall t p p',
  ts !! t = Some p ->
  countInFlight (<[t := p']> ts) = countInFlight ts - inFlight p + inFlight p'.
Proof.
  induction ts as [|q ts IH]; intros t p p' Hlook; [discriminate|].
  destruct t as [|t].
  - injection Hlook as ->.
    change (<[0%nat := p']> (p :: ts)) with (p' :: ts).
    rewrite !countInFlight_cons. lia.
  - change (<[S t := p']> (q :: ts)) with (q :: <[t := p']> ts).
    change ((q :: ts) !! S t) with (ts !! t) in Hlook.
    rewrite !countInFlight_cons, (IH t p p' Hlook). lia.
Qed.

Lemma countInFlight_range ts :
  0 <= countInFlight ts <= Z.of_nat (length ts).
Proof.
  induction ts as [|q ts IH]; [cbn; lia|].
  rewrite countInFlight_cons. cbn [length].
  destruct q; cbn [inFlight]; lia.
Qed.

(** The others in flight, apart from thread [t], are between none and all
    but one. *)
Lemma countInFlight_others ts t p :
  ts !! t = Some p ->
  0 <= countInFlight ts - inFlight p <= Z.of_nat (length ts) - 1.
Proof.
  intros Hlook.
  pose proof (countInFlight_insert ts t p Finished Hlook) as Hlow.
  pose proof (countInFlight_insert ts t p AtTransfer Hlook) as Hhigh.
  pose proof (countInFlight_range (<[t := Finished]> ts)) as R1.
  pose proof (countInFlight_range (<[t := AtTransfer]> ts)) as R2.
  rewrite length_insert in R1, R2. cbn [inFlight] in Hlow, Hhigh. lia.
Qed.

Lemma localsBelow_mono high high' p :
  high <= high' -> localsBelow high p -> localsBelow high' p.
Proof. intros Hle. destruct p; cbn [localsBelow]; lia. Qed.

Lemma localsBelow_afterLoad high current peak :
  current <= high -> localsBelow high (afterLoad current peak).
Proof.
  intros Hle. unfold afterLoad.
  destruct (Z.gtb_spec current peak); cbn [localsBelow]; [lia | exact I].
Qed.

Lemma inFlight_afterLoad current peak : inFlight (afterLoad current peak) = 1.
Proof. unfold afterLoad. destruct (current >? peak); reflexivity. Qed.

Lemma consistent_start k : consistent (startOf k).
Proof.
  unfold consistent, startOf. cbn [shared threads nowConcurrent peakSeen highWater].
  rewrite length_replicate.
  assert (Hcount : countInFlight (replicate k AtAdd) = 0).
  { induction k as [|k IH]; [reflexivity|].
    cbn [replicate]. rewrite countInFlight_cons, IH. reflexivity. }
  rewrite Hcount. repeat split; try lia.
  apply Forall_replicate. exact I.
Qed.

(** One operation of one handler keeps the system consistent and does not
    lower the peak, as long as the handlers are few enough for [int64]. *)
Lemma stepThread_consistent t sys :
  Z.of_nat (length (threads sys)) <= maxInt64 ->
  consistent sys ->
  consistent (stepThread t sys)
  /\ length (threads (stepThread t sys)) = length (threads sys)
  /\ peakSeen (shared sys) <= peakSeen (shared (stepThread t sys)).
Proof.
  intros Hfew (Hnow & Hnh & Hph & Hhl & Hloc).
  unfold stepThread. destruct (threads sys !! t) as [p|] eqn:Hlook.
  2:{ repeat split; auto; lia. }
  destruct sys as [[c pk hi] ts].
  cbn [shared threads nowConcurrent peakSeen highWater] in *.
  pose proof (countInFlight_others ts t p Hlook) as Hothers.
  assert (Hp : localsBelow hi p).
  { rewrite Forall_forall in Hloc. apply Hloc.
    apply list_elem_of_lookup. eauto. }
  assert (Hins : forall p' (s' : Shared),
             countInFlight (<[t := p']> ts) = c - inFlight p + inFlight p')
    by (intros; rewrite (countInFlight_insert ts t p _ Hlook); lia).
  unfold consistent, maxInt64 in *.
  destruct p; cbn [stepPc localsBelow inFlight nowConcurrent peakSeen highWater] in *.
  - (* AtAdd *)
    assert (Hadd : add64 c 1 = c + 1)
      by (apply add64_exact; unfold inInt64, minInt64, maxInt64; lia).
    cbn [shared threads nowConcurrent peakSeen highWater].
    rewrite Hadd, length_insert, (Hins AtLoadCurrent (mkShared 0 0 0)).
    cbn [inFlight]. repeat split; try lia.
    apply Forall_insert; [|exact I].
    eapply Forall_impl; [exact Hloc|]. intros q. apply localsBelow_mono. lia.
  - (* AtLoadCurrent *)
    cbn [shared threads nowConcurrent peakSeen highWater].
    rewrite length_insert, (Hins (AtLoadPeak c) (mkShared 0 0 0)).
    cbn [inFlight]. repeat split; try lia.
    apply Forall_insert; [exact Hloc | cbn [localsBelow]; lia].
  - (* AtLoadPeak *)
    cbn [shared threads nowConcurrent peakSeen highWater].
    rewrite length_insert, (Hins (afterLoad current pk) (mkShared 0 0 0)),
      inFlight_afterLoad.
    repeat split; try lia.
    apply Forall_insert; [exact Hloc | by apply localsBelow_afterLoad].
  - (* AtCas *)
    destruct (Z.eqb_spec pk peak) as [->|Hne];
      cbn [shared threads nowConcurrent peakSeen highWater].
    + rewrite length_insert, (Hins AtTransfer (mkShared 0 0 0)).
      cbn [inFlight]. repeat split; try lia.
      apply Forall_insert; [exact Hloc | exact I].
    + rewrite length_insert, (Hins (AtReload current) (mkShared 0 0 0)).
      cbn [inFlight]. repeat split; try lia.
      apply Forall_insert; [exact Hloc | cbn [localsBelow]; lia].
  - (* AtReload *)
    cbn [shared threads nowConcurrent peakSeen highWater].
    rewrite length_insert, (Hins (afterLoad current pk) (mkShared 0 0 0)),
      inFlight_afterLoad.
    repeat split; try lia.
    apply Forall_insert; [exact Hloc | by apply localsBelow_afterLoad].
  - (* AtTransfer *)
    cbn [shared threads nowConcurrent peakSeen highWater].
    rewrite length_insert, (Hins AtDefer (mkShared 0 0 0)).
    cbn [inFlight]. repeat split; try lia.
    apply Forall_insert; [exact Hloc | exact I].
  - (* AtDefer *)
    assert (Hsub : add64 c (-1) = c - 1)
      by (replace (c - 1) with (c + -1) by lia; apply add64_exact;
          unfold inInt64, minInt64, maxInt64; lia).
    cbn [shared threads nowConcurrent peakSeen highWater].
    rewrite Hsub, length_insert, (Hins Finished (mkShared 0 0 0)).
    cbn [inFlight]. repeat split; try lia.
    apply Forall_insert; [exact Hloc | exact I].
  - (* Finished *)
    cbn [shared threads nowConcurrent peakSeen highWater].
    rewrite length_insert, (Hins Finished (mkShared 0 0 0)).
    cbn [inFlight]. repeat split; try lia.
    apply Forall_insert; [exact Hloc | exact I].
Qed.

Lemma runSchedule_snoc schedule t sys :
  runSchedule (schedule ++ [t]) sys = stepThread t (runSchedule schedule sys).
Proof.
  revert sys. induction schedule as [|u schedule IH]; intros sys; [reflexivity|].
  cbn [app runSchedule]. apply IH.
Qed.

Lemma runSchedule_consistent schedule : forall sys,
  Z.of_nat (length (threads sys)) <= maxInt64 ->
  consistent sys ->
  consistent (runSchedule schedule sys)
  /\ length (threads (runSchedule schedule sys)) = length (threads sys).
Proof.
  induction schedule as [|t schedule IH]; intros sys Hfew Hc; [by split|].
  cbn [runSchedule].
  destruct (stepThread_consistent t sys Hfew Hc) as (Hc' & Hlen & _).
  destruct (IH (stepThread t sys)) as [Hc'' Hlen'']; [lia | exact Hc' |].
  split; [exact Hc'' | lia].
Qed.

(** What the code does keep, under every interleaving of [k] accepted
    requests: [currentConcurrent] stays between 0 and [k], the peak never
    goes down, and it never overstates the concurrency reached. *)
Lemma interleaving_keeps_bounds (k : nat) schedule t :
  Z.of_nat k <= maxInt64 ->
  let sys := runSchedule schedule (startOf k) in
  0 <= nowConcurrent (shared sys) <= Z.of_nat k
  /\ peakSeen (shared sys) <= highWater (shared sys) <= Z.of_nat k
  /\ peakSeen (shared sys) <= peakSeen (shared (runSchedule (schedule ++ [t]) (startOf k))).
Proof.
  intros Hfew sys.
  assert (Hk : length (threads (startOf k)) = k)
    by (cbn [startOf threads]; apply length_replicate).
  destruct (runSchedule_consistent schedule (startOf k)) as [Hc Hlen];
    [lia | apply consistent_start |].
  fold sys in Hc, Hlen. rewrite Hk in Hlen.
  rewrite runSchedule_snoc. fold sys.
  destruct (stepThread_consistent t sys) as (_ & _ & Hmono); [lia | exact Hc |].
  destruct Hc as (Hnow & Hnh & Hph & Hhl & _).
  pose proof (countInFlight_range (threads sys)) as Hrange.
  rewrite Hlen in *. repeat split; try lia.
Qed.

(** C9: the peak update can be lost. Two requests overlap, so
    [currentConcurrent] reaches 2, yet when both have returned
    [peakConcurrent] reads 1: the increment and the load that feeds the
    swap loop are two operations, and the second request loads the counter
    only after the first has left. *)
Lemma peak_update_lost :
  allFinished (runSchedule overlappingPair (startOf 2)) = true
  /\ highWater (shared (runSchedule overlappingPair (startOf 2))) = 2
  /\ peakSeen (shared (runSchedule overlappingPair (startOf 2))) = 1
  /\ nowConcurrent (shared (runSchedule [0; 0; 1]%nat (startOf 2))) = 2.
Proof. repeat split; vm_compute; reflexivity. Qed.

(** * More of the program: proofs *)

(** ** [strconv]: printing and parsing are inverse *)

Lemma uintValue_mono d : forall acc, 0 <= acc -> acc <= uintValue d acc.
Proof.
  induction d; intros acc Hacc; cbn [uintValue]; try lia;
    match goal with
    | |- _ <= uintValue _ ?a => specialize (IHd a ltac:(lia)); lia
    end.
Qed.

Lemma uintValue_acc d : forall acc : positive,
  uintValue d (Z.pos acc) = Z.pos (Pos.of_uint_acc d acc).
Proof.
  induction d; intros acc; cbn [uintValue Pos.of_uint_acc]; try reflexivity;
    rewrite <- IHd; f_equal; lia.
Qed.

Lemma uintValue_of_uint d : uintValue d 0 = Z.of_N (Pos.of_uint d).
Proof.
  induction d; cbn [uintValue Pos.of_uint]; try reflexivity;
    try (change (10 * 0 + ?k) with k; 
         match goal with |- uintValue _ (Z.pos ?p) = _ => rewrite (uintValue_acc d p); reflexivity end).
  exact IHd.
Qed.

Lemma uintValue_to_uint p : uintValue (Pos.to_uint p) 0 = Z.pos p.
Proof. rewrite uintValue_of_uint, DecimalPos.Unsigned.of_to. reflexivity. Qed.

Lemma parseUintLoop_digits d : forall acc,
  0 <= acc ->
  uintValue d acc <= maxUint64 ->
  parseUintLoop (NilEmpty.string_of_uint d) acc = inl (uintValue d acc).
Proof.
  induction d; intros acc Hacc Hmax; cbn [NilEmpty.string_of_uint uintValue] in *;
    try reflexivity;
    match type of Hmax with
    | uintValue _ ?a <= _ =>
        pose proof (uintValue_mono d a ltac:(lia)) as Hm;
        specialize (IHd a ltac:(lia) Hmax)
    end;
    cbn [parseUintLoop]; 
    match goal with |- context [digitOf ?c] => 
      let v := eval vm_compute in (digitOf c) in change (digitOf c) with v end;
    cbv beta iota;
    change (maxUint64 / 10 + 1) with 1844674407370955162;
    unfold maxUint64 in *;
    destruct (Z.geb_spec acc 1844674407370955162) as [Hge|Hlt]; try lia;
    match goal with |- context [?a >? ?b] => destruct (Z.gtb_spec a b) as [Hgt|Hle]; try lia end;
    rewrite <- IHd; f_equal; lia.
Qed.

Lemma string_of_uint_digit d :
  d <> Decimal.Nil ->
  exists c rest,
    NilEmpty.string_of_uint d = String c rest
    /\ Ascii.eqb c "+"%char = false /\ Ascii.eqb c "-"%char = false.
Proof.
  destruct d; intros Hd; try congruence; cbn [NilEmpty.string_of_uint];
    eexists _, _; repeat split; reflexivity.
Qed.

Lemma ParseUint_to_uint p :
  Z.pos p <= maxUint64 ->
  ParseUint (NilEmpty.string_of_uint (Pos.to_uint p)) = inl (Z.pos p).
Proof.
  intros Hp.
  destruct (string_of_uint_digit (Pos.to_uint p)) as (c & rest & Hs & _).
  { apply DecimalPos.Unsigned.to_uint_nonnil. }
  unfold ParseUint. rewrite Hs, <- Hs.
  rewrite parseUintLoop_digits; rewrite ?uintValue_to_uint; try lia.
  reflexivity.
Qed.

Lemma FormatInt_pos p :
  FormatInt (Z.pos p) = NilEmpty.string_of_uint (Pos.to_uint p).
Proof.
  unfold FormatInt. cbn [Z.to_int NilZero.string_of_int NilZero.string_of_uint].
  pose proof (DecimalPos.Unsigned.to_uint_nonnil p) as Hn.
  destruct (Pos.to_uint p); [congruence | reflexivity ..].
Qed.

Lemma FormatInt_neg p :
  FormatInt (Z.neg p) = String "-"%char (NilEmpty.string_of_uint (Pos.to_uint p)).
Proof.
  unfold FormatInt. cbn [Z.to_int NilZero.string_of_int NilZero.string_of_uint].
  pose proof (DecimalPos.Unsigned.to_uint_nonnil p) as Hn.
  destruct (Pos.to_uint p); [congruence | reflexivity ..].
Qed.

(** What [FormatInt] prints, [ParseInt] reads back. *)
Lemma ParseInt_FormatInt n : inInt64 n -> ParseInt (FormatInt n) = inl n.
Proof.
  unfold inInt64, minInt64, maxInt64. intros Hn.
  destruct n as [|p|p].
  - reflexivity.
  - rewrite FormatInt_pos.
    destruct (string_of_uint_digit (Pos.to_uint p)) as (c & rest & Hs & Hplus & Hminus).
    { apply DecimalPos.Unsigned.to_uint_nonnil. }
    unfold ParseInt. rewrite Hs, Hplus, Hminus, <- Hs.
    rewrite ParseUint_to_uint by (unfold maxUint64; lia).
    cbn [negb andb]. destruct (Z.geb_spec (Z.pos p) (2 ^ 63)); [lia | reflexivity].
  - rewrite FormatInt_neg. unfold ParseInt.
    change (Ascii.eqb "-"%char "+"%char) with false.
    change (Ascii.eqb "-"%char "-"%char) with true. cbv iota.
    rewrite ParseUint_to_uint by (unfold maxUint64; lia).
    cbn [negb andb]. destruct (Z.gtb_spec (Z.pos p) (2 ^ 63)); [lia | reflexivity].
Qed.

Lemma FormatInt_nonempty n : FormatInt n <> "".
Proof.
  destruct n as [|p|p]; [discriminate| |rewrite FormatInt_neg; discriminate].
  rewrite FormatInt_pos.
  destruct (string_of_uint_digit (Pos.to_uint p)) as (c & rest & Hs & _).
  { apply DecimalPos.Unsigned.to_uint_nonnil. }
  rewrite Hs. discriminate.
Qed.

Lemma noAmpersand_digits d : noAmpersand (NilEmpty.string_of_uint d) = true.
Proof. induction d; cbn [NilEmpty.string_of_uint noAmpersand]; auto. Qed.

Lemma noAmpersand_FormatInt n : noAmpersand (FormatInt n) = true.
Proof.
  destruct n as [|p|p]; [reflexivity| |].
  - rewrite FormatInt_pos. apply noAmpersand_digits.
  - rewrite FormatInt_neg. cbn [noAmpersand]. apply noAmpersand_digits.
Qed.

Lemma parseBytes_FormatInt r n :
  inInt64 n ->
  Values_Get (Query r) "bytes" = FormatInt n ->
  parseBytes r =
    if (n <? minBytes) || (n >? maxBytes) then inr BytesOutOfRange else inl n.
Proof.
  intros Hn Hq. unfold parseBytes. rewrite Hq.
  destruct (String.eqb_spec (FormatInt n) "") as [He|_].
  { destruct (FormatInt_nonempty n He). }
  rewrite (ParseInt_FormatInt n Hn). reflexivity.
Qed.

(** ** A sign and zeros in front of the count *)

Lemma ParseUint_loop s : s <> "" -> ParseUint s = parseUintLoop s 0.
Proof. destruct s; [congruence|reflexivity]. Qed.

Lemma parseUintLoop_zeros k s :
  parseUintLoop (zeros k ++ s) 0 = parseUintLoop s 0.
Proof.
  induction k as [|k IH]; [reflexivity|].
  change (zeros (S k) ++ s) with (String "0"%char (zeros k ++ s)).
  cbn [parseUintLoop]. change (digitOf "0"%char) with (Some 0).
  cbv iota beta. change (0 >=? maxUint64 / 10 + 1) with false.
  change (0 * 10 + 0 >? maxUint64) with false. cbv iota.
  change (0 * 10 + 0) with 0. exact IH.
Qed.

Lemma ParseUint_FormatInt n :
  0 <= n <= maxUint64 -> parseUintLoop (FormatInt n) 0 = inl n.
Proof.
  intros Hn. destruct n as [|p|p]; [reflexivity| |lia].
  rewrite FormatInt_pos, <- ParseUint_loop.
  - apply ParseUint_to_uint. lia.
  - destruct (string_of_uint_digit (Pos.to_uint p)) as (c & rest & -> & _);
      [apply DecimalPos.Unsigned.to_uint_nonnil | discriminate].
Qed.

Lemma ParseInt_unsigned s n :
  (forall c rest, s = String c rest ->
     Ascii.eqb c "+"%char = false /\ Ascii.eqb c "-"%char = false) ->
  s <> "" ->
  parseUintLoop s 0 = inl n ->
  n < 2 ^ 63 ->
  ParseInt s = inl n.
Proof.
  intros Hc Hs Hloop Hn. destruct s as [|c rest]; [congruence|].
  destruct (Hc c rest eq_refl) as [Hplus Hminus].
  unfold ParseInt. rewrite Hplus, Hminus.
  rewrite ParseUint_loop by discriminate. rewrite Hloop.
  cbn [negb andb]. destruct (Z.geb_spec n (2 ^ 63)); [lia|reflexivity].
Qed.

Lemma ParseInt_plus s n :
  s <> "" ->
  parseUintLoop s 0 = inl n ->
  n < 2 ^ 63 ->
  ParseInt (String "+"%char s) = inl n.
Proof.
  intros Hs Hloop Hn. unfold ParseInt.
  change (Ascii.eqb "+"%char "+"%char) with true. cbv iota.
  rewrite ParseUint_loop by exact Hs. rewrite Hloop.
  cbn [negb andb]. destruct (Z.geb_spec n (2 ^ 63)); [lia|reflexivity].
Qed.

Lemma zeros_FormatInt_shape k n :
  0 <= n ->
  zeros k ++ FormatInt n <> ""
  /\ forall c rest, zeros k ++ FormatInt n = String c rest ->
       Ascii.eqb c "+"%char = false /\ Ascii.eqb c "-"%char = false.
Proof.
  intros Hn. destruct k as [|k].
  - change (zeros 0 ++ FormatInt n) with (FormatInt n).
    destruct n as [|p|p]; [split; [discriminate|] | |lia].
    + intros c rest [= <- _]. split; reflexivity.
    + rewrite FormatInt_pos.
      destruct (string_of_uint_digit (Pos.to_uint p)) as (c & rest & -> & Hp & Hm);
        [apply DecimalPos.Unsigned.to_uint_nonnil|].
      split; [discriminate|]. intros c' rest' [= <- _]. split; assumption.
  - change (zeros (S k) ++ FormatInt n) with (String "0"%char (zeros k ++ FormatInt n)).
    split; [discriminate|]. intros c rest [= <- _]. split; reflexivity.
Qed.

(** [ParseInt] reads a count printed in decimal, also with zeros and a plus
    sign in front. *)
Lemma ParseInt_padded k n :
  0 <= n -> inInt64 n ->
  ParseInt (zeros k ++ FormatInt n) = inl n
  /\ ParseInt ("+" ++ zeros k ++ FormatInt n) = inl n.
Proof.
  intros Hn Hin. unfold inInt64, maxInt64 in Hin.
  destruct (zeros_FormatInt_shape k n Hn) as [Hne Hc].
  assert (Hloop : parseUintLoop (zeros k ++ FormatInt n) 0 = inl n).
  { rewrite parseUintLoop_zeros. apply ParseUint_FormatInt. unfold maxUint64. lia. }
  split.
  - apply ParseInt_unsigned; [exact Hc|exact Hne|exact Hloop|lia].
  - change ("+" ++ zeros k ++ FormatInt n)
      with (String "+"%char (zeros k ++ FormatInt n)).
    apply ParseInt_plus; [exact Hne|exact Hloop|lia].
Qed.

Lemma parseBytes_of_ParseInt r n :
  Values_Get (Query r) "bytes" <> "" ->
  ParseInt (Values_Get (Query r) "bytes") = inl n ->
  parseBytes r =
    if (n <? minBytes) || (n >? maxBytes) then inr BytesOutOfRange else inl n.
Proof.
  intros Hne Hp. unfold parseBytes.
  destruct (String.eqb_spec (Values_Get (Query r) "bytes") ""); [contradiction|].
  rewrite Hp. reflexivity.
Qed.

(** X1. [parseBytes] reads back a byte count printed in decimal, the way
    the client's [%d] prints it into the URL: whatever int64 [n] the [bytes]
    parameter spells, [parseBytes] returns [n] when it lies within
    [minBytes .. maxBytes], and the out-of-range error -- not a syntax
    error -- otherwise, negative counts included. *)
Theorem parseBytes_reads_printed_count r n :
  inInt64 n ->
  Values_Get (Query r) "bytes" = FormatInt n ->
  (minBytes <= n <= maxBytes -> parseBytes r = inl n)
  /\ (n < minBytes \/ maxBytes < n -> parseBytes r = inr BytesOutOfRange).
Proof.
  intros Hin Hq. rewrite (parseBytes_FormatInt r n Hin Hq). split; intros Hn.
  - destruct (Z.ltb_spec n minBytes); [lia|].
    destruct (Z.gtb_spec n maxBytes); [lia|]. reflexivity.
  - destruct (Z.ltb_spec n minBytes); [reflexivity|].
    destruct (Z.gtb_spec n maxBytes); [reflexivity|lia].
Qed.

Lemma parseBytes_reads_printed_count_witness :
  (minBytes <= -2000000 <= maxBytes
   -> parseBytes (sampleDownload "-2000000") = inl (-2000000))
  /\ (-2000000 < minBytes \/ maxBytes < -2000000
      -> parseBytes (sampleDownload "-2000000") = inr BytesOutOfRange).
Proof.
  apply (parseBytes_reads_printed_count (sampleDownload "-2000000") (-2000000)).
  - unfold inInt64, minInt64, maxInt64. lia.
  - reflexivity.
Defined.

Example padded_counts :
  parseBytes (sampleDownload "+002000000") = inl 2000000
  /\ parseBytes (sampleDownload "0000000000000000000002000000") = inl 2000000
  /\ parseBytes (sampleDownload "-2000000") = inr BytesOutOfRange
  /\ parseBytes (sampleDownload "2000000 ")
     = inr (InvalidBytes "2000000 " ErrSyntax)
  /\ parseBytes (sampleDownload "2e6") = inr (InvalidBytes "2e6" ErrSyntax)
  /\ parseBytes (sampleDownload "99999999999999999999")
     = inr (InvalidBytes "99999999999999999999" ErrRange).
Proof. repeat split; vm_compute; reflexivity. Qed.

(** ** The URLs the client builds, as the server reads them *)

Lemma scanQuery_value s : forall key val,
  noAmpersand s = true -> scanQuery s key val true = [(key, val ++ s)].
Proof.
  induction s as [|a s IH]; intros key val Hs; cbn [scanQuery].
  - f_equal. f_equal. clear. induction val as [|b val IHv]; [reflexivity|].
    change (String b val = String b (val ++ "")). f_equal. exact IHv.
  - cbn [noAmpersand] in Hs. apply andb_true_iff in Hs as [Ha Hs].
    apply negb_true_iff in Ha. rewrite Ha.
    rewrite andb_false_r. rewrite (IH key _ Hs). f_equal. f_equal.
    clear. induction val as [|b val IHv]; [reflexivity|].
    change (String b ((val ++ String a "") ++ s) = String b (val ++ String a s)).
    f_equal. exact IHv.
Qed.

Lemma parseURL_endpoint ep host digits :
  hostOnly host = true ->
  noAmpersand digits = true ->
  parseURL ("http://" ++ host ++ endpointPath ep ++ "?bytes=" ++ digits)
  = Some (host, endpointPath ep, [("bytes", digits)]).
Proof.
  intros Hhost Hdigits. unfold parseURL.
  destruct ep.
  - change (stripPrefix "http://" ("http://" ++ host ++ endpointPath Down ++ "?bytes=" ++ digits))
      with (Some (host ++ String "/"%char ("__down?bytes=" ++ digits))).
    cbv iota beta. rewrite (cut_host host _ Hhost).
    change (cut "?"%char ("__down?bytes=" ++ digits))
      with ("__down", Some ("bytes=" ++ digits)).
    cbv iota beta.
    change (scanQuery ("bytes=" ++ digits) "" "" false)
      with (scanQuery digits "bytes" "" true).
    rewrite (scanQuery_value digits _ _ Hdigits). reflexivity.
  - change (stripPrefix "http://" ("http://" ++ host ++ endpointPath Up ++ "?bytes=" ++ digits))
      with (Some (host ++ String "/"%char ("__up?bytes=" ++ digits))).
    cbv iota beta. rewrite (cut_host host _ Hhost).
    change (cut "?"%char ("__up?bytes=" ++ digits))
      with ("__up", Some ("bytes=" ++ digits)).
    cbv iota beta.
    change (scanQuery ("bytes=" ++ digits) "" "" false)
      with (scanQuery digits "bytes" "" true).
    rewrite (scanQuery_value digits _ _ Hdigits). reflexivity.
Qed.

Lemma downloadURL_parsed config :
  hostOnly (Server config) = true ->
  parseURL (downloadURL config)
  = Some (Server config, "/__down", [("bytes", FormatInt (declaredBytes config))]).
Proof.
  intros Hhost.
  exact (parseURL_endpoint Down (Server config) _ Hhost (noAmpersand_FormatInt _)).
Qed.

Lemma uploadURL_parsed config :
  hostOnly (Server config) = true ->
  parseURL (uploadURL config)
  = Some (Server config, "/__up", [("bytes", FormatInt (declaredBytes config))]).
Proof.
  intros Hhost.
  exact (parseURL_endpoint Up (Server config) _ Hhost (noAmpersand_FormatInt _)).
Qed.

(** ** One exchange with the repository's own server *)

Lemma accepts_nil n : accepts n [] = true.
Proof. unfold accepts. rewrite take_nil. reflexivity. Qed.

Lemma bodyBytes_chunks w n :
  0 <= n -> body w = map Zeros (chunks n) -> bodyBytes w = n.
Proof.
  intros Hn Hb. unfold bodyBytes. rewrite Hb, payloadLen_Zeros.
  apply chunks_sum, Hn.
Qed.

Lemma loopbackDo_download host url n bodyLen ct (w : Loopback) :
  parseURL url = Some (host, "/__down", [("bytes", FormatInt n)]) ->
  minBytes <= n <= maxBytes ->
  loopbackDo w (mkOutRequest MethodGet url bodyLen ct)
  = (mkLoopback (left (recordDownload (entered (srv w)) n (wall w)))
       (wall w + latency w) (latency w),
     Some (mkResponse StatusOK (mkBody n false))).
Proof.
  intros Hurl Hn. unfold loopbackDo. cbn [outURL outMethod outBodyLen].
  rewrite Hurl. change (route "/__down") with (Some Down). cbv iota beta.
  cbn [endpointHandler].
  set (r := mkRequest MethodGet "/__down" [("bytes", FormatInt n)]
              "127.0.0.1:40000" (mkBody bodyLen false)).
  assert (Hp : parseBytes r = inl n).
  { rewrite (parseBytes_FormatInt r n); [|unfold inInt64, minInt64, maxInt64, minBytes, maxBytes in *; lia|reflexivity].
    destruct (Z.ltb_spec n minBytes); [lia|].
    destruct (Z.gtb_spec n maxBytes); [lia|]. reflexivity. }
  destruct (downloadHandler_complete (wall w) (srv w) [] r n eq_refl Hp
              (accepts_nil _)) as (h' & Hrun & Hst & _ & Hstatus & Hbody & _).
  rewrite Hrun, Hst, Hstatus.
  rewrite (bodyBytes_chunks (rw h') n); [reflexivity|unfold minBytes in Hn; lia|exact Hbody].
Qed.

Lemma loopbackDo_upload host url n ct (w : Loopback) :
  parseURL url = Some (host, "/__up", [("bytes", FormatInt n)]) ->
  minBytes <= n <= maxBytes ->
  loopbackDo w (mkOutRequest MethodPost url n ct)
  = (mkLoopback (left (recordUpload (entered (srv w)) n (wall w)))
       (wall w + latency w) (latency w),
     Some (mkResponse StatusOK
             (mkBody (Z.of_nat (String.length (uploadReply n))) false))).
Proof.
  intros Hurl Hn. unfold loopbackDo. cbn [outURL outMethod outBodyLen].
  rewrite Hurl. change (route "/__up") with (Some Up). cbv iota beta.
  cbn [endpointHandler].
  set (r := mkRequest MethodPost "/__up" [("bytes", FormatInt n)]
              "127.0.0.1:40000" (mkBody n false)).
  assert (Hp : parseBytes r = inl n).
  { rewrite (parseBytes_FormatInt r n); [|unfold inInt64, minInt64, maxInt64, minBytes, maxBytes in *; lia|reflexivity].
    destruct (Z.ltb_spec n minBytes); [lia|].
    destruct (Z.gtb_spec n maxBytes); [lia|]. reflexivity. }
  destruct (uploadHandler_complete (wall w) (srv w) [] r n eq_refl Hp eq_refl)
    as (h' & Hrun & Hst & _ & Hstatus & Hbody & _).
  cbn [ReqBody bodyLen r] in Hrun, Hst, Hbody.
  rewrite Hrun, Hst, Hstatus. unfold bodyBytes. rewrite Hbody.
  cbn [nextWrite hd map payloadLen sumZ fold_right]. rewrite Z.add_0_r.
  reflexivity.
Qed.

(** A count outside the limits, asked of either endpoint with its method. *)
Lemma loopbackDo_out_of_range ep host url n bodyLen ct (w : Loopback) :
  parseURL url = Some (host, endpointPath ep, [("bytes", FormatInt n)]) ->
  inInt64 n ->
  n < minBytes \/ maxBytes < n ->
  loopbackDo w (mkOutRequest (endpointMethod ep) url bodyLen ct)
  = (mkLoopback (srv w) (wall w + latency w) (latency w),
     Some (mkResponse StatusBadRequest
             (mkBody (Z.of_nat (String.length
                                  (ParseError_Error BytesOutOfRange ++ newline)))
                false))).
Proof.
  intros Hurl Hin Hn. unfold loopbackDo. cbn [outURL outMethod outBodyLen].
  rewrite Hurl.
  assert (Hroute : route (endpointPath ep) = Some ep) by (destruct ep; reflexivity).
  rewrite Hroute.
  rewrite (endpointHandler_bad_bytes ep (wall w) _ _ BytesOutOfRange);
    [|reflexivity|].
  2:{ rewrite (parseBytes_FormatInt _ n Hin); [|reflexivity].
      destruct (Z.ltb_spec n minBytes); [reflexivity|].
      destruct (Z.gtb_spec n maxBytes); [reflexivity|lia]. }
  destruct (http_Error_fresh (srv w) [] (ParseError_Error BytesOutOfRange)
              StatusBadRequest) as (Hst & Hstatus & Hbody & _).
  cbv zeta in Hst, Hstatus, Hbody. unfold bodyBytes.
  rewrite Hst, Hstatus, Hbody. reflexivity.
Qed.

(** ** One test against the repository's own server *)

Lemma declaredBytes_exact config :
  1 <= Size config <= 9223372036854 ->
  declaredBytes config = Size config * 1000000.
Proof.
  intros Hs. unfold declaredBytes, mul64. apply wrap64_id.
  unfold inInt64, minInt64, maxInt64. lia.
Qed.

Lemma runDownloadTest_loopback_ok config (w : Loopback) :
  2 <= Size config <= 10737 ->
  hostOnly (Server config) = true ->
  latency w <> 0 ->
  runDownloadTest config w
  = (mkLoopback (left (recordDownload (entered (srv w))
                         (Size config * 1000000) (wall w)))
       (wall w + 2 * latency w) (latency w),
     Measured (throughputMbps (Size config * 1000000) (2 * latency w))
       (2 * latency w)).
Proof.
  intros Hsize Hhost Hlat.
  pose proof (declaredBytes_exact config ltac:(lia)) as Hd.
  pose proof (downloadURL_parsed config Hhost) as Hurl. rewrite Hd in Hurl.
  unfold runDownloadTest, http_NewRequest. cbv zeta.
  cbn [urlParses Do Now Drain loopbackEnv]. rewrite Hurl. cbv iota beta.
  rewrite (loopbackDo_download (Server config) _ (Size config * 1000000) 0 None w Hurl)
    by (unfold minBytes, maxBytes; lia).
  cbn [StatusCode RespBody bodyErr bodyLen srv wall latency].
  change (negb (StatusOK =? StatusOK)) with false. cbv iota.
  replace (wall w + latency w + latency w - wall w) with (2 * latency w) by lia.
  replace (wall w + latency w + latency w) with (wall w + 2 * latency w) by lia.
  destruct (Z.eqb_spec (2 * latency w) 0); [lia|]. reflexivity.
Qed.

Lemma runUploadTest_loopback_ok config (w : Loopback) :
  2 <= Size config <= 10737 ->
  hostOnly (Server config) = true ->
  latency w <> 0 ->
  runUploadTest config w
  = (mkLoopback (left (recordUpload (entered (srv w))
                         (Size config * 1000000) (wall w)))
       (wall w + 2 * latency w) (latency w),
     Measured (throughputMbps (Size config * 1000000) (2 * latency w))
       (2 * latency w)).
Proof.
  intros Hsize Hhost Hlat.
  pose proof (declaredBytes_exact config ltac:(lia)) as Hd.
  pose proof (uploadURL_parsed config Hhost) as Hurl. rewrite Hd in Hurl.
  unfold runUploadTest, http_NewRequest, Header_SetContentType. cbv zeta.
  cbn [urlParses Do Now Drain loopbackEnv]. rewrite Hd, Hurl.
  destruct (Z.ltb_spec (Size config * 1000000) 0); [lia|]. cbv iota beta.
  cbn [outMethod outURL outBodyLen].
  rewrite (loopbackDo_upload (Server config) _ (Size config * 1000000) _ w Hurl)
    by (unfold minBytes, maxBytes; lia).
  cbn [StatusCode RespBody bodyErr bodyLen srv wall latency].
  change (negb (StatusOK =? StatusOK)) with false. cbv iota.
  replace (wall w + latency w + latency w - wall w) with (2 * latency w) by lia.
  replace (wall w + latency w + latency w) with (wall w + 2 * latency w) by lia.
  destruct (Z.eqb_spec (2 * latency w) 0); [lia|]. reflexivity.
Qed.

Lemma runDownloadTest_loopback_rejected config (w : Loopback) :
  Size config = 1 \/ 10738 <= Size config <= 9223372036854 ->
  hostOnly (Server config) = true ->
  runDownloadTest config w
  = (mkLoopback (srv w) (wall w + latency w) (latency w),
     Failed (BadStatus StatusBadRequest)).
Proof.
  intros Hsize Hhost.
  pose proof (declaredBytes_exact config ltac:(lia)) as Hd.
  pose proof (downloadURL_parsed config Hhost) as Hurl. rewrite Hd in Hurl.
  unfold runDownloadTest, http_NewRequest. cbv zeta.
  cbn [urlParses Do Now Drain loopbackEnv]. rewrite Hurl. cbv iota beta.
  pose proof (loopbackDo_out_of_range Down (Server config) _
                (Size config * 1000000) 0 None w Hurl) as Hdo.
  cbn [endpointMethod] in Hdo. rewrite Hdo; [reflexivity| |];
    unfold inInt64, minInt64, maxInt64, minBytes, maxBytes; lia.
Qed.

Lemma runUploadTest_loopback_rejected config (w : Loopback) :
  Size config = 1 \/ 10738 <= Size config <= 9223372036854 ->
  hostOnly (Server config) = true ->
  runUploadTest config w
  = (mkLoopback (srv w) (wall w + latency w) (latency w),
     Failed (BadStatus StatusBadRequest)).
Proof.
  intros Hsize Hhost.
  pose proof (declaredBytes_exact config ltac:(lia)) as Hd.
  pose proof (uploadURL_parsed config Hhost) as Hurl. rewrite Hd in Hurl.
  unfold runUploadTest, http_NewRequest, Header_SetContentType. cbv zeta.
  cbn [urlParses Do Now Drain loopbackEnv]. rewrite Hd, Hurl.
  destruct (Z.ltb_spec (Size config * 1000000) 0); [lia|]. cbv iota beta.
  cbn [outMethod outURL outBodyLen].
  pose proof (loopbackDo_out_of_range Up (Server config) _
                (Size config * 1000000) (Size config * 1000000)
                (Some "application/octet-stream") w Hurl) as Hdo.
  cbn [endpointMethod] in Hdo. rewrite Hdo; [reflexivity| |];
    unfold inInt64, minInt64, maxInt64, minBytes, maxBytes; lia.
Qed.



Example size_window_edges :
  snd (runDownloadTest (sampleConfig directionDown 1 10738)
         (mkLoopback zeroStats 100 5000000))
  = Failed (BadStatus 400)
  /\ snd (runUploadTest (sampleConfig directionUp 1 2)
            (mkLoopback zeroStats 100 5000000))
     = Measured 1600 10000000.
Proof. split; vm_compute; reflexivity. Qed.

(** ** Which texts [parseBytes] accepts *)

Lemma digitOf_char c v :
  digitOf c = Some v ->
  exists d1 : Decimal.uint -> Decimal.uint,
    (forall d, NilEmpty.string_of_uint (d1 d) = String c (NilEmpty.string_of_uint d))
    /\ (forall d acc, uintValue (d1 d) acc = uintValue d (10 * acc + v))
    /\ ((v = 0 /\ d1 = Decimal.D0)
        \/ (0 < v /\ forall d, Decimal.unorm (d1 d) = d1 d)).
Proof.
  destruct c as [[] [] [] [] [] [] [] []]; intros Hc; vm_compute in Hc;
    try discriminate Hc; injection Hc as <-;
    first
      [ solve [exists Decimal.D0; split; [reflexivity|];
               split; [intros; cbn [uintValue]; f_equal; lia|left; split; reflexivity]]
      | solve [exists Decimal.D1; split; [reflexivity|];
               split; [reflexivity|right; split; [lia|reflexivity]]]
      | solve [exists Decimal.D2; split; [reflexivity|];
               split; [reflexivity|right; split; [lia|reflexivity]]]
      | solve [exists Decimal.D3; split; [reflexivity|];
               split; [reflexivity|right; split; [lia|reflexivity]]]
      | solve [exists Decimal.D4; split; [reflexivity|];
               split; [reflexivity|right; split; [lia|reflexivity]]]
      | solve [exists Decimal.D5; split; [reflexivity|];
               split; [reflexivity|right; split; [lia|reflexivity]]]
      | solve [exists Decimal.D6; split; [reflexivity|];
               split; [reflexivity|right; split; [lia|reflexivity]]]
      | solve [exists Decimal.D7; split; [reflexivity|];
               split; [reflexivity|right; split; [lia|reflexivity]]]
      | solve [exists Decimal.D8; split; [reflexivity|];
               split; [reflexivity|right; split; [lia|reflexivity]]]
      | solve [exists Decimal.D9; split; [reflexivity|];
               split; [reflexivity|right; split; [lia|reflexivity]]] ].
Qed.

Lemma parseUintLoop_inl s : forall acc n,
  parseUintLoop s acc = inl n ->
  exists d, NilEmpty.string_of_uint d = s /\ n = uintValue d acc.
Proof.
  induction s as [|c rest IH]; intros acc n Hloop; cbn [parseUintLoop] in Hloop.
  - injection Hloop as <-. exists Decimal.Nil. split; reflexivity.
  - destruct (digitOf c) as [v|] eqn:Hc; [|discriminate].
    destruct (acc >=? maxUint64 / 10 + 1); [discriminate|].
    cbv zeta in Hloop.
    destruct (acc * 10 + v >? maxUint64); [discriminate|].
    destruct (IH _ _ Hloop) as (d & Hd & Hn).
    destruct (digitOf_char c v Hc) as (d1 & Hs & Hv & _).
    exists (d1 d). split.
    + rewrite Hs, Hd. reflexivity.
    + rewrite Hv, Hn. f_equal. lia.
Qed.

Lemma FormatInt_unorm d :
  Decimal.unorm d = d ->
  d <> Decimal.D0 Decimal.Nil ->
  FormatInt (uintValue d 0) = NilEmpty.string_of_uint d.
Proof.
  intros Hu Hd. rewrite uintValue_of_uint.
  pose proof (DecimalPos.Unsigned.to_of d) as Hto. rewrite Hu in Hto.
  destruct (Pos.of_uint d) as [|p].
  - cbn in Hto. congruence.
  - change (Z.of_N (N.pos p)) with (Z.pos p). rewrite FormatInt_pos.
    change (N.to_uint (N.pos p)) with (Pos.to_uint p) in Hto. rewrite Hto.
    reflexivity.
Qed.

(** A digit string is zeros followed by the decimal text of its value. *)
Lemma string_of_uint_canonical s : forall d,
  NilEmpty.string_of_uint d = s ->
  s <> "" ->
  exists k, s = zeros k ++ FormatInt (uintValue d 0).
Proof.
  induction s as [|c rest IH]; intros d Hs Hne; [congruence|].
  destruct d; cbn [NilEmpty.string_of_uint] in Hs; try discriminate;
    injection Hs as <- Hrest;
    try (exists O; change (zeros 0 ++ ?x) with x;
         rewrite FormatInt_unorm; [cbn [NilEmpty.string_of_uint]; congruence
                                  |reflexivity|discriminate]).
  destruct rest as [|c' rest'].
  - destruct d; try discriminate. exists O. reflexivity.
  - destruct (IH d Hrest ltac:(discriminate)) as (k & Hk).
    exists (S k). cbn [uintValue]. change (10 * 0) with 0.
    change (zeros (S k) ++ ?x) with (String "0"%char (zeros k ++ x)).
    rewrite <- Hk. reflexivity.
Qed.

Lemma ParseUint_inl s n :
  ParseUint s = inl n ->
  0 <= n /\ exists k, s = zeros k ++ FormatInt n.
Proof.
  intros Hp. destruct s as [|c rest]; [discriminate|].
  rewrite ParseUint_loop in Hp by discriminate.
  destruct (parseUintLoop_inl _ _ _ Hp) as (d & Hd & ->).
  split; [apply uintValue_mono; lia|].
  apply (string_of_uint_canonical _ d Hd). discriminate.
Qed.

Lemma ParseInt_inl_positive s n :
  ParseInt s = inl n ->
  0 < n ->
  exists k, s = zeros k ++ FormatInt n \/ s = "+" ++ zeros k ++ FormatInt n.
Proof.
  intros Hp Hn. destruct s as [|c rest]; [discriminate|].
  unfold ParseInt in Hp.
  destruct (Ascii.eqb_spec c "+"%char) as [->|Hplus].
  - destruct (ParseUint rest) as [un|[]] eqn:Hu; try discriminate.
    cbn [negb andb] in Hp. destruct (un >=? 2 ^ 63); [discriminate|].
    injection Hp as <-.
    destruct (ParseUint_inl _ _ Hu) as (_ & k & ->). exists k. right. reflexivity.
  - destruct (Ascii.eqb_spec c "-"%char) as [->|Hminus].
    + destruct (ParseUint rest) as [un|[]] eqn:Hu; try discriminate.
      cbn [negb andb] in Hp. destruct (un >? 2 ^ 63); [discriminate|].
      injection Hp as <-.
      destruct (ParseUint_inl _ _ Hu) as (Hun & _). lia.
    + destruct (ParseUint (String c rest)) as [un|[]] eqn:Hu; try discriminate.
      cbn [negb andb] in Hp. destruct (un >=? 2 ^ 63); [discriminate|].
      injection Hp as <-.
      destruct (ParseUint_inl _ _ Hu) as (_ & k & Hk). exists k. left. exact Hk.
Qed.

(** X3. The texts [parseBytes] accepts, exactly. It returns [n] if and only
    if [n] lies within [minBytes .. maxBytes] and the [bytes] parameter is
    the decimal text of [n], with any number of zeros in front and at most a
    plus sign before them: no spaces, no other base, no digit separators, no
    exponent, no fraction, no unit. *)
Theorem parseBytes_accepts_exactly r n :
  parseBytes r = inl n <->
  minBytes <= n <= maxBytes
  /\ exists k,
       Values_Get (Query r) "bytes" = zeros k ++ FormatInt n
       \/ Values_Get (Query r) "bytes" = "+" ++ zeros k ++ FormatInt n.
Proof.
  split.
  - intros Hp. apply parseBytes_inl in Hp as [Hparse Hrange].
    split; [exact Hrange|].
    apply ParseInt_inl_positive; [exact Hparse|]. unfold minBytes in Hrange. lia.
  - intros (Hrange & k & Hq).
    assert (Hn : 0 <= n) by (unfold minBytes in Hrange; lia).
    assert (Hin : inInt64 n)
      by (unfold inInt64, minInt64, maxInt64, minBytes, maxBytes in *; lia).
    destruct (ParseInt_padded k n Hn Hin) as [Hplain Hplus].
    rewrite (parseBytes_of_ParseInt r n).
    + destruct (Z.ltb_spec n minBytes); [lia|].
      destruct (Z.gtb_spec n maxBytes); [lia|]. reflexivity.
    + destruct Hq as [-> | ->]; [apply (zeros_FormatInt_shape k n Hn)|discriminate].
    + destruct Hq as [-> | ->]; assumption.
Qed.

Example accepted_and_refused :
  parseBytes (sampleDownload "+0002000000") = inl 2000000
  /\ parseBytes (sampleDownload " 2000000")
     = inr (InvalidBytes " 2000000" ErrSyntax)
  /\ parseBytes (sampleDownload "0x200000")
     = inr (InvalidBytes "0x200000" ErrSyntax)
  /\ parseBytes (sampleDownload "2_000_000")
     = inr (InvalidBytes "2_000_000" ErrSyntax)
  /\ parseBytes (sampleDownload "2000000.0")
     = inr (InvalidBytes "2000000.0" ErrSyntax)
  /\ parseBytes (sampleDownload "2MB") = inr (InvalidBytes "2MB" ErrSyntax)
  /\ parseBytes (sampleDownload "++2000000")
     = inr (InvalidBytes "++2000000" ErrSyntax).
Proof. repeat split; vm_compute; reflexivity. Qed.

(** ** A server at work *)

Section Serving.

Variable rfc3339 : Time -> string.

Lemma hWrite_st h p : st (fst (hWrite h p)) = st h.
Proof. rewrite hWrite_spec. reflexivity. Qed.

Lemma http_Error_st h msg code : st (http_Error h msg code) = st h.
Proof. unfold http_Error. rewrite hWrite_st. reflexivity. Qed.

Lemma serve_effect s a :
  exists h',
    serve rfc3339 s a = Some h'
    /\ st h' = applyEffect (effectOf a) (arrivedAt a) s
    /\ records (trace h') =
         match effectOf a with
         | DownloadCounted _ | UploadCounted _ => 1%nat
         | _ => O
         end.
Proof.
  unfold serve, effectOf.
  destruct (mux (Path (request a))) as [[| | |]|]; cbn [handlerOf applyEffect].
  - (* download *)
    destruct (String.eqb_spec (Method (request a)) MethodGet) as [Hm|Hm].
    + destruct (parseBytes (request a)) as [n|e] eqn:Hp.
      * destruct (accepts_cases (length (chunks n)) (connection a))
          as [Hacc|(j & rest & Hj & Hc)].
        -- rewrite Hacc.
           destruct (downloadHandler_complete (arrivedAt a) s (connection a)
                       (request a) n Hm Hp Hacc)
             as (h' & Hrun & Hst & _ & _ & _ & Htr).
           exists h'. repeat split; [exact Hrun|exact Hst|].
           rewrite Htr, !records_app, records_enterEvents, records_writeOk.
           reflexivity.
        -- rewrite Hc, (accepts_failure _ j rest Hj).
           destruct (downloadHandler_broken (arrivedAt a) s _ (request a) n j rest
                       Hm Hp eq_refl Hj)
             as (h' & cj & _ & Hrun & Hst & _ & _ & Htr).
           rewrite <- Hc. rewrite <- Hc in Hrun.
           exists h'. repeat split; [exact Hrun|exact Hst|].
           rewrite Htr, !records_app, records_enterEvents, records_writeOk.
           reflexivity.
      * pose proof (endpointHandler_bad_bytes Down (arrivedAt a)
                      (initState s (connection a)) (request a) e Hm Hp) as Hrun.
        cbn [endpointHandler] in Hrun. rewrite Hrun.
        eexists. repeat split.
        -- apply http_Error_st.
        -- destruct (http_Error_fresh s (connection a) (ParseError_Error e)
                       StatusBadRequest) as (_ & _ & _ & Htr).
           cbv zeta in Htr. rewrite Htr. reflexivity.
    + pose proof (endpointHandler_wrong_method Down (arrivedAt a)
                    (initState s (connection a)) (request a) Hm) as Hrun.
      cbn [endpointHandler] in Hrun. rewrite Hrun.
      eexists. repeat split.
      * apply http_Error_st.
      * destruct (http_Error_fresh s (connection a) "method not allowed"
                    StatusMethodNotAllowed) as (_ & _ & _ & Htr).
        cbv zeta in Htr. rewrite Htr. reflexivity.
  - (* upload *)
    destruct (String.eqb_spec (Method (request a)) MethodPost) as [Hm|Hm].
    + destruct (parseBytes (request a)) as [n|e] eqn:Hp.
      * destruct (bodyErr (ReqBody (request a))) eqn:Herr.
        -- destruct (uploadHandler_broken (arrivedAt a) s (connection a)
                       (request a) n Hm Hp Herr)
             as (h' & Hrun & Hst & _ & Htr).
           exists h'. repeat split; [exact Hrun|exact Hst|].
           rewrite Htr, !records_app, records_enterEvents. reflexivity.
        -- destruct (uploadHandler_complete (arrivedAt a) s (connection a)
                       (request a) n Hm Hp Herr)
             as (h' & Hrun & Hst & _ & _ & _ & Htr).
           exists h'. repeat split; [exact Hrun|exact Hst|].
           rewrite Htr, !records_app, records_enterEvents, records_mismatchEvents.
           reflexivity.
      * pose proof (endpointHandler_bad_bytes Up (arrivedAt a)
                      (initState s (connection a)) (request a) e Hm Hp) as Hrun.
        cbn [endpointHandler] in Hrun. rewrite Hrun.
        eexists. repeat split.
        -- apply http_Error_st.
        -- destruct (http_Error_fresh s (connection a) (ParseError_Error e)
                       StatusBadRequest) as (_ & _ & _ & Htr).
           cbv zeta in Htr. rewrite Htr. reflexivity.
    + pose proof (endpointHandler_wrong_method Up (arrivedAt a)
                    (initState s (connection a)) (request a) Hm) as Hrun.
      cbn [endpointHandler] in Hrun. rewrite Hrun.
      eexists. repeat split.
      * apply http_Error_st.
      * destruct (http_Error_fresh s (connection a) "method not allowed"
                    StatusMethodNotAllowed) as (_ & _ & _ & Htr).
        cbv zeta in Htr. rewrite Htr. reflexivity.
  - (* stats *)
    unfold statsHandler.
    destruct (negb (String.eqb (Method (request a)) MethodGet)).
    + eexists. repeat split.
      * apply http_Error_st.
      * destruct (http_Error_fresh s (connection a) "method not allowed"
                    StatusMethodNotAllowed) as (_ & _ & _ & Htr).
        cbv zeta in Htr. rewrite Htr. reflexivity.
    + eexists. repeat split.
      * rewrite hWrite_st. reflexivity.
      * rewrite hWrite_spec. reflexivity.
  - (* health *)
    unfold healthHandler. eexists. repeat split.
    + rewrite hWrite_st. reflexivity.
    + rewrite hWrite_spec. reflexivity.
  - eexists. repeat split.
Qed.

End Serving.

Lemma applyEffect_connections e now s :
  totalConnections s = totalUploads s ->
  totalConnections (applyEffect e now s) = totalUploads (applyEffect e now s).
Proof.
  intros Heq. destruct e as [| |n|m]; cbn [applyEffect].
  - exact Heq.
  - destruct (left_entered_fields s) as (_ & Hu & _ & _ & Hc & _). congruence.
  - destruct (left_download_fields s n now) as (_ & _ & _ & Hu & _ & Hc). congruence.
  - destruct (left_upload_fields s m now) as (Hu & _ & Hc & _). congruence.
Qed.

Lemma startTime_applyEffect e now s :
  startTime (applyEffect e now s) = startTime s.
Proof. destruct e; cbn [applyEffect]; stats_cases; reflexivity. Qed.

Lemma currentConcurrent_applyEffect e now s :
  inInt64 (currentConcurrent s) ->
  currentConcurrent (applyEffect e now s) = currentConcurrent s.
Proof.
  intros Hc. destruct e as [| |n|m]; cbn [applyEffect]; [reflexivity| | |].
  - apply currentConcurrent_round_trip, Hc.
  - rewrite currentConcurrent_left.
    rewrite (proj1 (currentConcurrent_record _ _ _)).
    rewrite currentConcurrent_entered. apply add64_inc_dec, Hc.
  - rewrite currentConcurrent_left.
    rewrite (proj2 (currentConcurrent_record _ _ _)).
    rewrite currentConcurrent_entered. apply add64_inc_dec, Hc.
Qed.

Lemma peakConcurrent_entered s :
  peakConcurrent (entered s)
  = Z.max (peakConcurrent s) (add64 (currentConcurrent s) 1).
Proof.
  unfold entered, set_currentConcurrent, set_peakConcurrent.
  cbn [peakConcurrent currentConcurrent].
  destruct (Z.gtb_spec (add64 (currentConcurrent s) 1) (peakConcurrent s));
    cbn [peakConcurrent]; lia.
Qed.

Lemma peakConcurrent_applyEffect e now s :
  peakConcurrent (applyEffect e now s)
  = match e with
    | Untouched => peakConcurrent s
    | _ => Z.max (peakConcurrent s) (add64 (currentConcurrent s) 1)
    end.
Proof.
  destruct e; cbn [applyEffect]; [reflexivity| | |];
    rewrite <- peakConcurrent_entered; reflexivity.
Qed.

Section ServingAll.

Variable rfc3339 : Time -> string.

Lemma serveAll_effects arrivals : forall s,
  serveAll rfc3339 s arrivals
  = Some (fold_left (fun s a => applyEffect (effectOf a) (arrivedAt a) s)
            arrivals s).
Proof.
  induction arrivals as [|a rest IH]; intros s; cbn [serveAll fold_left].
  - reflexivity.
  - destruct (serve_effect rfc3339 s a) as (h' & Hrun & Hst & _).
    rewrite Hrun, Hst. apply IH.
Qed.

Lemma serveAll_invariant (P : ServerStats -> Prop) arrivals :
  (forall s a, P s -> P (applyEffect (effectOf a) (arrivedAt a) s)) ->
  forall s, P s ->
  exists s', serveAll rfc3339 s arrivals = Some s' /\ P s'.
Proof.
  intros Hstep s Hs. rewrite serveAll_effects. eexists. split; [reflexivity|].
  revert s Hs. induction arrivals as [|a rest IH]; intros s Hs; cbn [fold_left].
  - exact Hs.
  - apply IH, Hstep, Hs.
Qed.

End ServingAll.



(** X5. What no request changes. Across any sequence of requests served one
    after the other, [startTime] stays as it was, [currentConcurrent] is back
    at its value after every request (no wrap-around assumed at the start),
    and [peakConcurrent] never goes down and never passes the larger of its
    old value and [currentConcurrent + 1]: on a server at rest, one request
    at a time, the peak ends at 1 at most. *)
Theorem serving_keeps_clock_counter_and_peak rfc3339 s arrivals :
  inInt64 (currentConcurrent s) ->
  exists s',
    serveAll rfc3339 s arrivals = Some s'
    /\ startTime s' = startTime s
    /\ currentConcurrent s' = currentConcurrent s
    /\ peakConcurrent s <= peakConcurrent s'
    /\ peakConcurrent s'
       <= Z.max (peakConcurrent s) (add64 (currentConcurrent s) 1).
Proof.
  intros Hc.
  apply (serveAll_invariant rfc3339
           (fun s' => startTime s' = startTime s
                      /\ currentConcurrent s' = currentConcurrent s
                      /\ peakConcurrent s <= peakConcurrent s'
                      /\ peakConcurrent s'
                         <= Z.max (peakConcurrent s)
                              (add64 (currentConcurrent s) 1))).
  - intros s0 a (Hs & Hcur & Hlo & Hhi).
    rewrite startTime_applyEffect, currentConcurrent_applyEffect by (rewrite Hcur; exact Hc).
    rewrite peakConcurrent_applyEffect, Hcur.
    repeat split; try assumption; destruct (effectOf a); lia.
  - repeat split; lia.
Qed.

Lemma serving_keeps_clock_counter_and_peak_witness :
  exists s',
    serveAll (fun _ => "2026-01-01T00:00:00Z") zeroStats
      [mkArrival 5 [true; false] (sampleDownload "2621440");
       mkArrival 9 [] (sampleUpload "3000000" 3000000 false)] = Some s'
    /\ startTime s' = startTime zeroStats
    /\ currentConcurrent s' = currentConcurrent zeroStats
    /\ peakConcurrent zeroStats <= peakConcurrent s'
    /\ peakConcurrent s'
       <= Z.max (peakConcurrent zeroStats)
            (add64 (currentConcurrent zeroStats) 1).
Proof.
  apply (serving_keeps_clock_counter_and_peak (fun _ => "2026-01-01T00:00:00Z")
           zeroStats).
  unfold inInt64, minInt64, maxInt64. cbn. lia.
Defined.

Lemma wrap64_add_l x y : wrap64 (wrap64 x + y) = wrap64 (x + y).
Proof.
  unfold wrap64.
  replace ((x + 2 ^ 63) mod 2 ^ 64 - 2 ^ 63 + y + 2 ^ 63)
    with ((x + 2 ^ 63) mod 2 ^ 64 + y) by lia.
  rewrite Zplus_mod_idemp_l. f_equal. f_equal. lia.
Qed.

Lemma applyEffect_totals e now s :
  totalDownloads (applyEffect e now s)
  = match e with DownloadCounted _ => add64 (totalDownloads s) 1
                | _ => totalDownloads s end
  /\ totalBytesDown (applyEffect e now s)
     = match e with DownloadCounted n => add64 (totalBytesDown s) n
                   | _ => totalBytesDown s end
  /\ totalUploads (applyEffect e now s)
     = match e with UploadCounted _ => add64 (totalUploads s) 1
                   | _ => totalUploads s end
  /\ totalBytesUp (applyEffect e now s)
     = match e with UploadCounted m => add64 (totalBytesUp s) m
                   | _ => totalBytesUp s end
  /\ lastRequestTime (applyEffect e now s)
     = match e with DownloadCounted _ | UploadCounted _ => now
                   | _ => lastRequestTime s end.
Proof.
  destruct e as [| |n|m]; cbn [applyEffect].
  - repeat split.
  - destruct (left_entered_fields s) as (? & ? & ? & ? & ? & ? & ?). repeat split; assumption.
  - destruct (left_download_fields s n now) as (? & ? & ? & ? & ? & ?). repeat split; assumption.
  - destruct (left_upload_fields s m now) as (? & ? & ? & ? & ? & ?). repeat split; assumption.
Qed.

Lemma sumZ_snoc l x : sumZ (l ++ [x]) = sumZ l + x.
Proof. rewrite sumZ_app. cbn [sumZ fold_right]. lia. Qed.

(** X6. The totals count the completed transfers, and only those. After any
    sequence of requests served one after the other, [totalDownloads] has
    grown by the number of downloads that were accepted and streamed to the
    end, [totalBytesDown] by the sum of their sizes, [totalUploads] by the
    number of uploads that were accepted and read to the end, [totalBytesUp]
    by the bytes received; rejected requests, broken transfers, /__stats and
    /health add nothing. The sums are int64 sums. *)
Theorem serving_counts_completed_transfers rfc3339 s arrivals :
  inInt64 (totalDownloads s) -> inInt64 (totalBytesDown s) ->
  inInt64 (totalUploads s) -> inInt64 (totalBytesUp s) ->
  exists s',
    serveAll rfc3339 s arrivals = Some s'
    /\ totalDownloads s'
       = wrap64 (totalDownloads s + Z.of_nat (length (downloadsCounted arrivals)))
    /\ totalBytesDown s'
       = wrap64 (totalBytesDown s + sumZ (downloadsCounted arrivals))
    /\ totalUploads s'
       = wrap64 (totalUploads s + Z.of_nat (length (uploadsCounted arrivals)))
    /\ totalBytesUp s'
       = wrap64 (totalBytesUp s + sumZ (uploadsCounted arrivals)).
Proof.
  intros Hd Hbd Hu Hbu. rewrite serveAll_effects. eexists. split; [reflexivity|].
  induction arrivals as [|a l IH] using rev_ind.
  - cbn. rewrite !Z.add_0_r, !wrap64_id by assumption. repeat split.
  - rewrite fold_left_app. cbn [fold_left].
    destruct IH as (IHd & IHbd & IHu & IHbu).
    destruct (applyEffect_totals (effectOf a) (arrivedAt a)
                (fold_left (fun s a => applyEffect (effectOf a) (arrivedAt a) s) l s))
      as (Ed & Ebd & Eu & Ebu & _).
    rewrite Ed, Ebd, Eu, Ebu, IHd, IHbd, IHu, IHbu.
    unfold downloadsCounted, uploadsCounted.
    rewrite !flat_map_app. cbn [flat_map]. rewrite !app_nil_r.
    destruct (effectOf a) as [| |n|m]; rewrite ?app_nil_r;
      rewrite ?length_app, ?sumZ_snoc; cbn [length]; unfold add64;
      rewrite ?wrap64_add_l; repeat split; f_equal; lia.
Qed.

Lemma serving_counts_completed_transfers_witness :
  exists s',
    serveAll (fun _ => "2026-01-01T00:00:00Z") zeroStats
      [mkArrival 5 [true; false] (sampleDownload "2621440");
       mkArrival 7 [] (sampleDownload "2621440");
       mkArrival 8 [] (sampleDownload "12");
       mkArrival 9 [] (sampleUpload "3000000" 2999999 false);
       mkArrival 9 [] (sampleUpload "3000000" 1000 true)] = Some s'
    /\ totalDownloads s' = 1
    /\ totalBytesDown s' = 2621440
    /\ totalUploads s' = 1
    /\ totalBytesUp s' = 2999999.
Proof.
  exact (serving_counts_completed_transfers (fun _ => "2026-01-01T00:00:00Z")
           zeroStats
           [mkArrival 5 [true; false] (sampleDownload "2621440");
            mkArrival 7 [] (sampleDownload "2621440");
            mkArrival 8 [] (sampleDownload "12");
            mkArrival 9 [] (sampleUpload "3000000" 2999999 false);
            mkArrival 9 [] (sampleUpload "3000000" 1000 true)]
           ltac:(unfold inInt64, minInt64, maxInt64; cbn; lia)
           ltac:(unfold inInt64, minInt64, maxInt64; cbn; lia)
           ltac:(unfold inInt64, minInt64, maxInt64; cbn; lia)
           ltac:(unfold inInt64, minInt64, maxInt64; cbn; lia)).
Defined.

(** X7. The two report handlers read and never count. [statsHandler]
    answers a GET with status 200, [Content-Type: application/json] and one
    write of the text formatted from the statistics as they stand and the
    uptime [now - startTime]; any other method gets 405. [healthHandler]
    answers every request, whatever its method, with 200 and the health
    text. Neither changes a field of the statistics, touches
    [currentConcurrent], or runs the locked update. *)
Theorem reports_never_touch_statistics rfc3339 now s c r :
  (exists h',
     statsHandler rfc3339 now (initState s c) r = Some h'
     /\ st h' = s
     /\ deltas (trace h') = []
     /\ records (trace h') = O
     /\ (Method r = MethodGet ->
         status (rw h') = Some StatusOK
         /\ hdr (rw h') !! "Content-Type" = Some "application/json"
         /\ trace h' =
              [EvWrite
                 (Text (statsReply rfc3339 (totalDownloads s) (totalUploads s)
                          (totalBytesDown s) (totalBytesUp s)
                          (totalConnections s) (now - startTime s)
                          (lastRequestTime s) (peakConcurrent s)))
                 (nextWrite c)])
     /\ (Method r <> MethodGet ->
         rejectedWith s c StatusMethodNotAllowed "method not allowed" h'))
  /\ (exists h',
        healthHandler rfc3339 now (initState s c) r = Some h'
        /\ st h' = s
        /\ status (rw h') = Some StatusOK
        /\ hdr (rw h') !! "Content-Type" = Some "application/json"
        /\ trace h' = [EvWrite (Text (healthReply rfc3339 now)) (nextWrite c)]).
Proof.
  split.
  - unfold statsHandler.
    destruct (String.eqb_spec (Method r) MethodGet) as [Hm|Hm]; cbn [negb].
    + eexists. split; [reflexivity|]. rewrite hWrite_spec.
      cbn [fst st rw trace initState hSetHeader withWriter Header_Set freshWriter
           hdr status body conn default app deltas records].
      repeat split; congruence.
    + eexists. split; [reflexivity|].
      pose proof (rejectedWith_http_Error s c StatusMethodNotAllowed
                    "method not allowed") as Hrej.
      destruct Hrej as (Hst & Hstatus & Htr & Htrans & Hdel).
      repeat split; try assumption; try congruence.
      rewrite Htr. reflexivity.
  - unfold healthHandler. eexists. split; [reflexivity|]. rewrite hWrite_spec.
    cbn [fst st rw trace initState hSetHeader withWriter Header_Set freshWriter
         hdr status body conn default app].
    repeat split.
Qed.

Lemma mux_path path hd :
  mux path = Some hd ->
  path = match hd with
         | ServeDown => "/__down"
         | ServeUp => "/__up"
         | ServeStats => "/__stats"
         | ServeHealth => "/health"
         end.
Proof.
  unfold mux.
  destruct (String.eqb_spec path "/__down"); [intros [= <-]; assumption|].
  destruct (String.eqb_spec path "/__up"); [intros [= <-]; assumption|].
  destruct (String.eqb_spec path "/__stats"); [intros [= <-]; assumption|].
  destruct (String.eqb_spec path "/health"); [intros [= <-]; assumption|].
  discriminate.
Qed.

Lemma effectOf_touched a :
  effectOf a <> Untouched ->
  (Path (request a) = "/__down" /\ Method (request a) = MethodGet
   /\ exists n, parseBytes (request a) = inl n)
  \/ (Path (request a) = "/__up" /\ Method (request a) = MethodPost
      /\ exists n, parseBytes (request a) = inl n).
Proof.
  unfold effectOf. intros He.
  destruct (mux (Path (request a))) as [[| | |]|] eqn:Hmux; try congruence;
    apply mux_path in Hmux.
  - left. destruct (String.eqb_spec (Method (request a)) MethodGet); [|congruence].
    destruct (parseBytes (request a)) as [n|]; [|congruence]. eauto.
  - right. destruct (String.eqb_spec (Method (request a)) MethodPost); [|congruence].
    destruct (parseBytes (request a)) as [n|]; [|congruence]. eauto.
Qed.

(** X8. Only a transfer that passed the checks can change the statistics.
    Whatever the server is asked -- any path, any method, any query, any
    body, any connection -- if the statistics differ afterwards, the request
    was a GET on /__down or a POST on /__up whose [bytes] parameter
    [parseBytes] accepted. (Of the routes of the mux, the file server and
    the download of the binary are not modelled; their handlers do not refer
    to [stats].) *)
Theorem only_accepted_transfers_change_statistics rfc3339 s a :
  exists h',
    serve rfc3339 s a = Some h'
    /\ (st h' <> s ->
        (Path (request a) = "/__down" /\ Method (request a) = MethodGet
         /\ exists n, parseBytes (request a) = inl n)
        \/ (Path (request a) = "/__up" /\ Method (request a) = MethodPost
            /\ exists n, parseBytes (request a) = inl n)).
Proof.
  destruct (serve_effect rfc3339 s a) as (h' & Hrun & Hst & _).
  exists h'. split; [exact Hrun|]. intros Hne.
  apply effectOf_touched. intros He. apply Hne. rewrite Hst, He. reflexivity.
Qed.

(** X9. An upload whose body cannot be read to the end counts for nothing.
    [uploadHandler] logs the read error and answers 500 "upload error"; the
    locked update does not run, so [totalUploads], [totalBytesUp],
    [totalConnections] and [lastRequestTime] stay as they were, however many
    bytes had arrived before the error; the deferred decrement still runs. *)
Theorem upload_read_error_counts_nothing now s c r N :
  Method r = MethodPost ->
  parseBytes r = inl N ->
  bodyErr (ReqBody r) = true ->
  exists h',
    uploadHandler now (initState s c) r = Some h'
    /\ status (rw h') = Some StatusInternalServerError
    /\ trace h' =
         (enterEvents s
            ++ [EvReadBody (bodyLen (ReqBody r)) false;
                EvLog (LogUploadReadError (RemoteAddr r));
                EvWriteHeader StatusInternalServerError;
                EvWrite (Text ("upload error" ++ newline)) (nextWrite c);
                EvAddConcurrent (-1)])%list
    /\ records (trace h') = O
    /\ totalUploads (st h') = totalUploads s
    /\ totalBytesUp (st h') = totalBytesUp s
    /\ totalConnections (st h') = totalConnections s
    /\ lastRequestTime (st h') = lastRequestTime s
    /\ totalDownloads (st h') = totalDownloads s
    /\ totalBytesDown (st h') = totalBytesDown s.
Proof.
  intros Hm Hp Herr.
  destruct (uploadHandler_broken now s c r N Hm Hp Herr)
    as (h' & Hrun & Hst & Hstatus & Htr).
  exists h'. rewrite Hst.
  destruct (left_entered_fields s) as (Hd & Hu & Hbd & Hbu & Hc & _ & Hl).
  repeat split; try assumption.
  rewrite Htr, records_app, records_enterEvents. reflexivity.
Qed.

Lemma upload_read_error_counts_nothing_witness :
  exists h',
    uploadHandler 3 (initState zeroStats []) (sampleUpload "2000000" 1500000 true)
      = Some h'
    /\ status (rw h') = Some StatusInternalServerError
    /\ totalUploads (st h') = 0
    /\ totalBytesUp (st h') = 0.
Proof.
  destruct (upload_read_error_counts_nothing 3 zeroStats []
              (sampleUpload "2000000" 1500000 true) 2000000
              eq_refl eq_refl eq_refl)
    as (h' & Hrun & Hstatus & _ & _ & Hu & Hbu & _).
  exists h'. repeat split; assumption.
Defined.

Example a_day_at_the_server :
  serveAll (fun _ => "2026-01-01T00:00:00Z") zeroStats
    [mkArrival 5 [true; false] (sampleDownload "2621440");
     mkArrival 7 [] (sampleDownload "2621440");
     mkArrival 8 [] (mkRequest MethodPost "/__stats" [] "10.0.0.7:51234"
                       (mkBody 0 false));
     mkArrival 8 [] (mkRequest MethodPost "/health" [] "10.0.0.7:51234"
                       (mkBody 0 false));
     mkArrival 9 [] (sampleUpload "3000000" 2999999 false);
     mkArrival 9 [] (sampleUpload "3000000" 1000 true)]
  = Some (mkStats 1 1 2621440 2999999 1 0 9 1 0).
Proof. vm_compute. reflexivity. Qed.

Section ReportedProofs.

Context {W : Type} `{Env W}.

Lemma insert_next (done : list float) (k n : nat) (x : float) :
  length done = k ->
  <[Z.to_nat (Z.of_nat k) := x]> (done ++ replicate (S n) 0%float)%list
  = ((done ++ [x]) ++ replicate n 0%float)%list.
Proof.
  intros <-. rewrite Nat2Z.id. rewrite insert_app_r_alt by lia.
  rewrite Nat.sub_diag. cbn [replicate]. rewrite <- app_assoc. reflexivity.
Qed.

Lemma sumDurations_snoc l d : sumDurations (l ++ [d]) = add64 (sumDurations l) d.
Proof. unfold sumDurations. rewrite fold_left_app. reflexivity. Qed.

Lemma seriesLoop_results runTest config n :
  forall (done : list (float * Duration)) (r : @Run W),
  match seriesLoop runTest config n (Z.of_nat (length done)) r
          (map fst done ++ replicate n 0%float)%list
          (sumDurations (map snd done)) with
  | inl _ => True
  | inr (r', speeds, totalTime) =>
      exists more,
        length more = n
        /\ Forall (measuredBy runTest config) more
        /\ speeds = map fst (done ++ more)
        /\ totalTime = sumDurations (map snd (done ++ more))
        /\ printed r' = (printed r ++ map (fun x => LRow (fst x)) more)%list
  end.
Proof.
  induction n as [|n IH]; intros done r.
  - cbn [seriesLoop replicate]. exists []. rewrite !app_nil_r.
    repeat split. constructor.
  - cbn [seriesLoop].
    destruct (runTest config (world r)) as [w res] eqn:Hrun.
    destruct res as [speed duration|err|]; [|exact I|exact I].
    cbn [world printed alive printLine].
    rewrite insert_next by apply length_map.
    specialize (IH (done ++ [(speed, duration)])%list
                  (mkRun (pause config (Z.of_nat (length done)) w)
                     (printed r ++ [LRow speed]) (alive r))).
    rewrite !map_app, length_app in IH. cbn [map fst snd length] in IH.
    rewrite sumDurations_snoc in IH.
    replace (Z.of_nat (length done + 1)) with (Z.of_nat (length done) + 1) in IH by lia.
    match type of IH with
    | match ?x with _ => _ end =>
        destruct x as [r'|[[r' sp] tt]]; [exact I|]
    end.
    destruct IH as (more & Hlen & Hall & Hsp & Htt & Hpr).
    exists ((speed, duration) :: more). cbn [length map fst].
    repeat split.
    + lia.
    + constructor; [|exact Hall]. exists (world r), w. exact Hrun.
    + rewrite Hsp, <- app_assoc. reflexivity.
    + rewrite Htt, <- app_assoc. reflexivity.
    + rewrite Hpr. cbn [printed]. rewrite <- app_assoc. reflexivity.
Qed.

Lemma bothLoop_results config n :
  forall (done : list ((float * Duration) * (float * Duration))) (r : @Run W),
  match bothLoop config n (Z.of_nat (length done)) r
          (map (fun x => fst (fst x)) done ++ replicate n 0%float)%list
          (map (fun x => fst (snd x)) done ++ replicate n 0%float)%list
          (sumDurations (flat_map (fun x => [snd (fst x); snd (snd x)]) done)) with
  | inl _ => True
  | inr (r', downloadSpeeds, uploadSpeeds, totalTime) =>
      exists more,
        length more = n
        /\ Forall (fun x => measuredBy runDownloadTest config (fst x)
                            /\ measuredBy runUploadTest config (snd x)) more
        /\ downloadSpeeds = map (fun x => fst (fst x)) (done ++ more)
        /\ uploadSpeeds = map (fun x => fst (snd x)) (done ++ more)
        /\ totalTime
           = sumDurations (flat_map (fun x => [snd (fst x); snd (snd x)])
                             (done ++ more))
        /\ printed r'
           = (printed r
                ++ map (fun x => LRowBoth (fst (fst x)) (fst (snd x))) more)%list
  end.
Proof.
  induction n as [|n IH]; intros done r.
  - cbn [bothLoop replicate]. exists []. rewrite !app_nil_r.
    repeat split. constructor.
  - cbn [bothLoop].
    destruct (runDownloadTest config (world r)) as [w res] eqn:Hdown.
    destruct res as [downSpeed downDur|err|]; [|exact I|exact I].
    cbn [world printed alive printLine].
    destruct (runUploadTest config w) as [w2 res] eqn:Hup.
    destruct res as [upSpeed upDur|err|]; [|exact I|exact I].
    cbn [world printed alive printLine].
    rewrite !insert_next by apply length_map.
    specialize (IH (done ++ [((downSpeed, downDur), (upSpeed, upDur))])%list
                  (mkRun (pause config (Z.of_nat (length done)) w2)
                     (printed r ++ [LRowBoth downSpeed upSpeed]) (alive r))).
    rewrite !map_app, flat_map_app, length_app in IH.
    cbn [map flat_map fst snd length app] in IH.
    replace (sumDurations
               (flat_map (fun x => [snd (fst x); snd (snd x)]) done
                  ++ [downDur; upDur])%list)
      with (add64 (add64 (sumDurations
                            (flat_map (fun x => [snd (fst x); snd (snd x)]) done))
                     downDur) upDur) in IH.
    2:{ unfold sumDurations. rewrite fold_left_app. reflexivity. }
    replace (Z.of_nat (length done + 1)) with (Z.of_nat (length done) + 1) in IH by lia.
    match type of IH with
    | match ?x with _ => _ end =>
        destruct x as [r'|[[[r' dd] uu] tt]]; [exact I|]
    end.
    destruct IH as (more & Hlen & Hall & Hdd & Huu & Htt & Hpr).
    exists (((downSpeed, downDur), (upSpeed, upDur)) :: more). cbn [length].
    repeat split.
    + lia.
    + constructor; [|exact Hall]. cbn [fst snd]. split.
      * exists (world r), w. exact Hdown.
      * exists w, w2. exact Hup.
    + rewrite Hdd, <- app_assoc. reflexivity.
    + rewrite Huu, <- app_assoc. reflexivity.
    + rewrite Htt, <- app_assoc. reflexivity.
    + rewrite Hpr. cbn [printed map]. rewrite <- app_assoc. reflexivity.
Qed.

Lemma runSeries_ends direction runTest config (r : @Run W) :
  let n := Z.to_nat (Count config) in
  let before := (printed r ++ [LHead direction; LRule 18])%list in
  stoppedBy "test" runTest config n 0 before (runSeries direction runTest config r)
  \/ crashedBy runTest config n before (runSeries direction runTest config r)
  \/ reported runTest config n before (runSeries direction runTest config r).
Proof.
  intros n before. unfold runSeries. cbv zeta. fold n.
  match goal with
  | |- context [seriesLoop runTest config n 0 ?r1 ?s1 0] =>
      pose proof (seriesLoop_ends runTest config n 0 r1 s1 0) as Hend;
      pose proof (seriesLoop_results runTest config n [] r1) as Hres;
      cbn [length map app] in Hres;
      change (sumDurations []) with 0 in Hres;
      change (Z.of_nat 0) with 0 in Hres;
      destruct (seriesLoop runTest config n 0 r1 s1 0) as [r'|[[r' sp] tt]]
  end; cbn [printLine printed] in Hend, Hres; rewrite <- app_assoc in Hend;
    cbn [app] in Hend.
  - destruct Hend as [Hend|Hend]; [by left | right; by left].
  - do 2 right. destruct Hres as (results & Hlen & Hall & -> & -> & Hpr).
    exists results. split; [exact Hlen|]. split; [exact Hall|].
    cbn [printLine printed]. rewrite Hpr. subst before.
    rewrite <- !app_assoc. reflexivity.
Qed.

Lemma runBothTests_ends config (r : @Run W) :
  let n := Z.to_nat (Count config) in
  let before := (printed r ++ [LHeadBoth; LRule 30])%list in
  stoppedBy "download test" runDownloadTest config n 0 before (runBothTests config r)
  \/ stoppedBy "upload test" runUploadTest config n 0 before (runBothTests config r)
  \/ crashedBy runUploadTest config n before (runBothTests config r)
  \/ reportedBoth config n before (runBothTests config r).
Proof.
  intros n before. unfold runBothTests. cbv zeta. fold n.
  match goal with
  | |- context [bothLoop config n 0 ?r1 ?d1 ?u1 0] =>
      pose proof (bothLoop_ends config n 0 r1 d1 u1 0) as Hend;
      pose proof (bothLoop_results config n [] r1) as Hres;
      cbn [length map flat_map app] in Hres;
      change (sumDurations []) with 0 in Hres;
      change (Z.of_nat 0) with 0 in Hres;
      destruct (bothLoop config n 0 r1 d1 u1 0) as [r'|[[[r' dd] uu] tt]]
  end; cbn [printLine printed] in Hend, Hres; rewrite <- app_assoc in Hend;
    cbn [app] in Hend.
  - destruct Hend as [Hend|[Hend|[Hend|Hend]]];
      [by left | right; by left | | do 2 right; by left].
    destruct Hend as (rows & w & _ & _ & Hrun & _).
    destruct (runDownloadTest_no_panic config w). rewrite Hrun. reflexivity.
  - do 3 right. destruct Hres as (results & Hlen & Hall & -> & -> & -> & Hpr).
    exists results. split; [exact Hlen|]. split; [exact Hall|].
    cbn [printLine printed]. rewrite Hpr. subst before.
    rewrite <- !app_assoc. reflexivity.
Qed.

(** X10. What a series that ran to its end reports is what it measured. In
    each of the three orchestrators, unless the run stopped at a failed test
    or died in one, the slice of speeds has been overwritten in every slot:
    there is one result per iteration, each one returned by the test runner,
    each printed as one row in order; the average line is [calculateAverage]
    of exactly the speeds of the rows, and the total is the int64 sum of
    exactly their durations (in [runBothTests]: download and upload columns
    averaged apart, the durations of both summed). *)
Theorem completed_run_reports_what_it_measured config (r : @Run W) :
  0 <= Count config ->
  let n := Z.to_nat (Count config) in
  (stoppedBy "test" runDownloadTest config n 0
     (printed r ++ [LHead directionDown; LRule 18]) (runDownloadTests config r)
   \/ reported runDownloadTest config n
        (printed r ++ [LHead directionDown; LRule 18])
        (runDownloadTests config r))
  /\ (stoppedBy "test" runUploadTest config n 0
        (printed r ++ [LHead directionUp; LRule 18]) (runUploadTests config r)
      \/ crashedBy runUploadTest config n
           (printed r ++ [LHead directionUp; LRule 18]) (runUploadTests config r)
      \/ reported runUploadTest config n
           (printed r ++ [LHead directionUp; LRule 18])
           (runUploadTests config r))
  /\ (stoppedBy "download test" runDownloadTest config n 0
        (printed r ++ [LHeadBoth; LRule 30]) (runBothTests config r)
      \/ stoppedBy "upload test" runUploadTest config n 0
           (printed r ++ [LHeadBoth; LRule 30]) (runBothTests config r)
      \/ crashedBy runUploadTest config n
           (printed r ++ [LHeadBoth; LRule 30]) (runBothTests config r)
      \/ reportedBoth config n (printed r ++ [LHeadBoth; LRule 30])
           (runBothTests config r)).
Proof.
  intros _ n. split; [|split].
  - destruct (runSeries_ends directionDown runDownloadTest config r)
      as [Hend|[Hend|Hend]]; [left; exact Hend| |right; exact Hend].
    destruct Hend as (rows & w & _ & _ & Hrun & _).
    destruct (runDownloadTest_no_panic config w). rewrite Hrun. reflexivity.
  - exact (runSeries_ends directionUp runUploadTest config r).
  - exact (runBothTests_ends config r).
Qed.

End ReportedProofs.

Lemma completed_run_reports_what_it_measured_witness :
  stoppedBy "test" runDownloadTest (sampleConfig directionDown 2 10) 2 0
    [LHead directionDown; LRule 18]
    (runDownloadTests (sampleConfig directionDown 2 10)
       (mkRun (scriptOf [goodExchange; goodExchange]) [] true))
  \/ reported runDownloadTest (sampleConfig directionDown 2 10) 2
       [LHead directionDown; LRule 18]
       (runDownloadTests (sampleConfig directionDown 2 10)
          (mkRun (scriptOf [goodExchange; goodExchange]) [] true)).
Proof.
  exact (proj1 (completed_run_reports_what_it_measured
                  (sampleConfig directionDown 2 10)
                  (mkRun (scriptOf [goodExchange; goodExchange]) [] true)
                  ltac:(cbn; lia))).
Defined.

Example average_of_two_rows :
  printed (runDownloadTests (sampleConfig directionDown 2 10)
             (mkRun (scriptOf [goodExchange;
                               mkExchange true 200 (mkBody 10000000 false)
                                 300000000 100000000]) [] true))
  = [LHead "down"; LRule 18; LRow 100; LRow 200; LRule 18;
     LAvg (calculateAverage [100%float; 200%float]);
     LTotal (Seconds (sumDurations [800000000; 400000000]))]
  /\ calculateAverage [100%float; 200%float] = 150%float
  /\ calculateAverage [] = 0%float.
Proof. repeat split; vm_compute; reflexivity. Qed.

(** ** From the flags to the run *)

Lemma validate_server c :
  Mode c = modeServer ->
  validate c = None ->
  Port c <> "" /\ Port c <> "0" /\ exists n, ParseInt (Port c) = inl n.
Proof.
  intros Hm. unfold validate. rewrite Hm.
  change (String.eqb modeServer modeClient) with false.
  change (String.eqb modeServer modeServer) with true. cbv iota.
  destruct (String.eqb_spec (Port c) "") as [|Hp]; [discriminate|].
  destruct (String.eqb_spec (Port c) "0") as [|Hp0]; [discriminate|]. cbn [orb].
  destruct (ParseInt (Port c)) as [p|]; [|discriminate]. eauto.
Qed.

Lemma validate_mode c :
  validate c = None -> Mode c = modeClient \/ Mode c = modeServer.
Proof.
  unfold validate.
  destruct (String.eqb_spec (Mode c) modeClient); [auto|].
  destruct (String.eqb_spec (Mode c) modeServer); [auto|discriminate].
Qed.

Section MainProofs.

Context {W : Type} `{Env W}.

(** Every orchestrator only adds lines, the two of its head first. *)
Lemma runClient_opens config (w : W) :
  isValidDirection (Direction config) = true ->
  exists rest,
    printed (runClient config w)
    = ([LTitle (Size config); LServer (Server config)]
         ++ seriesHead (Direction config) ++ rest)%list.
Proof.
  intros Hdir. unfold runClient, seriesHead. cbv zeta.
  assert (Hstop : forall what runTest n before (r' : @Run W),
             stoppedBy what runTest config n 0 before r' ->
             exists rest, printed r' = (before ++ rest)%list).
  { intros what runTest n before r' (rows & w0 & err & _ & _ & _ & Hp). eauto. }
  assert (Hcrash : forall runTest n before (r' : @Run W),
             crashedBy runTest config n before r' ->
             exists rest, printed r' = (before ++ rest)%list).
  { intros runTest n before r' (rows & w0 & _ & _ & _ & Hp & _). eauto. }
  destruct (String.eqb_spec (Direction config) directionBoth) as [Hb|Hb].
  - match goal with
    | |- context [runBothTests config ?r0] =>
        destruct (runBothTests_ends config r0) as [Hend|[Hend|[Hend|Hend]]]
    end; cbn [printLine printed app] in Hend.
    + apply Hstop in Hend as (rest & ->). eauto.
    + apply Hstop in Hend as (rest & ->). eauto.
    + apply Hcrash in Hend as (rest & ->). eauto.
    + destruct Hend as (results & _ & _ & ->). eauto.
  - assert (Hseries : forall runTest,
               exists rest,
                 printed (runSeries (Direction config) runTest config
                            (printLine (printLine (mkRun w [] true)
                                          (LTitle (Size config)))
                               (LServer (Server config))))
                 = ([LTitle (Size config); LServer (Server config)]
                      ++ [LHead (Direction config); LRule 18] ++ rest)%list).
    { intros runTest.
      match goal with
      | |- context [runSeries _ runTest config ?r0] =>
          destruct (runSeries_ends (Direction config) runTest config r0)
            as [Hend|[Hend|Hend]]
      end; cbn [printLine printed app] in Hend.
      - apply Hstop in Hend as (rest & ->). eauto.
      - apply Hcrash in Hend as (rest & ->). eauto.
      - destruct Hend as (results & _ & _ & ->). eauto. }
    destruct (String.eqb_spec (Direction config) directionDown) as [Hd|Hd].
    + unfold runDownloadTests. rewrite <- Hd. apply Hseries.
    + destruct (String.eqb_spec (Direction config) directionUp) as [Hu|Hu].
      * unfold runUploadTests. rewrite <- Hu. apply Hseries.
      * unfold isValidDirection in Hdir.
        destruct (String.eqb_spec (Direction config) directionDown); [contradiction|].
        destruct (String.eqb_spec (Direction config) directionUp); [contradiction|].
        destruct (String.eqb_spec (Direction config) directionBoth); [contradiction|].
        discriminate.
Qed.

(** X11. [main] runs only what [validate] accepted, and the client it
    starts always runs a series. If [main] does not stop at
    [logger.Fatalf], then either the mode is "server" and the port is
    neither empty nor "0" and reads as an integer, or -- [main] taking every
    other mode for the client -- the mode is "client", [count] and [size]
    are at least 1, the server address is not empty, and the direction is
    one of the three, so that the switch of [runClient] has a case for it:
    the run opens with the title, the server line and the head of the
    series the direction names. *)
Theorem main_runs_what_validate_accepted (f : Flags) (w : W) :
  let config := parseFlags f in
  match main f w with
  | Fatal err => validate config = Some err
  | Listening addr =>
      Mode config = modeServer
      /\ addr = Host config ++ ":" ++ Port config
      /\ Port config <> "" /\ Port config <> "0"
      /\ exists n, ParseInt (Port config) = inl n
  | ClientRun r =>
      Mode config = modeClient
      /\ 1 <= Count config /\ 1 <= Size config /\ Server config <> ""
      /\ r = runClient config w
      /\ exists rest,
           printed r
           = ([LTitle (Size config); LServer (Server config)]
                ++ seriesHead (Direction config) ++ rest)%list
  end.
Proof.
  intros config. unfold main. fold config.
  destruct (validate config) as [err|] eqn:Hv; [reflexivity|].
  destruct (String.eqb_spec (Mode config) modeServer) as [Hs|Hs].
  - destruct (validate_server config Hs Hv) as (Hp & Hp0 & Hn).
    repeat split; assumption.
  - destruct (validate_mode config Hv) as [Hc|Hc]; [|contradiction].
    destruct (validate_client config Hc Hv) as (Hcount & Hsize & Hdir & Hserver).
    repeat split; try assumption.
    apply runClient_opens, Hdir.
Qed.

End MainProofs.

(** X12. [validate] checks that the port is a number, not that it is a
    port. In server mode every int64 other than zero, printed in decimal,
    passes: negative numbers and numbers above 65535 included. *)
Theorem validate_accepts_any_nonzero_port c n :
  Mode c = modeServer ->
  inInt64 n ->
  n <> 0 ->
  Port c = FormatInt n ->
  validate c = None.
Proof.
  intros Hm Hn Hn0 Hp. unfold validate. rewrite Hm, Hp.
  change (String.eqb modeServer modeClient) with false.
  change (String.eqb modeServer modeServer) with true. cbv iota.
  destruct (String.eqb_spec (FormatInt n) "") as [He|_].
  { destruct (FormatInt_nonempty n He). }
  destruct (String.eqb_spec (FormatInt n) "0") as [He|_].
  { pose proof (ParseInt_FormatInt n Hn) as Hr. rewrite He in Hr.
    change (ParseInt "0") with (inl 0 : Z + NumErr) in Hr. congruence. }
  cbn [orb]. rewrite (ParseInt_FormatInt n Hn). reflexivity.
Qed.

(** X13. How [parseFlags] settles the short and the long form of a flag.
    A flag given in one form only -- the other holding its default -- takes
    the value given, whichever form it is. When both are given the long form
    wins, unless its value is the default ([--count 1], [--size 100],
    [--server speed.cloudflare.com], [--direction both]): then the short
    form wins. *)
Theorem parseFlags_one_form_given f :
  let c := parseFlags f in
  (flagC f = 1 -> Count c = flagCount f)
  /\ (flagCount f = 1 -> Count c = flagC f)
  /\ (flagS f = 100 -> Size c = flagSize f)
  /\ (flagSize f = 100 -> Size c = flagS f)
  /\ (flagServerShort f = "speed.cloudflare.com" -> Server c = flagServer f)
  /\ (flagServer f = "speed.cloudflare.com" -> Server c = flagServerShort f)
  /\ (flagD f = directionBoth -> Direction c = flagDirection f)
  /\ (flagDirection f = directionBoth -> Direction c = flagD f)
  /\ (flagCount f <> 1 -> Count c = flagCount f)
  /\ (flagSize f <> 100 -> Size c = flagSize f)
  /\ (flagServer f <> "speed.cloudflare.com" -> Server c = flagServer f)
  /\ (flagDirection f <> directionBoth -> Direction c = flagDirection f).
Proof.
  cbv zeta. unfold parseFlags.
  cbn [Count Size Server Direction].
  destruct (Z.eqb_spec (flagCount f) 1), (Z.eqb_spec (flagSize f) 100),
    (String.eqb_spec (flagServer f) "speed.cloudflare.com"),
    (String.eqb_spec (flagDirection f) directionBoth);
    cbn [negb]; repeat split; intros; congruence.
Qed.

Lemma validate_accepts_any_nonzero_port_witness :
  validate (mkConfig modeServer directionBoth 1 100 "" "-1" "0.0.0.0") = None.
Proof.
  apply (validate_accepts_any_nonzero_port
           (mkConfig modeServer directionBoth 1 100 "" "-1" "0.0.0.0") (-1));
    [reflexivity | unfold inInt64, minInt64, maxInt64; lia | lia | reflexivity].
Defined.

Example ports_and_flags :
  validate (mkConfig modeServer directionBoth 1 100 "" "70000" "0.0.0.0") = None
  /\ validate (mkConfig modeServer directionBoth 1 100 "" "00" "0.0.0.0") = None
  /\ validate (mkConfig modeServer directionBoth 1 100 "" "0" "0.0.0.0")
     = Some EmptyPort
  /\ validate (mkConfig modeServer directionBoth 1 100 "" "http" "0.0.0.0")
     = Some PortNotANumber
  /\ validate (parseFlags defaultFlags) = None
  /\ parseFlags defaultFlags
     = mkConfig modeClient directionBoth 1 100 "speed.cloudflare.com" "8080"
         "0.0.0.0"
  /\ Count (parseFlags (mkFlags modeClient "8080" "0.0.0.0" 5 1 100 100
                          "speed.cloudflare.com" "speed.cloudflare.com"
                          directionBoth directionBoth)) = 5.
Proof. repeat split; vm_compute; reflexivity. Qed.

(** ** A whole run against the repository's own server *)

Section Unfailing.

Context {W : Type} `{Env W}.

(** A loop whose tests all measure runs to its end, and an invariant of
    the world that the tests advance is advanced once per iteration. *)
Lemma seriesLoop_invariant (Inv : nat -> W -> Prop) runTest config :
  (forall k w, Inv k w ->
     exists w' speed d,
       runTest config w = (w', Measured speed d)
       /\ Inv (S k) w' /\ Inv (S k) (Sleep w' (500 * Millisecond))) ->
  forall n k i (r : @Run W) speeds totalTime,
    Inv k (world r) ->
    exists r' speeds' totalTime',
      seriesLoop runTest config n i r speeds totalTime
      = inr (r', speeds', totalTime')
      /\ Inv (k + n)%nat (world r') /\ alive r' = alive r.
Proof.
  intros Hstep. induction n as [|n IH]; intros k i r speeds totalTime Hinv.
  - cbn [seriesLoop]. rewrite Nat.add_0_r. exists r, speeds, totalTime.
    split; [reflexivity|split; [exact Hinv|reflexivity]].
  - cbn [seriesLoop].
    destruct (Hstep k (world r) Hinv) as (w' & speed & d & Hrun & Hw' & Hsleep).
    rewrite Hrun. cbn [world printed alive printLine].
    match goal with
    | |- context [seriesLoop runTest config n (i + 1) ?r1 ?s1 ?t1] =>
        destruct (IH (S k) (i + 1) r1 s1 t1) as (r' & sp' & tt' & Hloop & Hinv' & Hal)
    end.
    { cbn [world]. unfold pause. destruct (i <? Count config - 1); assumption. }
    rewrite Hloop. exists r', sp', tt'. split; [reflexivity|].
    split; [|exact Hal]. replace (k + S n)%nat with (S k + n)%nat by lia. exact Hinv'.
Qed.

Lemma bothLoop_invariant (Inv : nat -> W -> Prop) (Mid : nat -> W -> Prop) config :
  (forall k w, Inv k w ->
     exists w' speed d,
       runDownloadTest config w = (w', Measured speed d) /\ Mid k w') ->
  (forall k w, Mid k w ->
     exists w' speed d,
       runUploadTest config w = (w', Measured speed d)
       /\ Inv (S k) w' /\ Inv (S k) (Sleep w' (500 * Millisecond))) ->
  forall n k i (r : @Run W) downs ups totalTime,
    Inv k (world r) ->
    exists r' downs' ups' totalTime',
      bothLoop config n i r downs ups totalTime
      = inr (r', downs', ups', totalTime')
      /\ Inv (k + n)%nat (world r') /\ alive r' = alive r.
Proof.
  intros Hdown Hup. induction n as [|n IH]; intros k i r downs ups totalTime Hinv.
  - cbn [bothLoop]. rewrite Nat.add_0_r. exists r, downs, ups, totalTime.
    split; [reflexivity|split; [exact Hinv|reflexivity]].
  - cbn [bothLoop].
    destruct (Hdown k (world r) Hinv) as (w1 & s1 & d1 & Hrun1 & Hmid).
    rewrite Hrun1. cbn [world printed alive printLine].
    destruct (Hup k w1 Hmid) as (w2 & s2 & d2 & Hrun2 & Hw2 & Hsleep).
    rewrite Hrun2. cbn [world printed alive printLine].
    match goal with
    | |- context [bothLoop config n (i + 1) ?r1 ?a1 ?b1 ?t1] =>
        destruct (IH (S k) (i + 1) r1 a1 b1 t1)
          as (r' & dd & uu & tt' & Hloop & Hinv' & Hal)
    end.
    { cbn [world]. unfold pause. destruct (i <? Count config - 1); assumption. }
    rewrite Hloop. exists r', dd, uu, tt'. split; [reflexivity|].
    split; [|exact Hal]. replace (k + S n)%nat with (S k + n)%nat by lia. exact Hinv'.
Qed.

Lemma runSeries_unfailing (Inv : nat -> W -> Prop) direction runTest config
    (r : @Run W) :
  (forall k w, Inv k w ->
     exists w' speed d,
       runTest config w = (w', Measured speed d)
       /\ Inv (S k) w' /\ Inv (S k) (Sleep w' (500 * Millisecond))) ->
  Inv O (world r) ->
  let n := Z.to_nat (Count config) in
  let r' := runSeries direction runTest config r in
  Inv n (world r') /\ alive r' = alive r
  /\ exists closing,
       length closing = 3%nat
       /\ completed n (printed r ++ [LHead direction; LRule 18]) closing r'.
Proof.
  intros Hstep Hinv n r'. subst r'. unfold runSeries. cbv zeta. fold n.
  match goal with
  | |- context [seriesLoop runTest config n 0 ?r1 ?s1 0] =>
      pose proof (seriesLoop_ends runTest config n 0 r1 s1 0) as Hend;
      destruct (seriesLoop_invariant Inv runTest config Hstep n O 0 r1 s1 0 Hinv)
        as (r1' & sp & tt & Hloop & Hinv' & Hal)
  end.
  rewrite Hloop in Hend |- *. cbn [printLine printed world alive] in *.
  split; [exact Hinv'|]. split; [exact Hal|].
  destruct Hend as (rows & Hrows & Hlen & Hp). rewrite app_nil_r in Hp.
  eexists. split; [|exists rows; split; [exact Hrows|split; [exact Hlen|]]].
  2:{ cbn [printLine printed]. rewrite Hp. rewrite <- !app_assoc. reflexivity. }
  reflexivity.
Qed.

Lemma runBothTests_unfailing (Inv Mid : nat -> W -> Prop) config (r : @Run W) :
  (forall k w, Inv k w ->
     exists w' speed d,
       runDownloadTest config w = (w', Measured speed d) /\ Mid k w') ->
  (forall k w, Mid k w ->
     exists w' speed d,
       runUploadTest config w = (w', Measured speed d)
       /\ Inv (S k) w' /\ Inv (S k) (Sleep w' (500 * Millisecond))) ->
  Inv O (world r) ->
  let n := Z.to_nat (Count config) in
  let r' := runBothTests config r in
  Inv n (world r') /\ alive r' = alive r
  /\ exists closing,
       length closing = 3%nat
       /\ completed n (printed r ++ [LHeadBoth; LRule 30]) closing r'.
Proof.
  intros Hdown Hup Hinv n r'. subst r'. unfold runBothTests. cbv zeta. fold n.
  match goal with
  | |- context [bothLoop config n 0 ?r1 ?d1 ?u1 0] =>
      pose proof (bothLoop_ends config n 0 r1 d1 u1 0) as Hend;
      destruct (bothLoop_invariant Inv Mid config Hdown Hup n O 0 r1 d1 u1 0 Hinv)
        as (r1' & dd & uu & tt & Hloop & Hinv' & Hal)
  end.
  rewrite Hloop in Hend |- *. cbn [printLine printed world alive] in *.
  split; [exact Hinv'|]. split; [exact Hal|].
  destruct Hend as (rows & Hrows & Hlen & Hp). rewrite app_nil_r in Hp.
  eexists. split; [|exists rows; split; [exact Hrows|split; [exact Hlen|]]].
  2:{ cbn [printLine printed]. rewrite Hp. rewrite <- !app_assoc. reflexivity. }
  reflexivity.
Qed.

End Unfailing.

Lemma counted_start s0 lat :
  inInt64 (totalDownloads s0) -> inInt64 (totalBytesDown s0) ->
  inInt64 (totalUploads s0) -> inInt64 (totalBytesUp s0) ->
  inInt64 (totalConnections s0) ->
  forall n wall0, counted s0 lat n 0 0 (mkLoopback s0 wall0 lat).
Proof.
  intros Hd Hbd Hu Hbu Hc n wall0. unfold counted. cbn [latency srv Z.of_nat].
  rewrite !Z.mul_0_l, !Z.add_0_r, !wrap64_id by assumption. repeat split.
Qed.

Lemma counted_download s0 lat n downs ups (w : Loopback) now wall' :
  counted s0 lat n downs ups w ->
  counted s0 lat n (S downs) ups
    (mkLoopback (left (recordDownload (entered (srv w)) n now)) wall' (latency w)).
Proof.
  intros (Hl & Hd & Hbd & Hu & Hbu & Hc). unfold counted. cbn [latency srv].
  destruct (left_download_fields (srv w) n now) as (Ed & Ebd & _ & Eu & Ebu & Ec).
  rewrite Ed, Ebd, Eu, Ebu, Ec, Hd, Hbd, Hu, Hbu, Hc. unfold add64.
  rewrite !wrap64_add_l. repeat split; try assumption; f_equal; lia.
Qed.

Lemma counted_upload s0 lat n downs ups (w : Loopback) now wall' :
  counted s0 lat n downs ups w ->
  counted s0 lat n downs (S ups)
    (mkLoopback (left (recordUpload (entered (srv w)) n now)) wall' (latency w)).
Proof.
  intros (Hl & Hd & Hbd & Hu & Hbu & Hc). unfold counted. cbn [latency srv].
  destruct (left_upload_fields (srv w) n now) as (Eu & Ebu & Ec & _ & Ed & Ebd).
  rewrite Ed, Ebd, Eu, Ebu, Ec, Hd, Hbd, Hu, Hbu, Hc. unfold add64.
  rewrite !wrap64_add_l. repeat split; try assumption; f_equal; lia.
Qed.

Lemma counted_download_step config s0 lat downs ups (w : Loopback) :
  2 <= Size config <= 10737 ->
  hostOnly (Server config) = true ->
  lat <> 0 ->
  counted s0 lat (Size config * 1000000) downs ups w ->
  exists w' speed d,
    runDownloadTest config w = (w', Measured speed d)
    /\ counted s0 lat (Size config * 1000000) (S downs) ups w'
    /\ counted s0 lat (Size config * 1000000) (S downs) ups
         (Sleep w' (500 * Millisecond)).
Proof.
  intros Hsize Hhost Hlat Hc.
  assert (Hl : latency w <> 0) by (destruct Hc as (-> & _); exact Hlat).
  rewrite (runDownloadTest_loopback_ok config w Hsize Hhost Hl).
  eexists _, _, _. split; [reflexivity|].
  split; [apply counted_download, Hc|].
  cbn [Sleep loopbackEnv srv wall latency]. apply counted_download, Hc.
Qed.

Lemma counted_upload_step config s0 lat downs ups (w : Loopback) :
  2 <= Size config <= 10737 ->
  hostOnly (Server config) = true ->
  lat <> 0 ->
  counted s0 lat (Size config * 1000000) downs ups w ->
  exists w' speed d,
    runUploadTest config w = (w', Measured speed d)
    /\ counted s0 lat (Size config * 1000000) downs (S ups) w'
    /\ counted s0 lat (Size config * 1000000) downs (S ups)
         (Sleep w' (500 * Millisecond)).
Proof.
  intros Hsize Hhost Hlat Hc.
  assert (Hl : latency w <> 0) by (destruct Hc as (-> & _); exact Hlat).
  rewrite (runUploadTest_loopback_ok config w Hsize Hhost Hl).
  eexists _, _, _. split; [reflexivity|].
  split; [apply counted_upload, Hc|].
  cbn [Sleep loopbackEnv srv wall latency]. apply counted_upload, Hc.
Qed.



Lemma peakKnown_mono s s' p :
  peakSeen s <= peakSeen s' -> peakKnown s p -> peakKnown s' p.
Proof. intros Hle. destruct p; cbn [peakKnown]; lia. Qed.

Lemma stepsLeft_mono k s s' p :
  peakSeen s <= peakSeen s' -> stepsLeft k s' p <= stepsLeft k s p.
Proof. intros Hle. destruct p; cbn [stepsLeft]; lia. Qed.

Lemma steady_start k : steady (startOf k).
Proof.
  split; [apply consistent_start|]. split; [cbn; lia|].
  cbn [startOf threads]. apply Forall_replicate. exact I.
Qed.

Lemma stepThread_steady t sys :
  Z.of_nat (length (threads sys)) <= maxInt64 ->
  steady sys ->
  steady (stepThread t sys)
  /\ stepsLeftOf (stepThread t sys) t <= Z.max 0 (stepsLeftOf sys t - 1).
Proof.
  intros Hfew (Hcons & Hpk0 & Hknown).
  destruct (stepThread_consistent t sys Hfew Hcons) as (Hcons' & Hlen' & Hmono).
  unfold steady. split; [split; [exact Hcons'|]|].
  - (* the peak facts *)
    unfold stepThread in *. destruct (threads sys !! t) as [p|] eqn:Hlook.
    2:{ split; assumption. }
    destruct Hcons as (Hnow & Hnh & Hph & Hhl & Hloc).
    destruct sys as [[c pk hi] ts].
    cbn [shared threads nowConcurrent peakSeen highWater] in *.
    pose proof (countInFlight_others ts t p Hlook) as Hothers.
    assert (Hp : localsBelow hi p).
    { rewrite Forall_forall in Hloc. apply Hloc. apply list_elem_of_lookup. eauto. }
    assert (Hq : peakKnown (mkShared c pk hi) p).
    { rewrite Forall_forall in Hknown. apply Hknown. apply list_elem_of_lookup. eauto. }
    destruct p; cbn [stepPc localsBelow peakKnown inFlight nowConcurrent peakSeen highWater] in *.
    + cbn [shared threads peakSeen]. split; [lia|].
      apply Forall_insert; [|exact I].
      eapply Forall_impl; [exact Hknown|]. intros q. apply peakKnown_mono. cbn; lia.
    + cbn [shared threads peakSeen]. split; [lia|].
      apply Forall_insert; [exact Hknown|]. cbn [peakKnown]. lia.
    + cbn [shared threads peakSeen]. split; [lia|].
      apply Forall_insert; [exact Hknown|]. unfold afterLoad.
      destruct (Z.gtb_spec current pk); cbn [peakKnown peakSeen]; lia.
    + destruct (Z.eqb_spec pk peak) as [->|Hne]; cbn [shared threads peakSeen].
      * split; [lia|]. apply Forall_insert; [|cbn [peakKnown peakSeen]; lia].
        eapply Forall_impl; [exact Hknown|]. intros q. apply peakKnown_mono.
        cbn [peakSeen]. lia.
      * split; [lia|]. apply Forall_insert; [exact Hknown|]. cbn [peakKnown]. lia.
    + cbn [shared threads peakSeen]. split; [lia|].
      apply Forall_insert; [exact Hknown|]. unfold afterLoad.
      destruct (Z.gtb_spec current pk); cbn [peakKnown peakSeen]; lia.
    + cbn [shared threads peakSeen]. split; [lia|].
      apply Forall_insert; [exact Hknown|]. cbn [peakKnown peakSeen]. lia.
    + cbn [shared threads peakSeen]. split; [lia|].
      apply Forall_insert; [|cbn [peakKnown peakSeen]; lia].
      eapply Forall_impl; [exact Hknown|]. intros q. apply peakKnown_mono. cbn; lia.
    + cbn [shared threads peakSeen]. split; [lia|].
      apply Forall_insert; [exact Hknown|]. cbn [peakKnown peakSeen]. lia.
  - (* the handler's own step *)
    unfold stepsLeftOf. rewrite Hlen'. clear Hcons' Hlen' Hmono.
    unfold stepThread. destruct (threads sys !! t) as [p|] eqn:Hlook.
    2:{ rewrite Hlook. lia. }
    destruct Hcons as (Hnow & Hnh & Hph & Hhl & Hloc).
    destruct sys as [[c pk hi] ts].
    cbn [shared threads nowConcurrent peakSeen highWater] in *.
    assert (Hp : localsBelow hi p).
    { rewrite Forall_forall in Hloc. apply Hloc. apply list_elem_of_lookup. eauto. }
    assert (Hq : peakKnown (mkShared c pk hi) p).
    { rewrite Forall_forall in Hknown. apply Hknown. apply list_elem_of_lookup. eauto. }
    assert (Ht : (t < length ts)%nat) by (apply lookup_lt_is_Some; eauto).
    set (K := Z.of_nat (length ts)) in *.
    destruct p; cbn [stepPc localsBelow peakKnown peakSeen] in *;
      try (cbn [shared threads]; rewrite list_lookup_insert_eq by exact Ht;
           cbn [stepsLeft]; lia).
    + cbn [shared threads]. rewrite list_lookup_insert_eq by exact Ht.
      unfold afterLoad. destruct (Z.gtb_spec current pk); cbn [stepsLeft]; lia.
    + destruct (Z.eqb_spec pk peak) as [->|Hne]; cbn [shared threads];
        rewrite list_lookup_insert_eq by exact Ht; cbn [stepsLeft peakSeen]; lia.
    + cbn [shared threads]. rewrite list_lookup_insert_eq by exact Ht.
      unfold afterLoad. destruct (Z.gtb_spec current pk); cbn [stepsLeft peakSeen]; lia.
Qed.

Lemma stepThread_others t j sys :
  Z.of_nat (length (threads sys)) <= maxInt64 ->
  steady sys ->
  j <> t ->
  stepsLeftOf (stepThread t sys) j <= stepsLeftOf sys j.
Proof.
  intros Hfew (Hcons & _) Hne.
  destruct (stepThread_consistent t sys Hfew Hcons) as (_ & Hlen' & Hmono).
  unfold stepsLeftOf. rewrite Hlen'.
  assert (Hsame : threads (stepThread t sys) !! j = threads sys !! j).
  { unfold stepThread. destruct (threads sys !! t) as [p|]; [|reflexivity].
    destruct (stepPc (shared sys) p) as [s' p']. cbn [threads].
    apply list_lookup_insert_ne. congruence. }
  rewrite Hsame. destruct (threads sys !! j) as [q|]; [|lia].
  apply stepsLeft_mono, Hmono.
Qed.

Lemma stepsLeftOf_finished sys j :
  steady sys ->
  (j < length (threads sys))%nat ->
  stepsLeftOf sys j <= 0 ->
  threads sys !! j = Some Finished.
Proof.
  intros (Hcons & Hpk0 & Hknown) Hj. unfold stepsLeftOf.
  destruct (lookup_lt_is_Some_2 (threads sys) j Hj) as [p Hlook]. rewrite Hlook.
  destruct Hcons as (_ & _ & _ & _ & Hloc).
  assert (Hp : localsBelow (highWater (shared sys)) p).
  { rewrite Forall_forall in Hloc. apply Hloc. apply list_elem_of_lookup. eauto. }
  destruct p; cbn [stepsLeft localsBelow] in *; intros; try lia. reflexivity.
Qed.

Lemma turns_cons j t schedule :
  turns j (t :: schedule)
  = (if decide (t = j) then S (turns j schedule) else turns j schedule).
Proof.
  unfold turns. rewrite filter_cons. destruct (decide (t = j)); reflexivity.
Qed.

Lemma runSchedule_stepsLeft j schedule : forall sys,
  Z.of_nat (length (threads sys)) <= maxInt64 ->
  steady sys ->
  steady (runSchedule schedule sys)
  /\ length (threads (runSchedule schedule sys)) = length (threads sys)
  /\ stepsLeftOf (runSchedule schedule sys) j
     <= Z.max 0 (stepsLeftOf sys j - Z.of_nat (turns j schedule)).
Proof.
  induction schedule as [|t schedule IH]; intros sys Hfew Hs.
  - cbn [runSchedule]. split; [exact Hs|]. split; [reflexivity|].
    change (turns j []) with O.
    assert (0 <= stepsLeftOf sys j); [|lia].
    unfold stepsLeftOf. destruct (threads sys !! j) as [p|] eqn:Hlook; [|lia].
    destruct Hs as (Hcons & Hpk0 & _).
    destruct Hcons as (_ & _ & _ & _ & Hloc).
    assert (Hp : localsBelow (highWater (shared sys)) p).
    { rewrite Forall_forall in Hloc. apply Hloc. apply list_elem_of_lookup. eauto. }
    destruct p; cbn [stepsLeft localsBelow] in *; lia.
  - cbn [runSchedule].
    destruct (stepThread_steady t sys Hfew Hs) as (Hs' & Hown).
    destruct Hs as (Hcons & Hrest).
    destruct (stepThread_consistent t sys Hfew Hcons) as (_ & Hlen' & _).
    destruct (IH (stepThread t sys)) as (Hs'' & Hlen'' & Hbound);
      [lia | exact Hs' |].
    split; [exact Hs''|]. split; [lia|].
    rewrite turns_cons. destruct (decide (t = j)) as [->|Hne].
    + lia.
    + pose proof (stepThread_others t j sys Hfew (conj Hcons Hrest) ltac:(congruence)).
      lia.
Qed.

Lemma allFinished_countInFlight ts :
  forallb (fun p => match p with Finished => true | _ => false end) ts = true ->
  countInFlight ts = 0.
Proof.
  induction ts as [|p ts IH]; [reflexivity|].
  cbn [forallb]. intros Hall. apply andb_true_iff in Hall as [Hp Hts].
  rewrite countInFlight_cons, (IH Hts). destruct p; try discriminate. reflexivity.
Qed.

Lemma runSchedule_steady (k : nat) schedule :
  Z.of_nat k <= maxInt64 ->
  steady (runSchedule schedule (startOf k))
  /\ length (threads (runSchedule schedule (startOf k))) = k.
Proof.
  intros Hfew.
  assert (Hk : length (threads (startOf k)) = k)
    by (cbn [startOf threads]; apply length_replicate).
  destruct (runSchedule_stepsLeft O schedule (startOf k)) as (Hs & Hlen & _);
    [lia | apply steady_start |].
  split; [exact Hs | lia].
Qed.

(** X15. The loop that updates the peak cannot spin for ever. With [k]
    accepted requests running side by side, whatever the interleaving of
    their atomic operations, a handler that gets [2k + 5] turns has finished:
    every failed compare-and-swap has seen the peak move up towards the
    handler's [current], which is [k] at most. *)
Theorem handler_finishes_within_bound (k : nat) schedule j :
  Z.of_nat k <= maxInt64 ->
  (j < k)%nat ->
  (2 * k + 5 <= turns j schedule)%nat ->
  threads (runSchedule schedule (startOf k)) !! j = Some Finished.
Proof.
  intros Hfew Hj Hturns.
  assert (Hk : length (threads (startOf k)) = k)
    by (cbn [startOf threads]; apply length_replicate).
  destruct (runSchedule_stepsLeft j schedule (startOf k)) as (Hs & Hlen & Hbound);
    [lia | apply steady_start |].
  apply stepsLeftOf_finished; [exact Hs | lia |].
  assert (Hstart : stepsLeftOf (startOf k) j = 2 * Z.of_nat k + 5).
  { unfold stepsLeftOf. rewrite Hk. cbn [startOf threads].
    rewrite lookup_replicate_2 by exact Hj. reflexivity. }
  rewrite Hstart in Hbound. lia.
Qed.

(** X16. [currentConcurrent] is the number of requests in flight, under
    every interleaving. With [k] accepted requests running side by side, at
    every point of every schedule the counter equals the number of handlers
    that have performed their increment and not yet their deferred
    decrement; it stays between 0 and [k], and it is back at 0 once all have
    returned. *)
Theorem counter_tracks_requests_in_flight (k : nat) schedule :
  Z.of_nat k <= maxInt64 ->
  let sys := runSchedule schedule (startOf k) in
  nowConcurrent (shared sys) = countInFlight (threads sys)
  /\ 0 <= nowConcurrent (shared sys) <= Z.of_nat k
  /\ (allFinished sys = true -> nowConcurrent (shared sys) = 0).
Proof.
  intros Hfew sys.
  destruct (runSchedule_steady k schedule Hfew) as (((Hnow & _) & _) & Hlen).
  fold sys in Hnow, Hlen.
  pose proof (countInFlight_range (threads sys)) as Hrange. rewrite Hlen in Hrange.
  split; [exact Hnow|]. split; [lia|].
  intros Hall. rewrite Hnow. apply allFinished_countInFlight, Hall.
Qed.

(** X17. What the peak is good for. Under every interleaving of [k] accepted
    requests, once any one handler has left the loop that updates the peak,
    [peakConcurrent] is at least 1; and it never overstates: it is at most
    the highest value [currentConcurrent] has held, which is at most [k]. *)
Theorem peak_between_one_and_high_water (k : nat) schedule j p :
  Z.of_nat k <= maxInt64 ->
  let sys := runSchedule schedule (startOf k) in
  threads sys !! j = Some p ->
  pastLoop p = true ->
  1 <= peakSeen (shared sys) <= highWater (shared sys)
  /\ highWater (shared sys) <= Z.of_nat k.
Proof.
  intros Hfew sys Hlook Hpast.
  destruct (runSchedule_steady k schedule Hfew)
    as (((_ & _ & Hph & Hhl & _) & _ & Hknown) & Hlen).
  fold sys in Hph, Hhl, Hknown, Hlen. rewrite Hlen in Hhl.
  assert (Hq : peakKnown (shared sys) p).
  { rewrite Forall_forall in Hknown. apply Hknown. apply list_elem_of_lookup. eauto. }
  destruct p; try discriminate; cbn [peakKnown] in Hq; lia.
Qed.

Lemma handler_finishes_within_bound_witness :
  threads (runSchedule [1; 0; 1; 1; 0; 1; 1; 1; 1; 1; 1; 0]%nat (startOf 2))
    !! 1%nat = Some Finished.
Proof.
  apply (handler_finishes_within_bound 2
           [1; 0; 1; 1; 0; 1; 1; 1; 1; 1; 1; 0]%nat 1).
  - unfold maxInt64. lia.
  - lia.
  - vm_compute. lia.
Defined.

Lemma counter_tracks_requests_in_flight_witness :
  nowConcurrent (shared (runSchedule [0; 1; 1; 0; 2]%nat (startOf 3)))
  = countInFlight (threads (runSchedule [0; 1; 1; 0; 2]%nat (startOf 3))).
Proof.
  exact (proj1 (counter_tracks_requests_in_flight 3 [0; 1; 1; 0; 2]%nat
                  ltac:(unfold maxInt64; lia))).
Defined.

Lemma peak_between_one_and_high_water_witness :
  1 <= peakSeen (shared (runSchedule overlappingPair (startOf 2)))
    <= highWater (shared (runSchedule overlappingPair (startOf 2)))
  /\ highWater (shared (runSchedule overlappingPair (startOf 2))) <= Z.of_nat 2.
Proof.
  apply (peak_between_one_and_high_water 2 overlappingPair 0 Finished).
  - unfold maxInt64. lia.
  - reflexivity.
  - reflexivity.
Defined.

Example swap_retried :
  threads (runSchedule [0; 0; 0; 1; 1; 1; 1; 0; 0]%nat (startOf 2))
  = [AtTransfer; AtTransfer]
  /\ peakSeen (shared (runSchedule [0; 0; 0; 1; 1; 1; 1; 0; 0]%nat (startOf 2)))
     = 2
  /\ threads (runSchedule [0; 0; 0; 1; 1; 1; 1; 0]%nat (startOf 2)) !! 0%nat
     = Some (AtReload 1).
Proof. repeat split; vm_compute; reflexivity. Qed.

(** ** [float64] between a byte count and its text *)

Lemma roundHalfEven_scale a d c :
  0 < d -> 0 < c -> roundHalfEven (a * c) (d * c) = roundHalfEven a d.
Proof.
  intros Hd Hc. unfold roundHalfEven. cbv zeta.
  rewrite Z.div_mul_cancel_r by lia.
  rewrite Z.mul_mod_distr_r by lia.
  destruct (Z.ltb_spec (2 * (a mod d * c)) (d * c)),
    (Z.ltb_spec (2 * (a mod d)) d); try nia; try reflexivity.
  destruct (Z.gtb_spec (2 * (a mod d * c)) (d * c)),
    (Z.gtb_spec (2 * (a mod d)) d); try nia; reflexivity.
Qed.

Lemma digits2_pos_bounds p :
  2 ^ (Z.pos (digits2_pos p) - 1) <= Z.pos p < 2 ^ Z.pos (digits2_pos p).
Proof.
  induction p as [p IH|p IH|]; cbn [digits2_pos].
  - rewrite Pos2Z.inj_succ.
    replace (Z.succ (Z.pos (digits2_pos p)) - 1) with (Z.succ (Z.pos (digits2_pos p) - 1)) by lia.
    rewrite !Z.pow_succ_r by lia. lia.
  - rewrite Pos2Z.inj_succ.
    replace (Z.succ (Z.pos (digits2_pos p)) - 1) with (Z.succ (Z.pos (digits2_pos p) - 1)) by lia.
    rewrite !Z.pow_succ_r by lia. lia.
  - cbn. lia.
Qed.

Lemma digits2_pos_unique p d :
  2 ^ (d - 1) <= Z.pos p < 2 ^ d -> Z.pos (digits2_pos p) = d.
Proof.
  intros [Hlo Hhi]. pose proof (digits2_pos_bounds p) as [Blo Bhi].
  assert (Hd : 0 < d).
  { destruct d as [|d|d]; [cbn in Hhi; lia | lia |].
    rewrite Z.pow_neg_r in Hhi by lia. lia. }
  destruct (Z.lt_trichotomy (Z.pos (digits2_pos p)) d) as [Hlt|[Heq|Hgt]];
    [|exact Heq|].
  - assert (2 ^ Z.pos (digits2_pos p) <= 2 ^ (d - 1))
      by (apply Z.pow_le_mono_r; lia). lia.
  - assert (2 ^ d <= 2 ^ (Z.pos (digits2_pos p) - 1))
      by (apply Z.pow_le_mono_r; lia). lia.
Qed.

(** A mantissa of 53 binary digits at an exponent in range is a float as
    it stands. *)
Lemma binary_round_aux_53 mz e :
  Z.pos (digits2_pos mz) = 53 ->
  -1074 <= e <= 971 ->
  binary_round_aux prec emax false (Z.pos mz) e loc_Exact = S754_finite false mz e.
Proof.
  intros Hd He. unfold binary_round_aux, shr_fexp.
  cbn [Zdigits2 shr_record_of_loc]. rewrite Hd.
  assert (Hf : fexp prec emax (53 + e) - e = 0).
  { unfold fexp, SpecFloat.emin, prec, emax.
    change IntDef.Z.max with Z.max. lia. }
  rewrite Hf. cbn [shr shr_m loc_of_shr_record round_nearest_even Zdigits2].
  rewrite Hd, Hf. cbn [shr shr_m].
  unfold emax, prec. destruct (Z.leb_spec e (1024 - 53)); [reflexivity|lia].
Qed.

(** One digit more, a zero at the end: the float drops it. *)
Lemma binary_round_aux_54 mz e :
  Z.pos (digits2_pos mz) = 53 ->
  -1075 <= e <= 970 ->
  binary_round_aux prec emax false (Z.pos mz~0) e loc_Exact
  = S754_finite false mz (e + 1).
Proof.
  intros Hd He. unfold binary_round_aux, shr_fexp.
  cbn [Zdigits2 shr_record_of_loc digits2_pos]. rewrite Pos2Z.inj_succ, Hd.
  assert (Hf : fexp prec emax (Z.succ 53 + e) - e = 1).
  { unfold fexp, SpecFloat.emin, prec, emax.
    change IntDef.Z.max with Z.max. lia. }
  rewrite Hf.
  cbn [shr SpecFloat.iter_pos shr_1 shr_m shr_r shr_s orb loc_of_shr_record
       round_nearest_even Zdigits2].
  rewrite Hd.
  assert (Hf' : fexp prec emax (53 + (e + 1)) - (e + 1) = 0).
  { unfold fexp, SpecFloat.emin, prec, emax.
    change IntDef.Z.max with Z.max. lia. }
  rewrite Hf'. cbn [shr shr_m].
  unfold emax, prec. destruct (Z.leb_spec (e + 1) (1024 - 53)); [reflexivity|lia].
Qed.

(** The float of a positive integer below [2^53] is the integer: the
    mantissa is the integer shifted up to 53 digits. *)
Lemma binary_normalize_exact p :
  Z.pos p < 2 ^ 53 ->
  exists mz ez,
    binary_normalize prec emax (Z.pos p) 0 false = S754_finite false mz ez
    /\ Z.pos (digits2_pos mz) = 53
    /\ -52 <= ez <= 0
    /\ Z.pos mz = Z.pos p * 2 ^ (- ez).
Proof.
  intros Hp. pose proof (digits2_pos_bounds p) as [Blo Bhi].
  assert (Hd : Z.pos (digits2_pos p) <= 53).
  { destruct (Z.leb_spec (Z.pos (digits2_pos p)) 53); [assumption|].
    assert (2 ^ 53 <= 2 ^ (Z.pos (digits2_pos p) - 1))
      by (apply Z.pow_le_mono_r; lia). lia. }
  unfold binary_normalize, binary_round, shl_align.
  assert (Hf : fexp prec emax (Z.pos (digits2_pos p) + 0) - 0
               = Z.pos (digits2_pos p) - 53).
  { unfold fexp, SpecFloat.emin, prec, emax.
    change IntDef.Z.max with Z.max. lia. }
  assert (Hf' : fexp prec emax (Z.pos (digits2_pos p) + 0)
               = Z.pos (digits2_pos p) - 53) by lia.
  rewrite Hf, Hf'.
  destruct (Z.pos (digits2_pos p) - 53) as [|q|q] eqn:Hq; [|lia|].
  - exists p, 0. rewrite binary_round_aux_53 by lia.
    repeat split; try lia. 
  - assert (Hshift : Z.pos (PosDef.Pos.iter xO p q) = 2 ^ Z.pos q * Z.pos p).
    { exact (shift_pos_correct q p). }
    exists (PosDef.Pos.iter xO p q), (Z.neg q).
    assert (Hdig : Z.pos (digits2_pos (PosDef.Pos.iter xO p q)) = 53).
    { apply digits2_pos_unique. rewrite Hshift.
      replace 53 with (Z.pos q + Z.pos (digits2_pos p)) by lia.
      replace (Z.pos q + Z.pos (digits2_pos p) - 1)
        with (Z.pos q + (Z.pos (digits2_pos p) - 1)) by lia.
      rewrite !Z.pow_add_r by lia.
      assert (0 < 2 ^ Z.pos q) by (apply Z.pow_pos_nonneg; lia). nia. }
    rewrite binary_round_aux_53 by lia.
    repeat split; try lia. rewrite Hshift.
    change (- Z.neg q) with (Z.pos q). apply Z.mul_comm.
Qed.

(** Dividing by a power of two only moves the exponent. *)
Lemma SFdiv_pow2 mx ex ey :
  Z.pos (digits2_pos mx) = 53 ->
  -52 <= ex <= 0 ->
  -52 <= ey <= 0 ->
  SFdiv prec emax (S754_finite false mx ex)
    (S754_finite false 4503599627370496 ey)
  = S754_finite false mx (ex - ey - 52).
Proof.
  intros Hd Hex Hey. unfold SFdiv, SFdiv_core_binary.
  cbn [Zdigits2 xorb]. rewrite Hd.
  change (Z.pos (digits2_pos 4503599627370496)) with 53.
  assert (He' : IntDef.Z.min (fexp prec emax (53 + ex - (53 + ey))) (ex - ey)
                = ex - ey - 53).
  { unfold fexp, SpecFloat.emin, prec, emax.
    change IntDef.Z.max with Z.max. change IntDef.Z.min with Z.min. lia. }
  rewrite He'. cbv zeta.
  replace (ex - ey - (ex - ey - 53)) with 53 by lia.
  cbv iota.
  assert (Hdiv : IntDef.Z.div_eucl (IntDef.Z.shiftl (Z.pos mx) 53)
                   (Z.pos 4503599627370496)
                 = (Z.pos mx~0, 0)).
  { change IntDef.Z.div_eucl with Z.div_eucl.
    change IntDef.Z.shiftl with Z.shiftl.
    rewrite Z.shiftl_mul_pow2 by lia.
    pose proof (Z.div_eucl_eq (Z.pos mx * 2 ^ 53) 4503599627370496 ltac:(lia)) as Heq.
    pose proof (Z.mod_pos_bound (Z.pos mx * 2 ^ 53) 4503599627370496 ltac:(lia)) as Hmod.
    unfold Z.modulo in Hmod.
    destruct (Z.div_eucl (Z.pos mx * 2 ^ 53) 4503599627370496) as [q r].
    change (2 ^ 53) with (4503599627370496 * 2) in Heq.
    assert (q = Z.pos mx~0 /\ r = 0) as [-> ->]; [|reflexivity].
    rewrite Pos2Z.inj_xO. nia. }
  rewrite Hdiv.
  change (new_location (Z.pos 4503599627370496) 0) with loc_Exact.
  rewrite binary_round_aux_54 by lia.
  f_equal. lia.
Qed.

Lemma to_Z_of_Z_small z : 0 <= z < 2 ^ 63 -> Uint63.to_Z (Uint63.of_Z z) = z.
Proof.
  intros Hz. rewrite Uint63.of_Z_spec. apply Z.mod_small.
  change Uint63.wB with (2 ^ 63). lia.
Qed.

(** [float64(b) / 2^k] for a count [b] below [2^53], as the float holds it:
    a mantissa and an exponent whose value is the quotient itself. *)
Lemma quotient_by_unit b unit ey :
  0 < b < 2 ^ 53 ->
  Prim2SF unit = S754_finite false 4503599627370496 ey ->
  -52 < ey <= 0 ->
  exists mz e,
    Prim2SF (PrimFloat.div (float64_of_int64 b) unit) = S754_finite false mz e
    /\ e < 0
    /\ Z.pos mz * 2 ^ (ey + 52) = b * 2 ^ (- e).
Proof.
  intros Hb Hunit Hey. rewrite div_spec. unfold SF64div. rewrite Hunit.
  unfold float64_of_int64.
  destruct (Z.eqb_spec b minInt64) as [He|_]; [unfold minInt64 in He; lia|].
  destruct (Z.ltb_spec b 0); [lia|].
  rewrite of_uint63_spec, to_Z_of_Z_small by lia.
  destruct b as [|p|p]; try lia.
  destruct (binary_normalize_exact p ltac:(lia)) as (mz & ez & Hn & Hd & Hez & Hm).
  rewrite Hn, (SFdiv_pow2 mz ez ey Hd Hez ltac:(lia)).
  exists mz, (ez - ey - 52). split; [reflexivity|]. split; [lia|].
  rewrite Hm.
  replace (- (ez - ey - 52)) with (- ez + (ey + 52)) by lia.
  rewrite (Z.pow_add_r 2 (- ez) (ey + 52)) by lia. ring.
Qed.

Lemma FormatFloat_quotient b unit ey :
  0 < b < 2 ^ 53 ->
  Prim2SF unit = S754_finite false 4503599627370496 ey ->
  -52 < ey <= 0 ->
  FormatFloat 2 (PrimFloat.div (float64_of_int64 b) unit)
  = hundredths b (2 ^ (ey + 52)).
Proof.
  intros Hb Hunit Hey.
  destruct (quotient_by_unit b unit ey Hb Hunit Hey) as (mz & e & Hq & He & Hv).
  unfold FormatFloat, hundredths. rewrite Hq.
  destruct (Z.leb_spec 0 e); [lia|].
  change (10 ^ Z.of_nat 2) with 100.
  change ("" ++ ?s) with s. f_equal.
  assert (Hk : 0 < 2 ^ (ey + 52)) by (apply Z.pow_pos_nonneg; lia).
  assert (He' : 0 < 2 ^ (- e)) by (apply Z.pow_pos_nonneg; lia).
  rewrite <- (roundHalfEven_scale (Z.pos mz * 100) (2 ^ (- e)) (2 ^ (ey + 52)) He' Hk).
  rewrite <- (roundHalfEven_scale (b * 100) (2 ^ (ey + 52)) (2 ^ (- e)) Hk He').
  f_equal; [|ring].
  replace (Z.pos mz * 100 * 2 ^ (ey + 52)) with (Z.pos mz * 2 ^ (ey + 52) * 100) by ring.
  rewrite Hv. ring.
Qed.

(** X18. [formatBytes] loses nothing to [float64]. For every count below
    [2^53] the text is the count divided by the unit and rounded to
    hundredths exactly, ties to even, as if no floating-point number stood
    between the count and the text: GB from [2^30] on, MB from [2^20], KB
    from [2^10], and the plain count with " B" below that, negative counts
    included. The unit is chosen before rounding, so a count just under
    the next unit prints as 1024.00 of the smaller one. *)
Theorem formatBytes_prints_exact_hundredths b :
  b < 2 ^ 53 ->
  formatBytes b =
    (if b >=? 2 ^ 30 then hundredths b (2 ^ 30) ++ " GB"
     else if b >=? 2 ^ 20 then hundredths b (2 ^ 20) ++ " MB"
     else if b >=? 2 ^ 10 then hundredths b (2 ^ 10) ++ " KB"
     else FormatInt b ++ " B").
Proof.
  intros Hb. unfold formatBytes. cbv zeta.
  change (1024 * 1024 * 1024) with (2 ^ 30).
  change (1024 * 1024) with (2 ^ 20).
  change 1024 with (2 ^ 10).
  destruct (Z.geb_spec b (2 ^ 30)) as [Hg|Hg].
  { rewrite (FormatFloat_quotient b (float64_of_int64 (2 ^ 30)) (-22));
      [reflexivity|lia|reflexivity|lia]. }
  destruct (Z.geb_spec b (2 ^ 20)) as [Hm|Hm].
  { rewrite (FormatFloat_quotient b (float64_of_int64 (2 ^ 20)) (-32));
      [reflexivity|lia|reflexivity|lia]. }
  destruct (Z.geb_spec b (2 ^ 10)) as [Hk|Hk].
  { rewrite (FormatFloat_quotient b (float64_of_int64 (2 ^ 10)) (-42));
      [reflexivity|lia|reflexivity|lia]. }
  reflexivity.
Qed.

Lemma formatBytes_prints_exact_hundredths_witness :
  formatBytes 1048575 =
    (if 1048575 >=? 2 ^ 30 then hundredths 1048575 (2 ^ 30) ++ " GB"
     else if 1048575 >=? 2 ^ 20 then hundredths 1048575 (2 ^ 20) ++ " MB"
     else if 1048575 >=? 2 ^ 10 then hundredths 1048575 (2 ^ 10) ++ " KB"
     else FormatInt 1048575 ++ " B").
Proof. apply (formatBytes_prints_exact_hundredths 1048575). lia. Defined.

Example formatBytes_samples :
  formatBytes minBytes = "1.00 MB"
  /\ formatBytes maxBytes = "10.00 GB"
  /\ formatBytes 1048575 = "1024.00 KB"
  /\ formatBytes 1500000 = "1.43 MB"
  /\ formatBytes 1023 = "1023 B"
  /\ formatBytes (-5) = "-5 B"
  /\ ParseError_Error BytesOutOfRange
     = "bytes must be between " ++ formatBytes minBytes ++ " and "
         ++ formatBytes maxBytes.
Proof. repeat split; vm_compute; reflexivity. Qed.

Lemma runDownloadTest_sent config (w : Script) :
  sent (fst (runDownloadTest config w)) = (sent w ++ [downloadRequestOf config])%list
  /\ pending (fst (runDownloadTest config w)) = tl (pending w).
Proof.
  unfold runDownloadTest, http_NewRequest, downloadRequestOf. cbv zeta.
  cbn [urlParses Do Drain Now scriptEnv]. unfold scriptDo.
  destruct (pending w) as [|ex rest]; [split; reflexivity|].
  destruct (exOk ex); [|split; reflexivity].
  cbn [StatusCode RespBody].
  destruct (negb (exStatus ex =? StatusOK)); [split; reflexivity|].
  destruct (bodyErr (exBody ex)); [split; reflexivity|].
  cbn [clock pending sent].
  match goal with |- context [if ?b then _ else _] => destruct b end;
    split; reflexivity.
Qed.

Lemma runUploadTest_sent config (w : Script) :
  (snd (runUploadTest config w) = Panicked /\ fst (runUploadTest config w) = w)
  \/ (snd (runUploadTest config w) <> Panicked
      /\ sent (fst (runUploadTest config w))
         = (sent w ++ [uploadRequestOf config])%list
      /\ pending (fst (runUploadTest config w)) = tl (pending w)).
Proof.
  unfold runUploadTest, http_NewRequest, Header_SetContentType, uploadRequestOf.
  cbv zeta. cbn [urlParses Do Drain Now scriptEnv].
  destruct (declaredBytes config <? 0); [left; split; reflexivity|right].
  cbn [outMethod outURL outBodyLen]. unfold scriptDo.
  destruct (pending w) as [|ex rest]; [repeat split; discriminate|].
  destruct (exOk ex); [|repeat split; discriminate].
  cbn [StatusCode RespBody].
  destruct (negb (exStatus ex =? StatusOK)); [repeat split; discriminate|].
  cbn [clock pending sent].
  match goal with |- context [if ?b then _ else _] => destruct b end;
    repeat split; discriminate.
Qed.

Lemma drop_tl {A} (l : list A) k : drop k (tl l) = drop (S k) l.
Proof. destruct l; [destruct k; reflexivity|reflexivity]. Qed.

Lemma pause_script config i (w : Script) :
  sent (pause config i w) = sent w /\ pending (pause config i w) = pending w.
Proof. unfold pause. destruct (i <? Count config - 1); split; reflexivity. Qed.

Lemma bothLoop_sent config n : forall i (r : @Run Script) downs ups totalTime,
  let res := bothLoop config n i r downs ups totalTime in
  exists k,
    (k <= 2 * n)%nat
    /\ sent (world (bothEnd res)) = (sent (world r) ++ take k (rounds n config))%list
    /\ pending (world (bothEnd res)) = drop k (pending (world r))
    /\ (forall x, res = inr x -> k = (2 * n)%nat).
Proof.
  induction n as [|n IH]; intros i r downs ups totalTime; cbv zeta.
  - exists O. cbn [bothLoop bothEnd rounds replicate concat take].
    rewrite app_nil_r. repeat split. lia.
  - cbn [bothLoop].
    destruct (runDownloadTest_sent config (world r)) as [Hs1 Hp1].
    destruct (runDownloadTest config (world r)) as [w1 res1]. cbn [fst] in Hs1, Hp1.
    assert (Hone : sent w1 = (sent (world r) ++ take 1 (rounds (S n) config))%list
                   /\ pending w1 = drop 1 (pending (world r))).
    { split; [exact Hs1|]. rewrite Hp1. destruct (pending (world r)); reflexivity. }
    destruct res1 as [downSpeed downDur|err|];
      [|exists 1%nat; cbn [bothEnd world printLine];
        split; [lia|split; [apply Hone|split; [apply Hone|discriminate]]]..].
    cbn [world printed alive].
    destruct (runUploadTest_sent config w1) as [[Hpanic Hsame]|(Hnp & Hs2 & Hp2)].
    + destruct (runUploadTest config w1) as [w2 res2]. cbn [fst snd] in Hpanic, Hsame.
      subst res2 w2. exists 1%nat. cbn [bothEnd world].
      split; [lia|split; [apply Hone|split; [apply Hone|discriminate]]].
    + destruct (runUploadTest config w1) as [w2 res2]. cbn [fst snd] in Hnp, Hs2, Hp2.
      assert (Htwo : sent w2 = (sent (world r) ++ take 2 (rounds (S n) config))%list
                     /\ pending w2 = drop 2 (pending (world r))).
      { split.
        - rewrite Hs2, Hs1, <- app_assoc. reflexivity.
        - rewrite Hp2, Hp1. destruct (pending (world r)) as [|a [|b l]]; reflexivity. }
      destruct res2 as [upSpeed upDur|err|]; [|exists 2%nat|congruence].
      2:{ cbn [bothEnd world printLine].
          split; [lia|split; [apply Htwo|split; [apply Htwo|discriminate]]]. }
      cbn [world printed alive printLine].
      match goal with
      | |- context [bothLoop config n (i + 1) ?r1 ?a1 ?b1 ?t1] =>
          destruct (IH (i + 1) r1 a1 b1 t1) as (k & Hk & Hs & Hp & Hfull);
          cbv zeta in Hs, Hp, Hfull; cbn [world] in Hs, Hp
      end.
      destruct (pause_script config i w2) as [Hps Hpp].
      rewrite Hps in Hs. rewrite Hpp in Hp.
      exists (2 + k)%nat. split; [lia|]. split; [|split].
      * rewrite Hs. destruct Htwo as [-> _]. rewrite <- app_assoc. reflexivity.
      * rewrite Hp. destruct Htwo as [_ ->]. rewrite drop_drop. f_equal.
      * intros x Hx. rewrite (Hfull x Hx). lia.
Qed.

(** X19. In direction both the requests go out in rounds, a download and
    then its upload. Over any scripted network, [runBothTests] sends a prefix
    of [count] rounds of (GET /__down, POST /__up), each request with the
    same URL and size, and takes one exchange of the script per request;
    nothing is sent after the test that ends the run. All [2 * count]
    requests are sent unless the run stopped at a failed test or died. *)
Theorem both_sends_download_then_upload config (r : @Run Script) :
  0 <= Count config ->
  let n := Z.to_nat (Count config) in
  let r' := runBothTests config r in
  let before := (printed r ++ [LHeadBoth; LRule 30])%list in
  exists k,
    (k <= 2 * n)%nat
    /\ sent (world r') = (sent (world r) ++ take k (rounds n config))%list
    /\ pending (world r') = drop k (pending (world r))
    /\ (k = (2 * n)%nat
        \/ stoppedBy "download test" runDownloadTest config n 0 before r'
        \/ stoppedBy "upload test" runUploadTest config n 0 before r'
        \/ crashedBy runUploadTest config n before r').
Proof.
  intros _ n r' before. subst r'. unfold runBothTests. cbv zeta. fold n.
  pose proof (bothLoop_sent config n 0
                (printLine (printLine r LHeadBoth) (LRule 30))
                (replicate n 0%float) (replicate n 0%float) 0) as Hsent.
  pose proof (bothLoop_ends config n 0
                (printLine (printLine r LHeadBoth) (LRule 30))
                (replicate n 0%float) (replicate n 0%float) 0) as Hends.
  cbv zeta in Hsent. cbn [world printLine printed] in Hsent, Hends.
  rewrite <- app_assoc in Hends. cbn [app] in Hends. fold before in Hends.
  destruct (bothLoop config n 0 _ _ _ 0) as [r1|[[[r1 dd] uu] tt]].
  - destruct Hsent as (k & Hk & Hs & Hp & _). cbn [bothEnd] in Hs, Hp.
    exists k. split; [exact Hk|]. split; [exact Hs|]. split; [exact Hp|].
    destruct Hends as [Hend|[Hend|[Hend|Hend]]]; [tauto|tauto| |tauto].
    destruct Hend as (rows & w & _ & _ & Hrun & _).
    destruct (runDownloadTest_no_panic config w). rewrite Hrun. reflexivity.
  - destruct Hsent as (k & Hk & Hs & Hp & Hfull). cbn [bothEnd] in Hs, Hp.
    exists k. split; [exact Hk|]. split; [exact Hs|]. split; [exact Hp|].
    left. exact (Hfull _ eq_refl).
Qed.

(** ** The pauses between the tests *)

Lemma sumDurations_cons d ds tt :
  fold_left add64 (d :: ds) tt = fold_left add64 ds (add64 tt d).
Proof. reflexivity. Qed.

Lemma seriesLoop_clock (runTest : Config -> Script -> Script * Outcome) config :
  (forall w w' speed d,
     runTest config w = (w', Measured speed d) -> d = clock w' - clock w) ->
  forall n i (r : @Run Script) speeds totalTime,
    i + Z.of_nat n = Count config ->
    match seriesLoop runTest config n i r speeds totalTime with
    | inl _ => True
    | inr (r', _, totalTime') =>
        exists ds,
          length ds = n
          /\ totalTime' = fold_left add64 ds totalTime
          /\ clock (world r')
             = clock (world r) + sumZ ds
               + 500 * Millisecond * Z.of_nat (Nat.pred n)
    end.
Proof.
  intros Hmeas. induction n as [|n IH]; intros i r speeds totalTime Hi.
  - cbn [seriesLoop]. exists []. cbn. repeat split. lia.
  - cbn [seriesLoop].
    destruct (runTest config (world r)) as [w res] eqn:Hrun.
    destruct res as [speed d|err|]; [|exact I|exact I].
    cbn [world printed alive printLine].
    pose proof (Hmeas _ _ _ _ Hrun) as Hd.
    match goal with
    | |- context [seriesLoop runTest config n (i + 1) ?r1 ?s1 ?t1] =>
        specialize (IH (i + 1) r1 s1 t1 ltac:(lia));
        destruct (seriesLoop runTest config n (i + 1) r1 s1 t1)
          as [r'|[[r' sp] tt]]; [exact I|]
    end.
    destruct IH as (ds & Hlen & Htt & Hclock). cbn [world] in Hclock.
    exists (d :: ds). cbn [length]. split; [lia|]. split; [exact Htt|].
    rewrite Hclock. cbn [sumZ fold_right]. fold (sumZ ds).
    unfold pause. destruct (Z.ltb_spec i (Count config - 1)) as [Hlt|Hge].
    + cbn [Sleep scriptEnv clock].
      destruct n as [|n]; [lia|]. cbn [Nat.pred]. lia.
    + destruct n as [|n]; [|lia]. cbn [Nat.pred]. lia.
Qed.

Lemma runSeries_timed direction
    (runTest : Config -> Script -> Script * Outcome) config (r : @Run Script) :
  (forall w w' speed d,
     runTest config w = (w', Measured speed d) -> d = clock w' - clock w) ->
  1 <= Count config ->
  let n := Z.to_nat (Count config) in
  let before := (printed r ++ [LHead direction; LRule 18])%list in
  let r' := runSeries direction runTest config r in
  stoppedBy "test" runTest config n 0 before r'
  \/ crashedBy runTest config n before r'
  \/ timed config r r'.
Proof.
  intros Hmeas Hcount n before r'. subst r'. unfold runSeries. cbv zeta. fold n.
  pose proof (seriesLoop_ends runTest config n 0
                (printLine (printLine r (LHead direction)) (LRule 18))
                (replicate n 0%float) 0) as Hends.
  pose proof (seriesLoop_clock runTest config Hmeas n 0
                (printLine (printLine r (LHead direction)) (LRule 18))
                (replicate n 0%float) 0 ltac:(lia)) as Hclock.
  cbn [world printLine printed] in Hends, Hclock.
  rewrite <- app_assoc in Hends. cbn [app] in Hends. fold before in Hends.
  destruct (seriesLoop runTest config n 0 _ _ 0) as [r1|[[r1 sp] tt]].
  - destruct Hends as [Hend|Hend]; [left; exact Hend|right; left; exact Hend].
  - right. right. destruct Hclock as (ds & Hlen & -> & Hclock).
    exists ds. split; [exact Hlen|]. split.
    + cbn [printLine printed]. rewrite last_snoc. reflexivity.
    + cbn [printLine world]. rewrite Hclock. subst n.
      replace (Z.of_nat (Nat.pred (Z.to_nat (Count config))))
        with (Count config - 1) by lia. reflexivity.
Qed.

Lemma runDownloadTest_elapsed {W : Type} `{Env W} config (w w' : W) speed d :
  runDownloadTest config w = (w', Measured speed d) -> d = Now w' - Now w.
Proof.
  unfold runDownloadTest. cbv zeta.
  destruct (http_NewRequest MethodGet (downloadURL config) 0) as [req|]; [|discriminate].
  destruct (Do w req) as [w1 [resp|]]; [|discriminate].
  destruct (negb (StatusCode resp =? StatusOK)); [discriminate|].
  destruct (bodyErr (RespBody resp)); [discriminate|].
  destruct (Now (Drain w1 resp) - Now w =? 0); [discriminate|].
  intros [= <- _ <-]. reflexivity.
Qed.

Lemma runUploadTest_elapsed {W : Type} `{Env W} config (w w' : W) speed d :
  runUploadTest config w = (w', Measured speed d) -> d = Now w' - Now w.
Proof.
  intros Hrun.
  destruct (runUploadTest_measured config w w' speed d Hrun)
    as (req & resp & _ & _ & _ & _ & Hd & _). exact Hd.
Qed.

(** X20. The series pauses between tests, not after the last, and the total
    it prints leaves the pauses out. Over a scripted network, a one-direction
    series of [count] tests that runs to its end prints as total the summed
    durations of the tests, while the clock has moved by that sum and by
    [count - 1] pauses of 500 ms. *)
Theorem total_time_leaves_out_the_pauses config (r : @Run Script) :
  1 <= Count config ->
  let n := Z.to_nat (Count config) in
  (stoppedBy "test" runDownloadTest config n 0
     (printed r ++ [LHead directionDown; LRule 18]) (runDownloadTests config r)
   \/ timed config r (runDownloadTests config r))
  /\ (stoppedBy "test" runUploadTest config n 0
        (printed r ++ [LHead directionUp; LRule 18]) (runUploadTests config r)
      \/ crashedBy runUploadTest config n
           (printed r ++ [LHead directionUp; LRule 18]) (runUploadTests config r)
      \/ timed config r (runUploadTests config r)).
Proof.
  intros Hcount n. split.
  - destruct (runSeries_timed directionDown (@runDownloadTest Script scriptEnv) config r
                (fun w w' speed d Hrun =>
                   (@runDownloadTest_elapsed Script scriptEnv config w w' speed d Hrun
                    : d = clock w' - clock w))
                Hcount) as [Hend|[Hend|Hend]]; [left; exact Hend| |right; exact Hend].
    destruct Hend as (rows & w & _ & _ & Hrun & _).
    destruct (runDownloadTest_no_panic config w). rewrite Hrun. reflexivity.
  - exact (runSeries_timed directionUp (@runUploadTest Script scriptEnv) config r
             (fun w w' speed d Hrun =>
                (@runUploadTest_elapsed Script scriptEnv config w w' speed d Hrun
                 : d = clock w' - clock w))
             Hcount).
Qed.

Lemma both_sends_download_then_upload_witness :
  exists k,
    (k <= 2 * 2)%nat
    /\ sent (world (runBothTests (sampleConfig directionBoth 2 10)
                      (mkRun (scriptOf [goodExchange; serverErrorExchange;
                                        goodExchange]) [] true)))
       = take k (rounds 2 (sampleConfig directionBoth 2 10))
    /\ pending (world (runBothTests (sampleConfig directionBoth 2 10)
                         (mkRun (scriptOf [goodExchange; serverErrorExchange;
                                           goodExchange]) [] true)))
       = drop k [goodExchange; serverErrorExchange; goodExchange].
Proof.
  destruct (both_sends_download_then_upload (sampleConfig directionBoth 2 10)
              (mkRun (scriptOf [goodExchange; serverErrorExchange; goodExchange])
                 [] true) ltac:(cbn; lia))
    as (k & Hk & Hs & Hp & _).
  exists k. repeat split; assumption.
Defined.

Lemma total_time_leaves_out_the_pauses_witness :
  stoppedBy "test" runDownloadTest (sampleConfig directionDown 3 10) 3 0
    [LHead directionDown; LRule 18]
    (runDownloadTests (sampleConfig directionDown 3 10)
       (mkRun (scriptOf [goodExchange; goodExchange; goodExchange]) [] true))
  \/ timed (sampleConfig directionDown 3 10)
       (mkRun (scriptOf [goodExchange; goodExchange; goodExchange]) [] true)
       (runDownloadTests (sampleConfig directionDown 3 10)
          (mkRun (scriptOf [goodExchange; goodExchange; goodExchange]) [] true)).
Proof.
  exact (proj1 (total_time_leaves_out_the_pauses
                  (sampleConfig directionDown 3 10)
                  (mkRun (scriptOf [goodExchange; goodExchange; goodExchange])
                     [] true) ltac:(cbn; lia))).
Defined.

Example three_tests_two_pauses :
  clock (world (runDownloadTests (sampleConfig directionDown 3 10)
                  (mkRun (scriptOf [goodExchange; goodExchange; goodExchange])
                     [] true)))
  = 3 * 800000000 + 2 * 500000000
  /\ sent (world (runBothTests (sampleConfig directionBoth 2 10)
                    (mkRun (scriptOf [goodExchange; serverErrorExchange;
                                      goodExchange]) [] true)))
     = [downloadRequestOf (sampleConfig directionBoth 2 10);
        uploadRequestOf (sampleConfig directionBoth 2 10)].
Proof. split; vm_compute; reflexivity. Qed.
